(** * SecureCode AI: detection engine, stream worker and connection manager

    A shallow embedding of
      - [backend/api/routers/analysis.py]   ([detect_simple_vulnerabilities]),
      - [backend/ml_service/model_loader.py] ([VulnerabilityDetector]),
      - [backend/workers/stream_processor.py] ([process_code_analysis], [main]),
      - [backend/api/routers/websocket.py]  ([ConnectionManager],
        [websocket_endpoint]),
    followed by the properties the specification states about them.

    Modelling conventions.
      - Python [str] is [string]: a character is a code point below 256
        (Latin-1), and [str.lower], [str.strip] act on these as Python does.
      - Python [float] confidences are rationals ([Q]); the literals of the
        source are kept as written ([0.75], [0.68], [0.82], [0.6]).  Where
        the code compares a [float32] score with the threshold, the
        threshold is rounded as the code rounds it.
      - Exceptions are an explicit result type; [try]/[except] is a match on
        it. [print] is kept only where an error is reported.
      - [uuid.uuid4], the clock, Redis and the sockets are the environment:
        they are explicit arguments (a supply of identifiers, a reading of
        the clock, the outcome of each Redis command, the set of dead
        sockets). *)

From Stdlib Require Import ZArith QArith Ascii String List Bool Lia Sorted.
From stdpp Require Import base option list gmap strings pretty.

Local Open Scope string_scope.
Local Open Scope Z_scope.

#[local] Set Warnings "-clear-no-such-hyp".

(** ** Python values used by the code *)

Module Py.

(** Exceptions that the modelled code can see.  [KeyboardInterrupt] and
    [SystemExit] derive from [BaseException] only; the others derive from
    [Exception]. *)
Inductive exn : Type :=
  | KeyboardInterrupt
  | SystemExit
  | WebSocketDisconnect
  | TypeError (msg : string)
  | AttributeError (msg : string)
  | IndexError (msg : string)
  | ConnectionError (msg : string)
  | ResponseError (msg : string)
  | ValueError (msg : string).

(** [isinstance(e, Exception)] *)
Definition is_Exception (e : exn) : bool :=
  match e with
  | KeyboardInterrupt | SystemExit => false
  | _ => true
  end.

(** [str(e)] *)
Definition str_exn (e : exn) : string :=
  match e with
  | KeyboardInterrupt | SystemExit | WebSocketDisconnect => EmptyString
  | TypeError m | AttributeError m | IndexError m
  | ConnectionError m | ResponseError m | ValueError m => m
  end.

Inductive result (A : Type) : Type :=
  | Ok (a : A)
  | Raise (e : exn).
Arguments Ok {A} a.
Arguments Raise {A} e.

Definition bind {A B} (r : result A) (k : A -> result B) : result B :=
  match r with
  | Ok a => k a
  | Raise e => Raise e
  end.

(** *** [str] methods *)

(** The code points below 256 that [str.lower] changes: [A]..[Z], and the
    accented capitals 192..222 but for the multiplication sign 215. *)
Definition is_upper (c : ascii) : bool :=
  let n := nat_of_ascii c in
  ((65 <=? n) && (n <=? 90)
   || (192 <=? n) && (n <=? 222) && negb (n =? 215))%nat.

Definition lower_char (c : ascii) : ascii :=
  if is_upper c then ascii_of_nat (nat_of_ascii c + 32) else c.

(** [s.lower()] *)
Fixpoint lower (s : string) : string :=
  match s with
  | EmptyString => EmptyString
  | String c s' => String (lower_char c) (lower s')
  end.

(** [s.find(sub)], counted from position [i] of the original string:
    the lowest index where [sub] starts, [-1] when there is none. *)
Fixpoint find_from (i : Z) (sub s : string) : Z :=
  if String.prefix sub s then i
  else match s with
       | EmptyString => -1
       | String _ s' => find_from (i + 1) sub s'
       end.

Definition find (s sub : string) : Z := find_from 0 sub s.

(** [sub in s] *)
Fixpoint contains (sub s : string) : bool :=
  if String.prefix sub s then true
  else match s with
       | EmptyString => false
       | String _ s' => contains sub s'
       end.

(** [str.isspace] on a code point below 256: TAB..CR, FS..US, space,
    NEL and NBSP. *)
Definition is_space (c : ascii) : bool :=
  let n := nat_of_ascii c in
  ((9 <=? n) && (n <=? 13) || (28 <=? n) && (n <=? 32)
   || (n =? 133) || (n =? 160))%nat.

Fixpoint lstrip (s : string) : string :=
  match s with
  | EmptyString => EmptyString
  | String c s' => if is_space c then lstrip s' else s
  end.

Fixpoint rstrip (s : string) : string :=
  match s with
  | EmptyString => EmptyString
  | String c s' =>
      match rstrip s' with
      | EmptyString => if is_space c then EmptyString else String c EmptyString
      | r => String c r
      end
  end.

(** [s.strip()] *)
Definition strip (s : string) : string := rstrip (lstrip s).

(** [s.split('\n')]: never empty, [''.split('\n') = ['']]. *)
Fixpoint split_lines (s : string) : list string :=
  match s with
  | EmptyString => [EmptyString]
  | String c s' =>
      if Ascii.eqb c "010"%char then EmptyString :: split_lines s'
      else match split_lines s' with
           | l :: ls => String c l :: ls
           | [] => [String c EmptyString]
           end
  end.

(** [s[:n]] *)
Fixpoint take (n : nat) (s : string) : string :=
  match n, s with
  | O, _ => EmptyString
  | _, EmptyString => EmptyString
  | S n', String c s' => String c (take n' s')
  end.

(** The one-character string holding a double quote. *)
Definition dquote : string := String "034"%char EmptyString.

(** [enumerate(xs, start)] *)
Fixpoint enumerate {A} (start : Z) (xs : list A) : list (Z * A) :=
  match xs with
  | [] => []
  | x :: xs' => (start, x) :: enumerate (start + 1) xs'
  end.

(** *** JSON-like values ([dict], [list], [str], [int], [None]) *)
#[warnings="-register-all"]
Inductive value : Type :=
  | VNone
  | VBool (b : bool)
  | VInt (n : Z)
  | VStr (s : string)
  | VList (xs : list value)
  | VDict (items : list (string * value)).

Fixpoint assoc {A} (k : string) (items : list (string * A)) : option A :=
  match items with
  | [] => None
  | (k', v) :: rest => if String.eqb k k' then Some v else assoc k rest
  end.

(** [d.get(k)] on a decoded JSON value: [None] for a missing key, and an
    [AttributeError] when the value is not a [dict]. *)
Definition get (d : value) (k : string) : result value :=
  match d with
  | VDict items => Ok (default VNone (assoc k items))
  | _ => Raise (AttributeError "object has no attribute 'get'")
  end.

(** [x > y] on confidences *)
Definition Qgtb (x y : Q) : bool := negb (Qle_bool x y).

(** [format(x, '.0%')]: the percentage rounded to the nearest integer,
    ties to even (for [x >= 0], which is all the code formats). *)
Definition round_half_even (x : Q) : Z :=
  let n := Qnum x in
  let d := Z.pos (Qden x) in
  let q := n / d in
  let r := n mod d in
  match 2 * r ?= d with
  | Lt => q
  | Gt => q + 1
  | Eq => if Z.even q then q else q + 1
  end.

Definition percent (x : Q) : string :=
  pretty (round_half_even (x * 100)%Q) ++ "%".

(** *** Binary floating point

    A Python [float] is a binary64 and a score of the network a binary32;
    both are kept as the rationals they stand for. *)

(** [2 ** e] *)
Definition pow2 (e : Z) : Q :=
  if 0 <=? e then inject_Z (2 ^ e) else 1 # Z.to_pos (2 ^ (- e)).

(** [floor(log2(x))] for [x > 0] *)
Definition ilog2 (x : Q) : Z :=
  let e := Z.log2 (Qnum x) - Z.log2 (Z.pos (Qden x)) in
  if Qle_bool (pow2 e) x then e else e - 1.

(** The value nearest to [x] among the multiples of the unit in the last
    place, ties to even: [prec] bits of precision, and [2 ** emin] the
    smallest positive value.  The exponent is not bounded above: where the
    format overflows to an infinity the result is a finite value beyond
    every value of the format, on the same side. *)
Definition nearest (prec emin : Z) (x : Q) : Q :=
  if Qeq_bool x 0 then 0%Q
  else
    let magnitude := if Qle_bool 0 x then x else (- x)%Q in
    let ulp := pow2 (Z.max (ilog2 magnitude - (prec - 1)) emin) in
    Qred (inject_Z (round_half_even (x / ulp)%Q) * ulp)%Q.

(** The [float] a decimal literal denotes. *)
Definition float64 : Q -> Q := nearest 53 (-1074).

(** The cast of a [float] to a [torch.float32]. *)
Definition float32 : Q -> Q := nearest 24 (-149).

End Py.

Import Py.

(** ** [backend/ml_service/model_loader.py] *)

Module ModelLoader.

(** One entry of the list [predict] returns. *)
Record Prediction : Type := {
  category : string;
  confidence : Q;
  severity : string;
  source : string
}.

Definition vulnerability_labels : list string :=
  [ "SQL Injection";
    "Cross-Site Scripting (XSS)";
    "Hardcoded Secrets";
    "Path Traversal";
    "Command Injection";
    "Insecure Deserialization";
    "SSRF";
    "XXE";
    "Buffer Overflow";
    "Race Condition" ].

Definition str_in (s : string) (l : list string) : bool :=
  existsb (String.eqb s) l.

Definition _get_severity (category : string) : string :=
  let critical := ["SQL Injection"; "Command Injection"; "Buffer Overflow"] in
  let high := ["Cross-Site Scripting (XSS)"; "Path Traversal";
               "Insecure Deserialization"; "SSRF"; "XXE"] in
  if str_in category critical then "CRITICAL"
  else if str_in category high then "HIGH"
  else "MEDIUM".

(** [self.vulnerability_labels[idx]] for [idx >= 0] *)
Definition label_at (idx : Z) : result string :=
  match nth_error vulnerability_labels (Z.to_nat idx) with
  | Some l => Ok l
  | None => Raise (IndexError "list index out of range")
  end.

(** The tokenizer, the network and [torch.sigmoid] together: from the code
    to the row [predictions[0]] of [float32] scores, each as the rational
    [float(score)] gives, or an exception. *)
Definition Network : Type := string -> result (list Q).

(** [self.model] and [self.tokenizer] are set together by [__init__]: both
    loaded, or both [None] when loading failed. *)
Record VulnerabilityDetector : Type := {
  model : option Network
}.

(** [score > threshold] for a [float32] element [score] of the tensor
    [predictions[0]] and the Python [float] [threshold]: torch compares in
    the type of the tensor, so the threshold is cast to [float32] first.
    For [threshold=0.6] the comparison is with [5033165 / 8388608]. *)
Definition exceeds (score threshold : Q) : bool :=
  Qgtb score (float32 (float64 threshold)).

(** The loop [for idx, score in enumerate(predictions[0])] with its
    accumulator [results]. *)
Fixpoint extract (threshold : Q) (scored : list (Z * Q))
    (results : list Prediction) : result (list Prediction) :=
  match scored with
  | [] => Ok results
  | (idx, score) :: rest =>
      if exceeds score threshold then
        bind (label_at idx) (fun label =>
        extract threshold rest
          (results ++ [ {| category := label;
                           confidence := score;
                           severity := _get_severity label;
                           source := "ml_model" |} ]))
      else extract threshold rest results
  end.

(** [predict] hands back what it printed and what it returned. *)
Definition predict (self : VulnerabilityDetector) (code : string)
    (threshold : Q) : list string * result (list Prediction) :=
  match model self with
  | None => ([], Ok [])
  | Some net =>
      match bind (net code) (fun scores =>
                  extract threshold (enumerate 0 scores) []) with
      | Ok results => ([], Ok results)
      | Raise e =>
          if is_Exception e
          then (["Error in ML prediction: " ++ str_exn e], Ok [])
          else ([], Raise e)
      end
  end.

End ModelLoader.

(** ** [backend/api/routers/analysis.py]: the detection engine *)

Module Analysis.

(** The pydantic model [Vulnerability]. *)
Record Vulnerability : Type := {
  id : string;
  category : string;
  severity : string;
  line_number : Z;
  column_number : Z;
  message : string;
  code_snippet : string;
  confidence_score : Q
}.

(** What [detect_simple_vulnerabilities] needs from the object
    [get_detector()] returns: a [predict] method, which may print, and
    returns the predictions or raises. *)
Class Detector (D : Type) : Type := {
  predict :
    D -> string -> Q -> list string * result (list ModelLoader.Prediction)
}.

#[export] Instance VulnerabilityDetector_Detector :
  Detector ModelLoader.VulnerabilityDetector :=
  {| predict := ModelLoader.predict |}.

Definition sql_patterns : list string :=
  ["execute("; "cursor.execute("; ".query("; "SELECT * FROM"].

Definition xss_patterns : list string :=
  ["innerHTML ="; "document.write("; "eval("].

Definition secret_patterns : list string :=
  ["password ="; "api_key ="; "secret ="; "token ="].

(** The list [vulnerabilities] under construction, and the number of
    identifiers already drawn from [uuid.uuid4]. *)
Record state : Type := {
  vulnerabilities : list Vulnerability;
  drawn : nat
}.

Definition start : state := {| vulnerabilities := []; drawn := 0 |}.

Section Engine.

(** [uuid4 n] is [str(uuid.uuid4())] at the [n]-th call of this run. *)
Variable uuid4 : nat -> string.

(** [vulnerabilities.append(Vulnerability(id=str(uuid.uuid4()), ...))] *)
Definition append (st : state) (mk : string -> Vulnerability) : state :=
  {| vulnerabilities := vulnerabilities st ++ [mk (uuid4 (drawn st))];
     drawn := S (drawn st) |}.

Definition sql_finding (line_num : Z) (line pattern id : string)
    : Vulnerability :=
  {| id := id;
     category := "SQL Injection";
     severity := "CRITICAL";
     line_number := line_num;
     column_number := find line pattern;
     message := "Possible SQL injection: String concatenation in SQL query";
     code_snippet := strip line;
     confidence_score := 0.75 |}.

Definition xss_finding (line_num : Z) (line pattern id : string)
    : Vulnerability :=
  {| id := id;
     category := "Cross-Site Scripting (XSS)";
     severity := "HIGH";
     line_number := line_num;
     column_number := find line pattern;
     message := "Possible XSS vulnerability: Unsafe HTML manipulation";
     code_snippet := strip line;
     confidence_score := 0.68 |}.

Definition secret_finding (line_num : Z) (line pattern id : string)
    : Vulnerability :=
  {| id := id;
     category := "Hardcoded Secrets";
     severity := "HIGH";
     line_number := line_num;
     column_number := find line pattern;
     message := "Hardcoded secret detected: Use environment variables instead";
     code_snippet := strip line;
     confidence_score := 0.82 |}.

(** [for pattern in sql_patterns: if pattern.lower() in line_lower and
    '+' in line: ...] *)
Definition check_sql (line_num : Z) (line : string) (st : state) : state :=
  let line_lower := lower line in
  fold_left (fun st pattern =>
      if contains (lower pattern) line_lower && contains "+" line
      then append st (sql_finding line_num line pattern)
      else st)
    sql_patterns st.

Definition check_xss (line_num : Z) (line : string) (st : state) : state :=
  let line_lower := lower line in
  fold_left (fun st pattern =>
      if contains (lower pattern) line_lower
      then append st (xss_finding line_num line pattern)
      else st)
    xss_patterns st.

Definition check_secrets (line_num : Z) (line : string) (st : state)
    : state :=
  let line_lower := lower line in
  fold_left (fun st pattern =>
      if contains (lower pattern) line_lower
         && (contains "=" line || contains ":" line)
      then if contains dquote line || contains "'" line
           then append st (secret_finding line_num line pattern)
           else st
      else st)
    secret_patterns st.

(** The body of [for line_num, line in enumerate(lines, start=1)]. *)
Definition scan_line (st : state) (numbered : Z * string) : state :=
  let '(line_num, line) := numbered in
  check_secrets line_num line (check_xss line_num line
    (check_sql line_num line st)).

(** The pattern-based part, from [vulnerabilities = []] to the end of the
    loop over the lines. *)
Definition pattern_detection (code : string) : state :=
  fold_left scan_line (enumerate 1 (split_lines code)) start.

Definition ml_finding (code : string) (pred : ModelLoader.Prediction)
    (id : string) : Vulnerability :=
  {| id := id;
     category := ModelLoader.category pred;
     severity := ModelLoader.severity pred;
     line_number := 1;
     column_number := 0;
     message := "ML Model detected " ++ ModelLoader.category pred
                ++ " (confidence: " ++ percent (ModelLoader.confidence pred)
                ++ ")";
     code_snippet :=
       if Z.of_nat (String.length code) >? 100
       then take 100 code ++ "..." else code;
     confidence_score := ModelLoader.confidence pred |}.

(** [any(v.category == pred['category'] for v in vulnerabilities)] *)
Definition is_duplicate (pred : ModelLoader.Prediction) (st : state) : bool :=
  existsb (fun v => String.eqb (category v) (ModelLoader.category pred))
          (vulnerabilities st).

(** [for pred in ml_predictions: ...] *)
Definition add_ml_predictions (code : string)
    (ml_predictions : list ModelLoader.Prediction) (st : state) : state :=
  fold_left (fun st pred =>
      if is_duplicate pred st then st
      else append st (ml_finding code pred))
    ml_predictions st.

(** What a call of [detect_simple_vulnerabilities] leaves behind: the lines
    it printed and the list it returned (or the exception it let through). *)
Record outcome : Type := {
  printed : list string;
  returned : result (list Vulnerability)
}.

(** [detector = get_detector()] and
    [ml_predictions = detector.predict(code, threshold=0.6)]; the module
    global [get_detector] is given by the outcome of the call
    [get_detector()]. *)
Definition classify {D} `{Detector D} (get_detector : result D)
    (code : string) : list string * result (list ModelLoader.Prediction) :=
  match get_detector with
  | Ok detector => predict detector code 0.6
  | Raise e => ([], Raise e)
  end.

(** [detect_simple_vulnerabilities(code, language)].  The module globals
    [ML_AVAILABLE] and [get_detector] are arguments. *)
Definition detect_simple_vulnerabilities {D} `{Detector D}
    (ML_AVAILABLE : bool) (get_detector : result D)
    (code language : string) : outcome :=
  let st := pattern_detection code in
  if ML_AVAILABLE then
    match classify get_detector code with
    | (out, Ok ml_predictions) =>
        {| printed := out;
           returned :=
             Ok (vulnerabilities (add_ml_predictions code ml_predictions st)) |}
    | (out, Raise e) =>
        if is_Exception e
        then {| printed :=
                  (out ++ [("ML detection error: " ++ str_exn e)%string])%list;
                returned := Ok (vulnerabilities st) |}
        else {| printed := out; returned := Raise e |}
    end
  else {| printed := []; returned := Ok (vulnerabilities st) |}.

End Engine.

End Analysis.

(** ** [backend/workers/stream_processor.py]: the stream worker *)

Module StreamProcessor.

(** What the worker does to the outside world, in the order it does it. *)
Inductive effect : Type :=
  | SETEX (key : string) (seconds : Z) (data : value)
      (** [redis_client.setex(key, seconds, json.dumps(data))] *)
  | XACK (stream group message_id : string)
  | SLEEP (seconds : Z).

(** What the outside world does while one entry is processed: the reading
    of the clock, and whether Redis answers [setex] and [xack] or raises. *)
Record conditions : Type := {
  utcnow : string;
  setex_raises : option exn;
  xack_raises : option exn
}.

(** [str(x)] for the result of [dict.get] on a dict of strings. *)
Definition str_opt (x : option string) : string := default "None" x.

Definition value_opt (x : option string) : value :=
  match x with
  | Some s => VStr s
  | None => VNone
  end.

(** The worker threads the list of effects and may raise. *)
Definition run (A : Type) : Type := list effect * result A.

Definition ret {A} (a : A) : run A := ([], Ok a).

Definition seq {A B} (m : run A) (k : A -> run B) : run B :=
  match m with
  | (t, Ok a) => let '(t', r) := k a in ((t ++ t')%list, r)
  | (t, Raise e) => (t, Raise e)
  end.

Notation "'let*' x ':=' m 'in' k" := (seq m (fun x => k))
  (at level 10, x name, m at level 100, k at level 200, only parsing).

(** A call that Redis answers or refuses. *)
Definition redis_call (answer : option exn) (eff : effect) : run unit :=
  match answer with
  | None => ([eff], Ok tt)
  | Some e => ([], Raise e)
  end.

(** [len(code)] where [code] is [message_data.get('code')]. *)
Definition len (code : option string) : run Z :=
  match code with
  | Some c => ret (Z.of_nat (String.length c))
  | None => ([], Raise (TypeError "object of type 'NoneType' has no len()"))
  end.

Definition process_code_analysis (message_data : gmap string string)
    (w : conditions) : run unit :=
  let code := message_data !! "code" in
  let language := message_data !! "language" in
  let file_path := message_data !! "file_path" in
  let* _ := len code in
  let result :=
    VDict [ ("analysis_id", value_opt (message_data !! "analysis_id"));
            ("status", VStr "completed");
            ("processed_at", VStr (utcnow w));
            ("vulnerabilities_found", VInt 0) ] in
  redis_call (setex_raises w)
    (SETEX ("result:" ++ str_opt (message_data !! "analysis_id")) 3600 result).

(** One delivered entry [(message_id, message_data)], with the conditions
    under which it is processed. *)
Definition delivery : Type := (string * gmap string string) * conditions.

(** [for message_id, message_data in message_list: ...] *)
Fixpoint process_message_list (message_list : list delivery) : run unit :=
  match message_list with
  | [] => ret tt
  | ((message_id, message_data), w) :: rest =>
      let* _ := process_code_analysis message_data w in
      let* _ := redis_call (xack_raises w)
                  (XACK "code_analysis_stream" "analysis_workers" message_id) in
      process_message_list rest
  end.

(** [for stream_name, message_list in messages: ...] *)
Fixpoint process_messages (messages : list (string * list delivery))
    : run unit :=
  match messages with
  | [] => ret tt
  | (stream_name, message_list) :: rest =>
      let* _ := process_message_list message_list in
      process_messages rest
  end.

(** The answer to one [xreadgroup]: the messages (none when the second of
    blocking passed without any), or an exception. *)
Definition read : Type := result (list (string * list delivery)).

Inductive control : Type := Continue | Break.

(** The [try] block of one turn: the read, then the entries read. *)
Definition try_block (r : read) : run unit :=
  match r with
  | Ok messages => process_messages messages
  | Raise e => ([], Raise e)
  end.

(** One turn of [while True]: the [try] block and its two handlers.  An
    exception that is neither [KeyboardInterrupt] nor an [Exception] leaves
    the loop.  [interrupt] is what is raised inside the handler that runs,
    if anything is (a [KeyboardInterrupt] during [time.sleep(1)] or during
    a [print], say): raised inside a handler, it is caught by no clause of
    the [try] and leaves the loop, whatever it is. *)
Definition turn (r : read) (interrupt : option exn) : run control :=
  match try_block r with
  | (t, Ok _) => (t, Ok Continue)
  | (t, Raise KeyboardInterrupt) =>
      match interrupt with
      | None => (t, Ok Break)
      | Some raised => (t, Raise raised)
      end
  | (t, Raise e) =>
      if is_Exception e then
        match interrupt with
        | None => ((t ++ [SLEEP 1])%list, Ok Continue)
        | Some raised => (t, Raise raised)
        end
      else (t, Raise e)
  end.

(** The turn in which nothing interrupts a handler. *)
Definition iteration (r : read) : run control := turn r None.

(** How a run of the worker over a finite script of reads ends. *)
Inductive status : Type :=
  | Running      (** the script is used up, the loop is still turning *)
  | Stopped      (** [break], then ["Worker stopped"] *)
  | Crashed (e : exn).

Fixpoint loop (script : list read) : list effect * status :=
  match script with
  | [] => ([], Running)
  | r :: rest =>
      match iteration r with
      | (t, Ok Continue) => let '(t', s) := loop rest in ((t ++ t')%list, s)
      | (t, Ok Break) => (t, Stopped)
      | (t, Raise e) => (t, Crashed e)
      end
  end.

(** The loop over a script that also says, for each turn, what interrupts
    its handler. *)
Fixpoint interruptible_loop (script : list (read * option exn))
    : list effect * status :=
  match script with
  | [] => ([], Running)
  | (r, interrupt) :: rest =>
      match turn r interrupt with
      | (t, Ok Continue) =>
          let '(t', s) := interruptible_loop rest in ((t ++ t')%list, s)
      | (t, Ok Break) => (t, Stopped)
      | (t, Raise e) => (t, Crashed e)
      end
  end.

(** [main()]: the consumer group is created (a [ResponseError] that says
    BUSYGROUP is fine, anything else is raised), then the loop. *)
Definition main (xgroup_create : option exn) (script : list read)
    : list effect * status :=
  match xgroup_create with
  | None => loop script
  | Some (ResponseError msg) =>
      if contains "BUSYGROUP" msg then loop script
      else ([], Crashed (ResponseError msg))
  | Some e => ([], Crashed e)
  end.

(** The Result Store and the acknowledged entries, read off the effects. *)
Record redis : Type := {
  store : gmap string (Z * value);
  acked : gset string
}.

Definition apply_effect (r : redis) (eff : effect) : redis :=
  match eff with
  | SETEX key seconds data =>
      {| store := <[key := (seconds, data)]> (store r); acked := acked r |}
  | XACK _ _ message_id =>
      {| store := store r; acked := {[message_id]} ∪ acked r |}
  | SLEEP _ => r
  end.

Definition apply_effects (t : list effect) (r : redis) : redis :=
  fold_left apply_effect t r.

End StreamProcessor.

(** ** [backend/api/routers/websocket.py]: the connection manager *)

Module Websocket.

(** A connection handle; two handles are the same object when they are
    equal. *)
Definition WebSocket : Type := nat.

Record ConnectionManager : Type := {
  active_connections : gmap string (gset WebSocket)
}.

(** [ConnectionManager.connect], after [websocket.accept()] has returned. *)
Definition connect (self : ConnectionManager) (websocket : WebSocket)
    (client_id : string) : ConnectionManager :=
  let conns :=
    match active_connections self !! client_id with
    | Some conns => conns
    | None => ∅
    end in
  {| active_connections :=
       <[client_id := conns ∪ {[websocket]}]> (active_connections self) |}.

Definition disconnect (self : ConnectionManager) (websocket : WebSocket)
    (client_id : string) : ConnectionManager :=
  match active_connections self !! client_id with
  | Some conns =>
      let conns' := conns ∖ {[websocket]} in
      if decide (conns' = ∅)
      then {| active_connections := delete client_id (active_connections self) |}
      else {| active_connections :=
                <[client_id := conns']> (active_connections self) |}
  | None => self
  end.

Section Broadcast.

(** [send_json connection message] is how [connection.send_json(message)]
    ends: [None] when the message went out, the exception otherwise. *)
Variable send_json : WebSocket -> value -> option exn.

(** The first loop of [broadcast_to_client], over the handles in the order
    the set yields them: the set [disconnected] and the messages that went
    out.  The bare [except:] catches whatever is raised. *)
Definition attempt (message : value)
    (acc : gset WebSocket * list (WebSocket * value))
    (connection : WebSocket) : gset WebSocket * list (WebSocket * value) :=
  let '(disconnected, delivered) := acc in
  match send_json connection message with
  | None => (disconnected, (delivered ++ [(connection, message)])%list)
  | Some _ => (disconnected ∪ {[connection]}, delivered)
  end.

(** The second loop: [for conn in disconnected: ....discard(conn)]. *)
Definition discard_all (disconnected : gset WebSocket)
    (conns : gset WebSocket) : gset WebSocket :=
  fold_left (fun conns conn => conns ∖ {[conn]}) (elements disconnected) conns.

Definition broadcast_to_client (self : ConnectionManager) (message : value)
    (client_id : string)
    : ConnectionManager * list (WebSocket * value) :=
  match active_connections self !! client_id with
  | Some conns =>
      let '(disconnected, delivered) :=
        fold_left (attempt message) (elements conns) (∅, []) in
      ({| active_connections :=
            <[client_id := discard_all disconnected conns]>
              (active_connections self) |},
       delivered)
  | None => (self, [])
  end.

(** [for client_id in list(self.active_connections.keys()): ...] *)
Definition broadcast_to_all (self : ConnectionManager) (message : value)
    : ConnectionManager * list (WebSocket * value) :=
  fold_left (fun acc client_id =>
      let '(self, delivered) := acc in
      let '(self', delivered') := broadcast_to_client self message client_id in
      (self', (delivered ++ delivered')%list))
    (elements (dom (active_connections self))) (self, []).

End Broadcast.

(** *** The endpoint of one push session *)

(** What the session does on its own socket, in order. *)
Inductive event : Type :=
  | Sent (message : value)
  | Slept (seconds : Q).

Record session : Type := {
  events : list event;
  attempts : nat            (** calls of [send_json] made so far *)
}.

(** A step of the handler: it changes the session and may raise. *)
Definition task (A : Type) : Type := session -> session * result A.

Definition pure {A} (a : A) : task A := fun s => (s, Ok a).

Definition lift {A} (r : result A) : task A := fun s => (s, r).

Definition andthen {A B} (m : task A) (k : A -> task B) : task B :=
  fun s =>
    match m s with
    | (s', Ok a) => k a s'
    | (s', Raise e) => (s', Raise e)
    end.

Notation "'await' x ':=' m 'in' k" := (andthen m (fun x => k))
  (at level 10, x name, m at level 100, k at level 200, only parsing).

Section Endpoint.

(** [link n] is how the [n]-th [send_json] on the session's socket ends. *)
Variable link : nat -> option exn.

(** [manager.send_personal_message(message, websocket)] *)
Definition send_personal_message (message : value) : task unit :=
  fun s =>
    match link (attempts s) with
    | None => ({| events := (events s ++ [Sent message])%list;
                  attempts := S (attempts s) |}, Ok tt)
    | Some e => ({| events := events s; attempts := S (attempts s) |}, Raise e)
    end.

(** [asyncio.sleep(seconds)] *)
Definition sleep (seconds : Q) : task unit :=
  fun s => ({| events := (events s ++ [Slept seconds])%list;
               attempts := attempts s |}, Ok tt).

(** [v == s] for a decoded value and a string literal. *)
Definition is_str (v : value) (s : string) : bool :=
  match v with
  | VStr s' => String.eqb s' s
  | _ => false
  end.

(** The body of the receive loop once [json.loads(data)] has returned
    [message]. *)
Definition dispatch (message : value) : task unit :=
  await ty := lift (get message "type") in
  if is_str ty "ping" then
    await timestamp := lift (get message "timestamp") in
    send_personal_message
      (VDict [("type", VStr "pong"); ("timestamp", timestamp)])
  else
    await ty := lift (get message "type") in
    if is_str ty "analyze" then
      await analysis_id := lift (get message "analysis_id") in
      await _ := send_personal_message
        (VDict [("type", VStr "analysis_queued");
                ("analysis_id", analysis_id);
                ("status", VStr "processing")]) in
      await _ := sleep 0.5 in
      await analysis_id := lift (get message "analysis_id") in
      send_personal_message
        (VDict [("type", VStr "analysis_result");
                ("analysis_id", analysis_id);
                ("status", VStr "completed");
                ("vulnerabilities", VList [])])
    else pure tt.

(** [while True: data = await websocket.receive_text();
    message = json.loads(data); ...].  Each element of [inbound] is what
    these two lines produce: a decoded message, or the exception one of
    them raised.  [None] means that the loop is still waiting. *)
Fixpoint receive_loop (inbound : list (result value)) : task (option exn) :=
  match inbound with
  | [] => pure None
  | r :: rest =>
      await message := lift r in
      await _ := dispatch message in
      receive_loop rest
  end.

Definition welcome (client_id : string) : value :=
  VDict [("type", VStr "connection");
         ("status", VStr "connected");
         ("client_id", VStr client_id);
         ("message", VStr "Connected to SecureCode AI")].

Inductive ending : Type :=
  | Open                    (** still in the receive loop *)
  | Closed                  (** an [except] branch ran [manager.disconnect] *)
  | Propagated (e : exn).

(** [websocket_endpoint(websocket, client_id)]; [accept] is how
    [websocket.accept()] ends. *)
Definition websocket_endpoint (accept : option exn)
    (inbound : list (result value))
    (manager : ConnectionManager) (websocket : WebSocket)
    (client_id : string) : ConnectionManager * list event * ending :=
  match accept with
  | Some e => (manager, [], Propagated e)
  | None =>
      let manager := connect manager websocket client_id in
      let body :=
        await _ := send_personal_message (welcome client_id) in
        receive_loop inbound in
      match body {| events := []; attempts := 0 |} with
      | (s, Ok _) => (manager, events s, Open)
      | (s, Raise e) =>
          if is_Exception e
          then (disconnect manager websocket client_id, events s, Closed)
          else (manager, events s, Propagated e)
      end
  end.

End Endpoint.

End Websocket.

(** * Properties *)

(** ** Views of the engine used in the proofs *)

Module AnalysisFacts.
Import Analysis.

(** A finding with its identifier replaced. *)
Definition set_id (i : string) (v : Vulnerability) : Vulnerability :=
  {| id := i;
     category := category v;
     severity := severity v;
     line_number := line_number v;
     column_number := column_number v;
     message := message v;
     code_snippet := code_snippet v;
     confidence_score := confidence_score v |}.

(** Every field but the identifier. *)
Definition anonymous (v : Vulnerability) : Vulnerability := set_id EmptyString v.

(** A constructor of findings that uses its argument as the identifier and
    nowhere else. *)
Definition uniform (mk : string -> Vulnerability) : Prop :=
  forall i, mk i = set_id i (mk EmptyString).

(** The findings made from [mks] with the identifiers drawn from the
    [n]-th on. *)
Fixpoint issue (uuid4 : nat -> string) (n : nat)
    (mks : list (string -> Vulnerability)) : list Vulnerability :=
  match mks with
  | [] => []
  | mk :: rest => mk (uuid4 n) :: issue uuid4 (S n) rest
  end.

Definition sql_hit (line pattern : string) : bool :=
  contains (lower pattern) (lower line) && contains "+" line.

Definition xss_hit (line pattern : string) : bool :=
  contains (lower pattern) (lower line).

Definition secret_hit (line pattern : string) : bool :=
  contains (lower pattern) (lower line)
  && (contains "=" line || contains ":" line)
  && (contains dquote line || contains "'" line).

(** The findings of one line, still waiting for their identifiers. *)
Definition line_findings (numbered : Z * string)
    : list (string -> Vulnerability) :=
  let '(line_num, line) := numbered in
  (map (sql_finding line_num line) (List.filter (sql_hit line) sql_patterns)
   ++ map (xss_finding line_num line)
        (List.filter (xss_hit line) xss_patterns)
   ++ map (secret_finding line_num line)
        (List.filter (secret_hit line) secret_patterns))%list.

Definition pattern_findings (code : string)
    : list (string -> Vulnerability) :=
  flat_map line_findings (enumerate 1 (split_lines code)).

(** The predictions that pass the duplicate test, given the categories
    [seen] so far. *)
Fixpoint survivors (seen : list string)
    (preds : list ModelLoader.Prediction) : list ModelLoader.Prediction :=
  match preds with
  | [] => []
  | pred :: rest =>
      if existsb (fun c => String.eqb c (ModelLoader.category pred)) seen
      then survivors seen rest
      else pred :: survivors (seen ++ [ModelLoader.category pred])%list rest
  end.

(** [vulnerabilities.append] over a list of constructors. *)
Definition extend (uuid4 : nat -> string) (st : state)
    (mks : list (string -> Vulnerability)) : state :=
  fold_left (append uuid4) mks st.

(** [v.category == c] *)
Definition has_category (c : string) (v : Vulnerability) : bool :=
  String.eqb (category v) c.

(** The claim on the shape of a finding, and what is left of it when the
    column is only known to be at least [-1]. *)
Definition well_formed (v : Vulnerability) : Prop :=
  0 <= column_number v
  /\ (0 <= confidence_score v <= 1)%Q
  /\ In (category v) ModelLoader.vulnerability_labels.

Definition well_formed_but_column (v : Vulnerability) : Prop :=
  -1 <= column_number v
  /\ (0 <= confidence_score v <= 1)%Q
  /\ In (category v) ModelLoader.vulnerability_labels.

(** [torch.sigmoid] gives scores that are at most one. *)
Definition sigmoid_range (detector : ModelLoader.VulnerabilityDetector)
    : Prop :=
  forall net code scores,
    ModelLoader.model detector = Some net ->
    net code = Ok scores ->
    Forall (fun score => (score <= 1)%Q) scores.

(** A prediction above the threshold, as [predict] compares them, with a
    label of the vocabulary. *)
Definition above (threshold : Q) (pred : ModelLoader.Prediction) : Prop :=
  In (ModelLoader.category pred) ModelLoader.vulnerability_labels
  /\ (float32 (float64 threshold) < ModelLoader.confidence pred <= 1)%Q.

(** The classifier call ended in something [except Exception] does not
    catch (a [KeyboardInterrupt], a [SystemExit]). *)
Definition interrupted {A} (r : list string * result A) : bool :=
  match r with
  | (_, Raise e) => negb (is_Exception e)
  | (_, Ok _) => false
  end.

(** [f] applied under [Ok]. *)
Definition on_ok {A B} (f : A -> B) (r : result A) : result B :=
  match r with
  | Ok a => Ok (f a)
  | Raise e => Raise e
  end.

End AnalysisFacts.

(** ** Views of the worker used in the proofs *)

Module StreamFacts.
Import StreamProcessor.

(** The body of the inner loop for one entry: process, then acknowledge. *)
Definition handle_entry (d : delivery) : run unit :=
  let '((message_id, message_data), w) := d in
  let* _ := process_code_analysis message_data w in
  redis_call (xack_raises w)
    (XACK "code_analysis_stream" "analysis_workers" message_id).

(** The value the worker stores for an entry. *)
Definition stored_result (message_data : gmap string string)
    (w : conditions) : value :=
  VDict [ ("analysis_id", value_opt (message_data !! "analysis_id"));
          ("status", VStr "completed");
          ("processed_at", VStr (utcnow w));
          ("vulnerabilities_found", VInt 0) ].

Definition result_key (message_data : gmap string string) : string :=
  "result:" ++ str_opt (message_data !! "analysis_id").

Definition ack (message_id : string) : effect :=
  XACK "code_analysis_stream" "analysis_workers" message_id.

Definition initial : redis := {| store := ∅; acked := ∅ |}.

End StreamFacts.

(** ** Views of the connection manager used in the proofs *)

Module WebsocketFacts.
Import Websocket.

(** No client identifier is mapped to an empty set of handles. *)
Definition no_empty_sets (self : ConnectionManager) : Prop :=
  forall client_id conns,
    active_connections self !! client_id = Some conns -> conns <> ∅.

Definition analysis_queued (analysis_id : value) : value :=
  VDict [("type", VStr "analysis_queued");
         ("analysis_id", analysis_id);
         ("status", VStr "processing")].

Definition analysis_result (analysis_id : value) : value :=
  VDict [("type", VStr "analysis_result");
         ("analysis_id", analysis_id);
         ("status", VStr "completed");
         ("vulnerabilities", VList [])].

End WebsocketFacts.

(** ** Concrete inputs *)

Module Examples.
Import Analysis.

(** Identifiers numbered by call, and a second run that draws others. *)
Definition serial (n : nat) : string := "uuid-" ++ pretty n.
Definition other_serial (n : nat) : string := "run2-" ++ pretty n.

(** A network that is sure of SQL injection and of nothing else. *)
Definition sql_network : ModelLoader.Network :=
  fun _ => Ok [0.9; 0.1; 0.1; 0.1; 0.1; 0.1; 0.1; 0.1; 0.1; 0.1]%Q.

Definition sql_detector : ModelLoader.VulnerabilityDetector :=
  {| ModelLoader.model := Some sql_network |}.

(** The detector whose model could not be loaded. *)
Definition unloaded : ModelLoader.VulnerabilityDetector :=
  {| ModelLoader.model := None |}.

(** A network that fails at inference. *)
Definition broken_network : ModelLoader.Network :=
  fun _ => Raise (ValueError "bad tensor").

Definition broken_detector : ModelLoader.VulnerabilityDetector :=
  {| ModelLoader.model := Some broken_network |}.

Definition newline : string := String "010"%char EmptyString.

Definition sql_prediction : ModelLoader.Prediction :=
  {| ModelLoader.category := "SQL Injection";
     ModelLoader.confidence := 0.9;
     ModelLoader.severity := "CRITICAL";
     ModelLoader.source := "ml_model" |}.

(** Redis answers, the clock reads noon. *)
Definition calm : StreamProcessor.conditions :=
  {| StreamProcessor.utcnow := "2024-01-01T12:00:00";
     StreamProcessor.setex_raises := None;
     StreamProcessor.xack_raises := None |}.

(** An entry whose code has a SQL injection on its only line. *)
Definition vulnerable_entry : gmap string string :=
  list_to_map [ ("analysis_id", "a1"); ("scan_id", "s1");
                ("code", "Execute(a+b)"); ("file_path", "app.py");
                ("language", "python"); ("project_id", "default");
                ("timestamp", "2024-01-01T11:59:59") ].

(** An entry without the field [code]. *)
Definition malformed_entry : gmap string string :=
  list_to_map [ ("analysis_id", "a0"); ("language", "python") ].

Definition bad_delivery : StreamProcessor.delivery :=
  (("1-0", malformed_entry), calm).

Definition good_delivery : StreamProcessor.delivery :=
  (("2-0", vulnerable_entry), calm).

(** Two tabs of one client; the socket of the first is dead. *)
Definition two_tabs : Websocket.ConnectionManager :=
  {| Websocket.active_connections := {[ "client-1" := {[ 1%nat; 2%nat ]} ]} |}.

Definition first_tab_dead (connection : Websocket.WebSocket) (_ : value)
    : option exn :=
  if Nat.eqb connection 1 then Some (ConnectionError "socket closed")
  else None.

Definition all_dead (_ : Websocket.WebSocket) (_ : value) : option exn :=
  Some (ConnectionError "socket closed").

Definition hello : value := VDict [("type", VStr "hello")].

(** A socket that takes every message. *)
Definition sound (_ : nat) : option exn := None.

Definition analyze_request : value :=
  VDict [("type", VStr "analyze"); ("analysis_id", VStr "a1")].

Definition fresh : Websocket.session :=
  {| Websocket.events := []; Websocket.attempts := 0 |}.

End Examples.

(** ** [model_loader.py]: the singleton detector *)

Module Singleton.
Import ModelLoader.

(** [VulnerabilityDetector.__init__]; [load] is how the two
    [from_pretrained] calls and [model.eval()] end.  An [Exception] leaves
    the detector without model; the lines printed are not kept. *)
Definition __init__ (load : result Network) : result VulnerabilityDetector :=
  match load with
  | Ok net => Ok {| model := Some net |}
  | Raise e =>
      if is_Exception e then Ok {| model := None |} else Raise e
  end.

(** [get_detector()]: the module global [_detector] before the call, and
    the pair of the detector returned and the global after it. *)
Definition get_detector (load : result Network)
    (_detector : option VulnerabilityDetector)
    : result (VulnerabilityDetector * option VulnerabilityDetector) :=
  match _detector with
  | None =>
      bind (__init__ load) (fun detector => Ok (detector, Some detector))
  | Some detector => Ok (detector, Some detector)
  end.

End Singleton.

(** ** [websocket.py]: the count of clients *)

Module WebsocketStats.
Import Websocket.

(** [sum(len(conns) for conns in manager.active_connections.values())] *)
Definition total_connections (manager : ConnectionManager) : nat :=
  map_fold (fun _ conns total => (size conns + total)%nat) 0%nat
    (active_connections manager).

(** [get_connected_clients()]: the pair
    [(total_clients, total_connections)] of the object returned. *)
Definition get_connected_clients (manager : ConnectionManager)
    : nat * nat :=
  (size (active_connections manager), total_connections manager).

End WebsocketStats.

(** ** [analysis.py]: the endpoints *)

Module Routes.
Import Analysis.

(** [CodeAnalysisRequest] *)
Record CodeAnalysisRequest : Type := {
  code : string;
  file_path : string;
  language : string;
  project_id : option string
}.

(** [AnalysisResponse] *)
Record AnalysisResponse : Type := {
  analysis_id : string;
  status : string;
  vulnerabilities : list Vulnerability;
  analyzed_at : string;
  scan_id : option string
}.

(** What an endpoint does to the database session, to Redis and to the
    stream, in the order it does it. *)
Inductive op : Type :=
  | AddScan (scan_type status : string)
      (** [db.add(schemas.Scan(scan_type=..., status=...))] *)
  | Commit
  | Refresh
  | AddVulnerability (scan_id : string) (v : Vulnerability)
      (file_path status : string)
      (** [db.add(schemas.Vulnerability(...))] *)
  | CompleteScan (completed_at : string) (total_vulnerabilities total_files : Z)
      (** [scan.status = 'completed'] and the three assignments after it *)
  | Rollback
  | XADD (stream : string) (message : gmap string string)
  | Setex (key : string) (seconds : Z) (data : value).

(** How a call of an endpoint ends. *)
Inductive reply (A : Type) : Type :=
  | Respond (a : A)
  | HTTPException (status_code : Z) (detail : string)
  | Uncaught (e : exn).
Arguments Respond {A} a.
Arguments HTTPException {A} status_code detail.
Arguments Uncaught {A} e.

(** What the outside world does during one request: the identifier the
    database gives the scan, how the commits and the Redis call end, and
    the readings of the clock, in the order the code takes them. *)
Record surroundings : Type := {
  new_scan_id : string;
  first_commit : option exn;
  redis_raises : option exn;
  second_commit : option exn;
  timestamp : string;
  completed_at : string;
  finished_at : string
}.

Definition steps (A : Type) : Type := list op * result A.

Definition unit_step {A} (a : A) : steps A := ([], Ok a).

Definition next {A B} (m : steps A) (k : A -> steps B) : steps B :=
  match m with
  | (t, Ok a) => let '(t', r) := k a in ((t ++ t')%list, r)
  | (t, Raise e) => (t, Raise e)
  end.

Notation "'perform' x ':=' m 'in' k" := (next m (fun x => k))
  (at level 10, x name, m at level 100, k at level 200, only parsing).

(** A call that the outside world lets through or refuses. *)
Definition call (answer : option exn) (o : op) : steps unit :=
  match answer with
  | None => ([o], Ok tt)
  | Some e => ([], Raise e)
  end.

(** The handler shared by the two POST endpoints:
    [except Exception as e: db.rollback();
     raise HTTPException(status_code=500, detail=str(e))]. *)
Definition guarded {A} (body : steps A) : list op * reply A :=
  match body with
  | (t, Ok a) => (t, Respond a)
  | (t, Raise e) =>
      if is_Exception e
      then ((t ++ [Rollback])%list, HTTPException 500 (str_exn e))
      else (t, Uncaught e)
  end.

(** [request.project_id or 'default'] *)
Definition project_or_default (project_id : option string) : string :=
  match project_id with
  | Some EmptyString => "default"
  | Some p => p
  | None => "default"
  end.

(** The entry [analyze_code_realtime] adds to the stream. *)
Definition stream_message (analysis_id scan_id : string)
    (request : CodeAnalysisRequest) (timestamp : string)
    : gmap string string :=
  <["analysis_id" := analysis_id]>
  (<["scan_id" := scan_id]>
  (<["code" := code request]>
  (<["file_path" := file_path request]>
  (<["language" := language request]>
  (<["project_id" := project_or_default (project_id request)]>
  (<["timestamp" := timestamp]> ∅)))))).

(** [for vuln in vulnerabilities_list: db.add(db_vuln)] *)
Definition save_vulnerabilities (scan_id file_path : string)
    (vulnerabilities_list : list Vulnerability) : list op :=
  map (fun vuln => AddVulnerability scan_id vuln file_path "open")
    vulnerabilities_list.

Section Realtime.

(** [uuid4 n] is [str(uuid.uuid4())] at the [n]-th call of the request:
    the first gives the [analysis_id], the following ones the identifiers
    of the findings. *)
Variable uuid4 : nat -> string.

(** [analyze_code_realtime(request, db)] *)
Definition analyze_code_realtime {D} `{Detector D}
    (ML_AVAILABLE : bool) (get_detector : result D)
    (w : surroundings) (request : CodeAnalysisRequest)
    : list op * reply AnalysisResponse :=
  guarded (
    let analysis_id := uuid4 0 in
    perform _ := ([AddScan "realtime" "running"], Ok tt) in
    perform _ := call (first_commit w) Commit in
    perform _ := ([Refresh], Ok tt) in
    let message :=
      stream_message analysis_id (new_scan_id w) request (timestamp w) in
    perform _ := call (redis_raises w) (XADD "code_analysis_stream" message) in
    perform vulnerabilities_list :=
      ([], returned (detect_simple_vulnerabilities (fun n => uuid4 (S n))
                       ML_AVAILABLE get_detector
                       (code request) (language request))) in
    perform _ := (save_vulnerabilities (new_scan_id w) (file_path request)
               vulnerabilities_list, Ok tt) in
    perform _ := ([CompleteScan (completed_at w)
                (Z.of_nat (length vulnerabilities_list)) 1], Ok tt) in
    perform _ := call (second_commit w) Commit in
    unit_step {| analysis_id := analysis_id;
                 status := "completed";
                 vulnerabilities := vulnerabilities_list;
                 analyzed_at := finished_at w;
                 scan_id := Some (new_scan_id w) |}).

(** [analyze_file(request, db)]; the object returned is a [dict]. *)
Definition analyze_file (w : surroundings) (request : CodeAnalysisRequest)
    : list op * reply value :=
  guarded (
    let analysis_id := uuid4 0 in
    perform _ := ([AddScan "file" "queued"], Ok tt) in
    perform _ := call (first_commit w) Commit in
    perform _ := ([Refresh], Ok tt) in
    perform _ := call (redis_raises w)
              (Setex ("analysis:" ++ analysis_id) 3600
                 (VDict [ ("scan_id", VStr (new_scan_id w));
                          ("code", VStr (code request));
                          ("file_path", VStr (file_path request));
                          ("language", VStr (language request));
                          ("status", VStr "queued") ])) in
    unit_step (VDict [ ("analysis_id", VStr analysis_id);
                       ("scan_id", VStr (new_scan_id w));
                       ("status", VStr "queued");
                       ("message", VStr "File queued for analysis") ])).

End Realtime.

(** [get_analysis_result(analysis_id)] on the Result Store [store];
    [get_raises] is how [redis_client.get] ends.  The store holds the
    objects that were serialised into it, so [json.loads] gives them
    back. *)
Definition get_analysis_result (store : gmap string (Z * value))
    (get_raises : option exn) (analysis_id : string) : reply value :=
  match get_raises with
  | Some e =>
      if is_Exception e then HTTPException 500 (str_exn e) else Uncaught e
  | None =>
      match store !! ("analysis:" ++ analysis_id) with
      | Some (_, data) => Respond data
      | None => HTTPException 404 "Analysis not found"
      end
  end.

(** What the Redis commands of an endpoint leave in the Result Store. *)
Definition store_after (t : list op) (store : gmap string (Z * value))
    : gmap string (Z * value) :=
  fold_left (fun store o =>
      match o with
      | Setex key seconds data => <[key := (seconds, data)]> store
      | _ => store
      end) t store.

End Routes.

(** ** More views of the worker *)

Module StreamFacts2.
Import StreamProcessor StreamFacts.

(** Nothing raises while the entry is handled: it has a [code] field, and
    Redis answers [setex] and [xack]. *)
Definition goes_through (d : delivery) : Prop :=
  let '((_, message_data), w) := d in
  is_Some (message_data !! "code")
  /\ setex_raises w = None
  /\ xack_raises w = None.

(** What the worker does for an entry that goes through. *)
Definition entry_effects (d : delivery) : list effect :=
  let '((message_id, message_data), w) := d in
  [SETEX (result_key message_data) 3600 (stored_result message_data w);
   ack message_id].

(** Every [XACK] of the list comes right after a [SETEX]; [stored] says
    whether the effect before the list was a [SETEX]. *)
Fixpoint disciplined (stored : bool) (t : list effect) : bool :=
  match t with
  | [] => true
  | SETEX _ _ _ :: rest => disciplined true rest
  | XACK _ _ _ :: rest => stored && disciplined false rest
  | SLEEP _ :: rest => disciplined false rest
  end.

(** The key of every [SETEX] of the list starts with ["result:"]. *)
Definition writes_results_only (t : list effect) : Prop :=
  Forall (fun eff =>
            match eff with
            | SETEX key _ _ => exists x, key = "result:" ++ x
            | _ => True
            end) t.

End StreamFacts2.

(** ** More views of the connection manager *)

Module WebsocketFacts2.
Import Websocket.

(** The handle is in the set of the client. *)
Definition registered (self : ConnectionManager) (client_id : string)
    (websocket : WebSocket) : Prop :=
  exists conns,
    active_connections self !! client_id = Some conns /\ websocket ∈ conns.

(** The handles of a set whose send goes through. *)
Definition prune (send_json : WebSocket -> value -> option exn)
    (message : value) (conns : gset WebSocket) : gset WebSocket :=
  conns ∖ list_to_set
            (filter (fun c => is_Some (send_json c message))
               (elements conns)).

End WebsocketFacts2.

(** ** Views of a session used in the proofs *)

Module SessionFacts.
Import Websocket WebsocketFacts.

(** The messages sent among the events of a session. *)
Fixpoint sent_count (l : list event) : nat :=
  match l with
  | [] => 0%nat
  | Sent _ :: rest => S (sent_count rest)
  | Slept _ :: rest => sent_count rest
  end.

(** What a session does for one analyze message. *)
Definition analyze_reply (analysis_id : value) : list event :=
  [Sent (analysis_queued analysis_id);
   Slept 0.5;
   Sent (analysis_result analysis_id)].

(** Every call of [send_json] so far went through. *)
Definition all_sent (s : session) : Prop :=
  attempts s = sent_count (events s).

(** A step that, when it returns, has had all its sends go through. *)
Definition keeps_all_sent {A} (m : task A) : Prop :=
  forall s s' a, m s = (s', Ok a) -> all_sent s -> all_sent s'.

(** A step that only adds events. *)
Definition grows {A} (m : task A) : Prop :=
  forall s s' r, m s = (s', r) ->
    exists rest, events s' = (events s ++ rest)%list.

End SessionFacts.

(** ** More concrete inputs *)

Module MoreExamples.

(** A network with eleven outputs, the last one above the threshold. *)
Definition eleven_scores : ModelLoader.Network :=
  fun _ => Ok [0.9; 0.1; 0.1; 0.1; 0.1; 0.1; 0.1; 0.1; 0.1; 0.1; 0.7]%Q.

Definition eleven_detector : ModelLoader.VulnerabilityDetector :=
  {| ModelLoader.model := Some eleven_scores |}.

(** A network that is sure of SQL injection, one unit in the last place
    above the threshold of 0.6 for hardcoded secrets, and exactly at the
    [float32] nearest to 0.6 for XSS. *)
Definition two_labels : ModelLoader.Network :=
  fun _ => Ok [0.875; 5033165 # 8388608; 10066331 # 16777216]%Q.

Definition two_label_detector : ModelLoader.VulnerabilityDetector :=
  {| ModelLoader.model := Some two_labels |}.

(** A request, and surroundings in which nothing raises. *)
Definition eval_request : Routes.CodeAnalysisRequest :=
  {| Routes.code := "eval(x)";
     Routes.file_path := "app.js";
     Routes.language := "javascript";
     Routes.project_id := None |}.

Definition quiet : Routes.surroundings :=
  {| Routes.new_scan_id := "scan-1";
     Routes.first_commit := None;
     Routes.redis_raises := None;
     Routes.second_commit := None;
     Routes.timestamp := "2024-01-01T12:00:00";
     Routes.completed_at := "2024-01-01T12:00:01";
     Routes.finished_at := "2024-01-01T12:00:02" |}.

(** The same, but the last commit fails. *)
Definition late_failure : Routes.surroundings :=
  {| Routes.new_scan_id := "scan-1";
     Routes.first_commit := None;
     Routes.redis_raises := None;
     Routes.second_commit := Some (ConnectionError "database is gone");
     Routes.timestamp := "2024-01-01T12:00:00";
     Routes.completed_at := "2024-01-01T12:00:01";
     Routes.finished_at := "2024-01-01T12:00:02" |}.

End MoreExamples.

(** ** Strings *)

Section StringFacts.

Lemma append_cons (c : ascii) (a b : string) :
  String c a ++ b = String c (a ++ b).
Proof. reflexivity. Qed.

Lemma prefix_app (p s : string) :
  String.prefix p s = true <-> exists b, s = p ++ b.
Proof.
  revert s. induction p as [|c p IH]; intros s.
  - split; [intros _; exists s; reflexivity | intros _; now destruct s].
  - destruct s as [|d s].
    + split; [discriminate | intros [b Hb]; discriminate].
    + simpl. destruct (ascii_dec c d) as [->|Hne].
      * rewrite IH. split; intros [b Hb]; exists b.
        -- rewrite append_cons. now rewrite Hb.
        -- rewrite append_cons in Hb. now inversion Hb.
      * split; [discriminate|]. intros [b Hb]. rewrite append_cons in Hb.
        inversion Hb. congruence.
Qed.

Lemma contains_nil (p : string) : contains p EmptyString = String.prefix p EmptyString.
Proof. unfold contains. now destruct (String.prefix p EmptyString). Qed.

Lemma contains_cons (p : string) (c : ascii) (s : string) :
  contains p (String c s)
  = if String.prefix p (String c s) then true else contains p s.
Proof. reflexivity. Qed.

Lemma contains_here (p s : string) :
  String.prefix p s = true -> contains p s = true.
Proof.
  intros E. destruct s; [now rewrite contains_nil|].
  now rewrite contains_cons, E.
Qed.

Lemma contains_later (p : string) (c : ascii) (s : string) :
  contains p s = true -> contains p (String c s) = true.
Proof.
  intros H. rewrite contains_cons, H. now destruct (String.prefix _ _).
Qed.

Lemma contains_app (p s : string) :
  contains p s = true <-> exists a b, s = a ++ p ++ b.
Proof.
  split.
  - induction s as [|c s IH].
    + rewrite contains_nil. intros E.
      apply prefix_app in E as [b Hb]. exists EmptyString, b. exact Hb.
    + rewrite contains_cons.
      destruct (String.prefix p (String c s)) eqn:E.
      * intros _. apply prefix_app in E as [b Hb].
        exists EmptyString, b. exact Hb.
      * intros H. destruct (IH H) as (a & b & ->).
        exists (String c a), b. reflexivity.
  - intros (a & b & ->). induction a as [|c a IH].
    + apply contains_here, prefix_app. eauto.
    + rewrite append_cons. now apply contains_later.
Qed.

Lemma lower_app (a b : string) : lower (a ++ b) = lower a ++ lower b.
Proof.
  induction a as [|c a IH]; [reflexivity|].
  rewrite append_cons. simpl. now rewrite IH.
Qed.

(** An occurrence of [p] in [s] is still one after both are lowered: the
    test [pattern.lower() in line_lower] accepts every literal occurrence
    of the pattern. *)
Lemma contains_lower (p s : string) :
  contains p s = true -> contains (lower p) (lower s) = true.
Proof.
  rewrite !contains_app. intros (a & b & ->).
  exists (lower a), (lower b). now rewrite !lower_app.
Qed.

Lemma find_from_lower_bound (i : Z) (sub s : string) :
  find_from i sub s = -1 \/ i <= find_from i sub s.
Proof.
  revert i. induction s as [|c s IH]; intros i.
  - cbn [find_from]. destruct (String.prefix sub EmptyString); lia.
  - change (find_from i sub (String c s))
      with (if String.prefix sub (String c s) then i
            else find_from (i + 1) sub s).
    destruct (String.prefix sub (String c s)); [lia|].
    destruct (IH (i + 1)); lia.
Qed.

Lemma find_ge_minus_one (s sub : string) : -1 <= find s sub.
Proof. unfold find. destruct (find_from_lower_bound 0 sub s); lia. Qed.

End StringFacts.

(** ** The detection engine as a list of findings *)

Section EngineFacts.
Import Analysis AnalysisFacts.

Variable uuid4 : nat -> string.

Lemma extend_app (st : state) (a b : list (string -> Vulnerability)) :
  extend uuid4 st (a ++ b) = extend uuid4 (extend uuid4 st a) b.
Proof. unfold extend. apply fold_left_app. Qed.

Lemma extend_spec (st : state) (mks : list (string -> Vulnerability)) :
  vulnerabilities (extend uuid4 st mks)
  = (vulnerabilities st ++ issue uuid4 (drawn st) mks)%list
  /\ drawn (extend uuid4 st mks) = (drawn st + length mks)%nat.
Proof.
  revert st. induction mks as [|mk mks IH]; intros st.
  - simpl. rewrite app_nil_r. split; [reflexivity | lia].
  - change (extend uuid4 st (mk :: mks))
      with (extend uuid4 (append uuid4 st mk) mks).
    destruct (IH (append uuid4 st mk)) as [-> ->]. simpl.
    rewrite <- app_assoc. split; [reflexivity | lia].
Qed.

Lemma fold_guarded {A} (hit : A -> bool) (mk : A -> string -> Vulnerability)
    (f : state -> A -> state) (ps : list A) (st : state) :
  (forall st p, f st p = if hit p then append uuid4 st (mk p) else st) ->
  fold_left f ps st = extend uuid4 st (map mk (List.filter hit ps)).
Proof.
  intros Hf. revert st. induction ps as [|p ps IH]; intros st; simpl.
  - reflexivity.
  - rewrite Hf, IH. now destruct (hit p).
Qed.

Lemma check_sql_extend (n : Z) (line : string) (st : state) :
  check_sql uuid4 n line st
  = extend uuid4 st
      (map (sql_finding n line) (List.filter (sql_hit line) sql_patterns)).
Proof. unfold check_sql. now apply fold_guarded. Qed.

Lemma check_xss_extend (n : Z) (line : string) (st : state) :
  check_xss uuid4 n line st
  = extend uuid4 st
      (map (xss_finding n line) (List.filter (xss_hit line) xss_patterns)).
Proof. unfold check_xss. now apply fold_guarded. Qed.

Lemma check_secrets_extend (n : Z) (line : string) (st : state) :
  check_secrets uuid4 n line st
  = extend uuid4 st
      (map (secret_finding n line)
         (List.filter (secret_hit line) secret_patterns)).
Proof.
  unfold check_secrets. apply fold_guarded. intros st' p. unfold secret_hit.
  destruct (contains (lower p) (lower line) && _); [|reflexivity].
  now destruct (contains dquote line || _).
Qed.

Lemma scan_line_extend (st : state) (numbered : Z * string) :
  scan_line uuid4 st numbered = extend uuid4 st (line_findings numbered).
Proof.
  destruct numbered as [n line]. unfold scan_line, line_findings.
  now rewrite check_sql_extend, check_xss_extend, check_secrets_extend,
    !extend_app.
Qed.

Lemma scan_lines_extend (numbered : list (Z * string)) (st : state) :
  fold_left (scan_line uuid4) numbered st
  = extend uuid4 st (flat_map line_findings numbered).
Proof.
  revert st. induction numbered as [|x xs IH]; intros st; simpl.
  - reflexivity.
  - now rewrite IH, scan_line_extend, extend_app.
Qed.

(** The pattern-based part, in one formula. *)
Lemma pattern_detection_issue (code : string) :
  vulnerabilities (pattern_detection uuid4 code)
  = issue uuid4 0 (pattern_findings code).
Proof.
  unfold pattern_detection. rewrite scan_lines_extend.
  destruct (extend_spec start (pattern_findings code)) as [E _]. exact E.
Qed.

Lemma is_duplicate_seen (pred : ModelLoader.Prediction) (st : state) :
  is_duplicate pred st
  = existsb (fun c => String.eqb c (ModelLoader.category pred))
      (map category (vulnerabilities st)).
Proof.
  unfold is_duplicate. induction (vulnerabilities st) as [|v vs IH]; simpl.
  - reflexivity.
  - now rewrite IH.
Qed.

(** The model-based part, in one formula. *)
Lemma add_ml_predictions_extend (code : string)
    (preds : list ModelLoader.Prediction) (st : state) :
  add_ml_predictions uuid4 code preds st
  = extend uuid4 st
      (map (ml_finding code)
         (survivors (map category (vulnerabilities st)) preds)).
Proof.
  unfold add_ml_predictions. revert st.
  induction preds as [|pred preds IH]; intros st; simpl.
  - reflexivity.
  - rewrite is_duplicate_seen.
    destruct (existsb _ (map category (vulnerabilities st))).
    + apply IH.
    + rewrite IH. simpl. now rewrite map_app.
Qed.

Lemma in_issue (n : nat) (mks : list (string -> Vulnerability))
    (v : Vulnerability) :
  In v (issue uuid4 n mks) -> exists mk i, In mk mks /\ v = mk i.
Proof.
  revert n. induction mks as [|mk mks IH]; intros n; simpl.
  - intros [].
  - intros [<-|H]; [eauto|]. destruct (IH _ H) as (mk' & i & ? & ?). eauto.
Qed.

Lemma issue_in (n : nat) (mks : list (string -> Vulnerability))
    (mk : string -> Vulnerability) :
  In mk mks -> exists i, In (mk i) (issue uuid4 n mks).
Proof.
  revert n. induction mks as [|mk' mks IH]; intros n; simpl.
  - intros [].
  - intros [->|H]; [eauto|]. destruct (IH (S n) H) as [i ?]. eauto.
Qed.

End EngineFacts.

(** ** Merging pattern and model findings *)

Section MergeFacts.
Import Analysis AnalysisFacts.

Lemma seen_false (x : string) (seen : list string) :
  existsb (fun c => String.eqb c x) seen = false -> ~ In x seen.
Proof.
  induction seen as [|c seen IH]; simpl; [tauto|].
  destruct (String.eqb_spec c x) as [->|Hne]; simpl; [discriminate|].
  intros H [E|Hin]; [congruence | now apply IH].
Qed.

Lemma survivors_fresh (seen : list string)
    (preds : list ModelLoader.Prediction) (p : ModelLoader.Prediction) :
  In p (survivors seen preds) ->
  In p preds /\ ~ In (ModelLoader.category p) seen.
Proof.
  revert seen. induction preds as [|pred preds IH]; intros seen; simpl.
  - intros [].
  - destruct (existsb _ seen) eqn:E.
    + intros H. destruct (IH _ H). auto.
    + intros [<-|H].
      * split; [auto | now apply seen_false].
      * destruct (IH _ H) as [? Hn]. split; [auto|].
        intros Hin. apply Hn, in_or_app. auto.
Qed.

Lemma filter_none {A} (f : A -> bool) (l : list A) :
  (forall x, In x l -> f x = false) -> List.filter f l = [].
Proof.
  induction l as [|x l IH]; simpl; intros H; [reflexivity|].
  rewrite (H x) by auto. apply IH. auto.
Qed.

(** The list returned when the classifier answers [preds]: the pattern
    findings, then one finding for each surviving prediction. *)
Lemma detect_with_predictions (uuid4 : nat -> string) {D} `{Detector D}
    (get_detector : result D) (code language : string)
    (out : list string) (preds : list ModelLoader.Prediction) :
  classify get_detector code = (out, Ok preds) ->
  let pattern_sourced := vulnerabilities (pattern_detection uuid4 code) in
  returned (detect_simple_vulnerabilities uuid4 true get_detector
              code language)
  = Ok (pattern_sourced
        ++ issue uuid4 (drawn (pattern_detection uuid4 code))
             (map (ml_finding code)
                (survivors (map category pattern_sourced) preds)))%list.
Proof.
  intros Hcall. unfold detect_simple_vulnerabilities. rewrite Hcall. simpl.
  rewrite add_ml_predictions_extend.
  now destruct (extend_spec uuid4 (pattern_detection uuid4 code)
    (map (ml_finding code)
       (survivors
          (map category (vulnerabilities (pattern_detection uuid4 code)))
          preds))) as [-> _].
Qed.

End MergeFacts.

Section MergeClaim.
Import Analysis AnalysisFacts.

(** C1. When the classifier returns a prediction whose category is the
    category of a finding the pattern rules already produced, the list
    [detect_simple_vulnerabilities] returns is the pattern findings followed
    by the model findings, no model finding has that category, the findings
    of that category are exactly the pattern ones, and every model finding
    comes from a prediction whose category no pattern finding has. *)
Theorem model_finding_dropped_for_pattern_category
    (uuid4 : nat -> string) {D} `{Detector D} (get_detector : result D)
    (code language : string) (out : list string)
    (preds : list ModelLoader.Prediction) (pred : ModelLoader.Prediction) :
  classify get_detector code = (out, Ok preds) ->
  In pred preds ->
  In (ModelLoader.category pred)
     (map category (vulnerabilities (pattern_detection uuid4 code))) ->
  exists model_sourced,
    let pattern_sourced := vulnerabilities (pattern_detection uuid4 code) in
    returned (detect_simple_vulnerabilities uuid4 true get_detector
                code language)
    = Ok (pattern_sourced ++ model_sourced)%list
    /\ (forall m, In m model_sourced ->
          category m <> ModelLoader.category pred)
    /\ List.filter (has_category (ModelLoader.category pred))
         (pattern_sourced ++ model_sourced)
       = List.filter (has_category (ModelLoader.category pred))
           pattern_sourced
    /\ (forall m, In m model_sourced ->
          ~ In (category m) (map category pattern_sourced)
          /\ exists p i, In p preds /\ m = ml_finding code p i).
Proof.
  intros Hcall Hpred Hcat.
  set (P := vulnerabilities (pattern_detection uuid4 code)) in *.
  set (M := issue uuid4 (drawn (pattern_detection uuid4 code))
              (map (ml_finding code) (survivors (map category P) preds))).
  assert (Horigin : forall m, In m M ->
            ~ In (category m) (map category P)
            /\ exists p i, In p preds /\ m = ml_finding code p i).
  { intros m Hm. apply in_issue in Hm as (mk & i & Hmk & ->).
    apply in_map_iff in Hmk as (p & <- & Hp).
    apply survivors_fresh in Hp as [Hin Hfresh].
    split; [exact Hfresh | eauto]. }
  assert (Hnone : forall m, In m M -> category m <> ModelLoader.category pred).
  { intros m Hm E. destruct (Horigin m Hm) as [Hfresh _].
    apply Hfresh. now rewrite E. }
  exists M. cbv zeta. split; [|split; [|split]].
  - now apply (detect_with_predictions uuid4 get_detector code language out).
  - exact Hnone.
  - rewrite List.filter_app, (filter_none _ M), app_nil_r; [reflexivity|].
    intros m Hm. unfold has_category.
    destruct (String.eqb_spec (category m) (ModelLoader.category pred));
      [|reflexivity].
    now destruct (Hnone m Hm).
  - exact Horigin.
Qed.

End MergeClaim.

Section MergeWitness.
Import Analysis AnalysisFacts Examples.

Lemma model_finding_dropped_witness :
  exists model_sourced,
    let pattern_sourced :=
      vulnerabilities (pattern_detection serial "db.query(a + b)") in
    returned (detect_simple_vulnerabilities serial true (Ok sql_detector)
                "db.query(a + b)" "python")
    = Ok (pattern_sourced ++ model_sourced)%list
    /\ (forall m, In m model_sourced -> category m <> "SQL Injection")
    /\ List.filter (has_category "SQL Injection")
         (pattern_sourced ++ model_sourced)
       = List.filter (has_category "SQL Injection") pattern_sourced
    /\ (forall m, In m model_sourced ->
          ~ In (category m) (map category pattern_sourced)
          /\ exists p i, In p [sql_prediction]
                         /\ m = ml_finding "db.query(a + b)" p i).
Proof.
  apply (model_finding_dropped_for_pattern_category serial (Ok sql_detector)
           "db.query(a + b)" "python" [] [sql_prediction] sql_prediction).
  - reflexivity.
  - simpl. auto.
  - vm_compute. auto.
Defined.

End MergeWitness.

(** ** The SQL-injection rule *)

Section PatternClaims.
Import Analysis AnalysisFacts.

Lemma enumerate_nth {A} (l : list A) (start : Z) (i : nat) (x : A) :
  nth_error l i = Some x -> In (start + Z.of_nat i, x) (enumerate start l).
Proof.
  revert start i. induction l as [|y l IH]; intros start [|i];
    cbn [nth_error enumerate In]; try discriminate.
  - intros [= ->]. left. f_equal. lia.
  - intros H. right.
    replace (start + Z.of_nat (S i)) with (start + 1 + Z.of_nat i) by lia.
    now apply IH.
Qed.

(** Unless a signal passes through the classifier call, the call returns
    a list that starts with the pattern findings. *)
Lemma detect_returns (uuid4 : nat -> string) {D} `{Detector D}
    (ML_AVAILABLE : bool) (get_detector : result D)
    (code language : string) :
  (ML_AVAILABLE = true -> interrupted (classify get_detector code) = false) ->
  exists model_sourced,
    returned (detect_simple_vulnerabilities uuid4 ML_AVAILABLE get_detector
                code language)
    = Ok (vulnerabilities (pattern_detection uuid4 code) ++ model_sourced)%list.
Proof.
  intros Hsig. destruct ML_AVAILABLE.
  - destruct (classify get_detector code) as [out [preds|e]] eqn:Hcall.
    + eexists.
      exact (detect_with_predictions uuid4 get_detector code language out
               preds Hcall).
    + exists []. unfold detect_simple_vulnerabilities. rewrite Hcall.
      specialize (Hsig eq_refl). simpl in Hsig.
      destruct (is_Exception e); [|discriminate]. simpl.
      now rewrite app_nil_r.
  - exists []. simpl. now rewrite app_nil_r.
Qed.

(** C5. If line [i + 1] of the input matches a pattern of [sql_patterns]
    (ignoring case, as the code tests it; a literal occurrence is a match by
    [contains_lower]) and contains ["+"], the list
    [detect_simple_vulnerabilities] returns has a finding with category
    SQL Injection, severity CRITICAL, that line number and confidence
    0.75. *)
Theorem sql_rule_reports_line
    (uuid4 : nat -> string) {D} `{Detector D}
    (ML_AVAILABLE : bool) (get_detector : result D)
    (code language : string) (i : nat) (line pattern : string) :
  nth_error (split_lines code) i = Some line ->
  In pattern sql_patterns ->
  contains (lower pattern) (lower line) = true ->
  contains "+" line = true ->
  (ML_AVAILABLE = true -> interrupted (classify get_detector code) = false) ->
  exists findings v,
    returned (detect_simple_vulnerabilities uuid4 ML_AVAILABLE get_detector
                code language) = Ok findings
    /\ In v findings
    /\ category v = "SQL Injection"
    /\ severity v = "CRITICAL"
    /\ line_number v = Z.of_nat i + 1
    /\ confidence_score v = 0.75%Q.
Proof.
  intros Hline Hpat Hmark Hplus Hsig.
  destruct (detect_returns uuid4 ML_AVAILABLE get_detector code language Hsig)
    as [M HM].
  assert (Hmk : In (sql_finding (1 + Z.of_nat i) line pattern)
                   (pattern_findings code)).
  { unfold pattern_findings. apply in_flat_map.
    exists (1 + Z.of_nat i, line). split; [now apply enumerate_nth|].
    unfold line_findings. apply in_or_app. left. apply in_map.
    apply filter_In. split; [exact Hpat|]. unfold sql_hit.
    now rewrite Hmark, Hplus. }
  destruct (issue_in uuid4 0 _ _ Hmk) as [ident Hin].
  rewrite <- pattern_detection_issue in Hin.
  exists (vulnerabilities (pattern_detection uuid4 code) ++ M)%list,
    (sql_finding (1 + Z.of_nat i) line pattern ident).
  split; [exact HM|]. split; [apply in_or_app; now left|].
  simpl. repeat split. lia.
Qed.

End PatternClaims.

Section PatternWitness.
Import Analysis AnalysisFacts Examples.

Lemma sql_rule_reports_line_witness :
  exists findings v,
    returned (detect_simple_vulnerabilities serial true (Ok sql_detector)
                ("import db" ++ newline ++ "db.Query(a + b)") "python")
    = Ok findings
    /\ In v findings
    /\ category v = "SQL Injection"
    /\ severity v = "CRITICAL"
    /\ line_number v = 2
    /\ confidence_score v = 0.75%Q.
Proof.
  apply (sql_rule_reports_line serial true (Ok sql_detector)
           ("import db" ++ newline ++ "db.Query(a + b)") "python"
           1 "db.Query(a + b)" ".query(").
  - reflexivity.
  - simpl. auto.
  - reflexivity.
  - reflexivity.
  - reflexivity.
Defined.

End PatternWitness.

(** ** Failure of the classifier *)

Section DegradationClaim.
Import Analysis AnalysisFacts.

(** C6. When the classifier is unavailable ([ML_AVAILABLE] is false, or
    the model of the detector is not loaded) or its invocation raises an
    exception ([get_detector()] or [predict] raises, or the inference inside
    [VulnerabilityDetector.predict] does), [detect_simple_vulnerabilities]
    returns exactly the pattern findings, and a raised error is printed. *)
Theorem classifier_failure_is_not_fatal
    (uuid4 : nat -> string) {D} `{Detector D} (get_detector : result D)
    (code language : string) :
  let pattern_sourced := vulnerabilities (pattern_detection uuid4 code) in
  detect_simple_vulnerabilities uuid4 false get_detector code language
  = {| printed := []; returned := Ok pattern_sourced |}
  /\ (forall out e,
        classify get_detector code = (out, Raise e) ->
        is_Exception e = true ->
        detect_simple_vulnerabilities uuid4 true get_detector code language
        = {| printed :=
               (out ++ [("ML detection error: " ++ str_exn e)%string])%list;
             returned := Ok pattern_sourced |})
  /\ (forall detector : ModelLoader.VulnerabilityDetector,
        ModelLoader.model detector = None ->
        detect_simple_vulnerabilities uuid4 true (Ok detector) code language
        = {| printed := []; returned := Ok pattern_sourced |})
  /\ (forall (detector : ModelLoader.VulnerabilityDetector) net e,
        ModelLoader.model detector = Some net ->
        bind (net code) (fun scores =>
          ModelLoader.extract 0.6 (enumerate 0 scores) []) = Raise e ->
        is_Exception e = true ->
        detect_simple_vulnerabilities uuid4 true (Ok detector) code language
        = {| printed := [("Error in ML prediction: " ++ str_exn e)%string];
             returned := Ok pattern_sourced |}).
Proof.
  cbv zeta. split; [reflexivity|]. split; [|split].
  - intros out e Hcall He. unfold detect_simple_vulnerabilities.
    now rewrite Hcall, He.
  - intros detector Hmodel. unfold detect_simple_vulnerabilities.
    cbn [classify predict VulnerabilityDetector_Detector].
    unfold ModelLoader.predict. now rewrite Hmodel.
  - intros detector net e Hmodel Hrun He.
    unfold detect_simple_vulnerabilities.
    cbn [classify predict VulnerabilityDetector_Detector].
    unfold ModelLoader.predict. now rewrite Hmodel, Hrun, He.
Qed.

End DegradationClaim.

Section DegradationWitness.
Import Analysis AnalysisFacts Examples.

Lemma classifier_failure_witness :
  detect_simple_vulnerabilities serial true (Ok broken_detector)
    "eval(x)" "javascript"
  = {| printed := ["Error in ML prediction: bad tensor"];
       returned :=
         Ok (vulnerabilities (pattern_detection serial "eval(x)")) |}
  /\ detect_simple_vulnerabilities serial true
       (Raise (ValueError "no model") : result ModelLoader.VulnerabilityDetector)
       "eval(x)" "javascript"
     = {| printed := ["ML detection error: no model"];
          returned :=
            Ok (vulnerabilities (pattern_detection serial "eval(x)")) |}.
Proof.
  split.
  - apply (classifier_failure_is_not_fatal serial (Ok broken_detector)
             "eval(x)" "javascript")
      with (net := broken_network) (e := ValueError "bad tensor");
      reflexivity.
  - apply (classifier_failure_is_not_fatal serial
             (Raise (ValueError "no model")
                : result ModelLoader.VulnerabilityDetector)
             "eval(x)" "javascript")
      with (out := @nil string) (e := ValueError "no model");
      reflexivity.
Defined.

End DegradationWitness.

(** ** Two runs on the same input *)

Section RepeatFacts.
Import Analysis AnalysisFacts.

Lemma anonymous_set_id (i : string) (v : Vulnerability) :
  anonymous (set_id i v) = anonymous v.
Proof. reflexivity. Qed.

Lemma uniform_sql (n : Z) (line pattern : string) :
  uniform (sql_finding n line pattern).
Proof. intros i. reflexivity. Qed.

Lemma uniform_xss (n : Z) (line pattern : string) :
  uniform (xss_finding n line pattern).
Proof. intros i. reflexivity. Qed.

Lemma uniform_secret (n : Z) (line pattern : string) :
  uniform (secret_finding n line pattern).
Proof. intros i. reflexivity. Qed.

Lemma uniform_ml (code : string) (pred : ModelLoader.Prediction) :
  uniform (ml_finding code pred).
Proof. intros i. reflexivity. Qed.

Lemma Forall_uniform_map {A} (mk : A -> string -> Vulnerability)
    (l : list A) :
  (forall a, uniform (mk a)) -> Forall uniform (map mk l).
Proof.
  intros Hmk. apply List.Forall_forall. intros f Hf.
  apply in_map_iff in Hf as (a & <- & _). apply Hmk.
Qed.

Lemma uniform_line_findings (numbered : Z * string) :
  Forall uniform (line_findings numbered).
Proof.
  destruct numbered as [n line]. unfold line_findings.
  repeat apply Forall_app_2; apply Forall_uniform_map; intros p.
  - apply uniform_sql.
  - apply uniform_xss.
  - apply uniform_secret.
Qed.

Lemma uniform_pattern_findings (code : string) :
  Forall uniform (pattern_findings code).
Proof.
  unfold pattern_findings.
  induction (enumerate 1 (split_lines code)) as [|x xs IH]; simpl.
  - constructor.
  - apply Forall_app_2; [apply uniform_line_findings | exact IH].
Qed.

(** Without their identifiers, the findings issued do not depend on the
    supply of identifiers, nor on where in it the drawing starts. *)
Lemma issue_anonymous (u1 u2 : nat -> string) (n1 n2 : nat)
    (mks : list (string -> Vulnerability)) :
  Forall uniform mks ->
  map anonymous (issue u1 n1 mks) = map anonymous (issue u2 n2 mks).
Proof.
  intros Hu. revert n1 n2.
  induction Hu as [|mk mks Hmk _ IH]; intros n1 n2; simpl.
  - reflexivity.
  - rewrite (IH (S n1) (S n2)), (Hmk (u1 n1)), (Hmk (u2 n2)).
    now rewrite !anonymous_set_id.
Qed.

Lemma category_anonymous (l : list Vulnerability) :
  map category (map anonymous l) = map category l.
Proof. rewrite map_map. reflexivity. Qed.

Lemma pattern_categories_fixed (u1 u2 : nat -> string) (code : string) :
  map category (vulnerabilities (pattern_detection u1 code))
  = map category (vulnerabilities (pattern_detection u2 code)).
Proof.
  rewrite !pattern_detection_issue.
  rewrite <- (category_anonymous (issue u1 0 (pattern_findings code))),
          <- (category_anonymous (issue u2 0 (pattern_findings code))).
  f_equal. apply issue_anonymous, uniform_pattern_findings.
Qed.

End RepeatFacts.

Section IdentifierFacts.
Import Analysis AnalysisFacts.

Lemma length_issue (uuid4 : nat -> string) (n : nat)
    (mks : list (string -> Vulnerability)) :
  length (issue uuid4 n mks) = length mks.
Proof.
  revert n. induction mks as [|mk mks IH]; intros n; simpl;
    [reflexivity | now rewrite IH].
Qed.

Lemma issue_ids (uuid4 : nat -> string) (n : nat)
    (mks : list (string -> Vulnerability)) :
  Forall uniform mks ->
  map id (issue uuid4 n mks) = map uuid4 (List.seq n (length mks)).
Proof.
  intros Hu. revert n. induction Hu as [|mk mks Hmk _ IH]; intros n; simpl.
  - reflexivity.
  - rewrite IH, (Hmk (uuid4 n)). reflexivity.
Qed.

Lemma pattern_detection_drawn (uuid4 : nat -> string) (code : string) :
  drawn (pattern_detection uuid4 code)
  = length (vulnerabilities (pattern_detection uuid4 code)).
Proof.
  rewrite pattern_detection_issue, length_issue.
  unfold pattern_detection. rewrite scan_lines_extend.
  now destruct (extend_spec uuid4 start
                  (flat_map line_findings (enumerate 1 (split_lines code))))
    as [_ ->].
Qed.

(** The identifiers of the findings returned are the successive draws of
    [uuid.uuid4], in order: two runs return the same list exactly when
    they draw the same identifiers. *)
Lemma detect_ids_are_the_draws (uuid4 : nat -> string) {D} `{Detector D}
    (ML_AVAILABLE : bool) (get_detector : result D)
    (code language : string) (findings : list Vulnerability) :
  returned (detect_simple_vulnerabilities uuid4 ML_AVAILABLE get_detector
              code language) = Ok findings ->
  map id findings = map uuid4 (List.seq 0 (length findings)).
Proof.
  assert (Hids : map id (vulnerabilities (pattern_detection uuid4 code))
                 = map uuid4 (List.seq 0
                     (length (vulnerabilities
                                (pattern_detection uuid4 code))))).
  { rewrite pattern_detection_issue, length_issue.
    apply issue_ids, uniform_pattern_findings. }
  destruct ML_AVAILABLE; [|simpl; now intros [= <-]].
  destruct (classify get_detector code) as [out [preds|e]] eqn:Hcall.
  - rewrite (detect_with_predictions uuid4 get_detector code language out
               preds Hcall).
    intros [= <-]. rewrite map_app, length_app, seq_app, map_app, Hids.
    f_equal. rewrite length_issue, pattern_detection_drawn.
    apply issue_ids, Forall_uniform_map. intros p. apply uniform_ml.
  - unfold detect_simple_vulnerabilities. rewrite Hcall.
    destruct (is_Exception e); simpl; [now intros [= <-] | discriminate].
Qed.

End IdentifierFacts.

Section RepeatClaim.
Import Analysis AnalysisFacts.

(** C4, as the code has it.  Two runs on the same [code] and [language]
    with the same classifier print the same lines and return (or raise) the
    same thing, finding by finding and in the same order, in every field
    except [id]: the identifiers are drawn afresh from [uuid.uuid4] at each
    run. *)
Theorem detect_repeatable_up_to_id
    (first_run second_run : nat -> string) {D} `{Detector D}
    (ML_AVAILABLE : bool) (get_detector : result D)
    (code language : string) :
  printed (detect_simple_vulnerabilities first_run ML_AVAILABLE get_detector
             code language)
  = printed (detect_simple_vulnerabilities second_run ML_AVAILABLE
               get_detector code language)
  /\ on_ok (map anonymous)
       (returned (detect_simple_vulnerabilities first_run ML_AVAILABLE
                    get_detector code language))
     = on_ok (map anonymous)
         (returned (detect_simple_vulnerabilities second_run ML_AVAILABLE
                      get_detector code language)).
Proof.
  assert (HP : map anonymous
                 (vulnerabilities (pattern_detection first_run code))
               = map anonymous
                   (vulnerabilities (pattern_detection second_run code))).
  { rewrite !pattern_detection_issue.
    apply issue_anonymous, uniform_pattern_findings. }
  destruct ML_AVAILABLE; [|simpl; now rewrite HP].
  destruct (classify get_detector code) as [out [preds|e]] eqn:Hcall.
  - split.
    + unfold detect_simple_vulnerabilities. now rewrite Hcall.
    + rewrite (detect_with_predictions first_run get_detector code language
                 out preds Hcall),
              (detect_with_predictions second_run get_detector code language
                 out preds Hcall).
      simpl. rewrite !map_app, HP.
      rewrite (pattern_categories_fixed first_run second_run).
      do 2 f_equal. apply issue_anonymous, Forall_uniform_map.
      intros p. apply uniform_ml.
  - unfold detect_simple_vulnerabilities. rewrite Hcall.
    destruct (is_Exception e); simpl; [now rewrite HP | auto].
Qed.

End RepeatClaim.

Section RepeatCounterexample.
Import Analysis AnalysisFacts Examples.

(** Two runs on the same input with the same classifier whose findings
    differ: the identifiers are not the same. *)
Lemma detect_runs_differ :
  returned (detect_simple_vulnerabilities serial true (Ok sql_detector)
              "eval(x)" "javascript")
  <> returned (detect_simple_vulnerabilities other_serial true
                 (Ok sql_detector) "eval(x)" "javascript").
Proof. vm_compute. discriminate. Qed.

End RepeatCounterexample.

(** ** Shape of the findings *)

Section ShapeFacts.
Import Analysis AnalysisFacts.

Lemma Qgtb_lt (x y : Q) : Qgtb x y = true -> (y < x)%Q.
Proof.
  unfold Qgtb. intros H. apply Qnot_le_lt. intros Hle.
  apply Qle_bool_iff in Hle. rewrite Hle in H. discriminate.
Qed.

Lemma label_at_vocabulary (idx : Z) (label : string) :
  ModelLoader.label_at idx = Ok label ->
  In label ModelLoader.vulnerability_labels.
Proof.
  unfold ModelLoader.label_at.
  destruct (nth_error _ _) as [l|] eqn:E; [|discriminate].
  intros [= <-]. exact (nth_error_In _ _ E).
Qed.

(** The loop of [predict] keeps only scores above the threshold and gives
    them labels of the vocabulary. *)
Lemma extract_above (threshold : Q) (scored : list (Z * Q))
    (results out : list ModelLoader.Prediction) :
  Forall (fun p => (snd p <= 1)%Q) scored ->
  Forall (above threshold) results ->
  ModelLoader.extract threshold scored results = Ok out ->
  Forall (above threshold) out.
Proof.
  intros Hscored. revert results.
  induction Hscored as [|[idx score] scored Hscore _ IH]; intros results Hres.
  - simpl. now intros [= <-].
  - cbn [ModelLoader.extract].
    destruct (ModelLoader.exceeds score threshold) eqn:Hgt; [|now apply IH].
    destruct (ModelLoader.label_at idx) as [label|e] eqn:Hlabel;
      [|discriminate].
    cbn [bind]. apply IH. apply Forall_app_2; [exact Hres|].
    constructor; [|constructor]. split; simpl.
    + now apply label_at_vocabulary in Hlabel.
    + split; [now apply Qgtb_lt | exact Hscore].
Qed.

Lemma enumerate_scores (start : Z) (scores : list Q) :
  Forall (fun score => (score <= 1)%Q) scores ->
  Forall (fun p : Z * Q => (snd p <= 1)%Q) (enumerate start scores).
Proof.
  intros H. revert start. induction H; intros start; simpl; constructor; auto.
Qed.

Lemma predict_above (detector : ModelLoader.VulnerabilityDetector)
    (code : string) (threshold : Q) (out : list string)
    (preds : list ModelLoader.Prediction) :
  sigmoid_range detector ->
  ModelLoader.predict detector code threshold = (out, Ok preds) ->
  Forall (above threshold) preds.
Proof.
  intros Hrange. unfold ModelLoader.predict.
  destruct (ModelLoader.model detector) as [net|] eqn:Hmodel.
  - destruct (net code) as [scores|e] eqn:Hnet; cbn [bind].
    + destruct (ModelLoader.extract _ _ _) as [results|e] eqn:Hext.
      * intros [= _ <-].
        apply (extract_above threshold (enumerate 0 scores) [] results);
          [|constructor | exact Hext].
        apply enumerate_scores. exact (Hrange net code scores Hmodel Hnet).
      * destruct (is_Exception e); [|discriminate]. intros [= _ <-].
        constructor.
    + destruct (is_Exception e); [|discriminate]. intros [= _ <-].
      constructor.
  - intros [= _ <-]. constructor.
Qed.

Lemma pattern_finding_shape (code : string)
    (mk : string -> Vulnerability) (i : string) :
  In mk (pattern_findings code) -> well_formed_but_column (mk i).
Proof.
  unfold pattern_findings. intros H.
  apply in_flat_map in H as ([n line] & _ & H). unfold line_findings in H.
  repeat (apply in_app_or in H as [H|H]);
    apply in_map_iff in H as (pattern & <- & _);
    (split; [apply find_ge_minus_one|]);
    (split; [split; discriminate | simpl; auto 10]).
Qed.

(** What holds of every finding returned with the detector of
    [model_loader.py]: the column is at least [-1], the confidence lies
    between 0 and 1, and the category is one of the ten labels. *)
Lemma findings_well_formed_but_column (uuid4 : nat -> string)
    (ML_AVAILABLE : bool) (detector : ModelLoader.VulnerabilityDetector)
    (code language : string) (findings : list Vulnerability) :
  sigmoid_range detector ->
  returned (detect_simple_vulnerabilities uuid4 ML_AVAILABLE (Ok detector)
              code language) = Ok findings ->
  Forall well_formed_but_column findings.
Proof.
  intros Hrange.
  assert (HP : Forall well_formed_but_column
                 (vulnerabilities (pattern_detection uuid4 code))).
  { rewrite pattern_detection_issue. apply List.Forall_forall. intros v Hv.
    apply in_issue in Hv as (mk & i & Hmk & ->).
    now apply (pattern_finding_shape code). }
  destruct ML_AVAILABLE; [|simpl; now intros [= <-]].
  destruct (classify (Ok detector) code) as [out [preds|e]] eqn:Hcall.
  - rewrite (detect_with_predictions uuid4 (Ok detector) code language out
               preds Hcall).
    intros [= <-]. apply Forall_app_2; [exact HP|].
    apply List.Forall_forall. intros v Hv.
    apply in_issue in Hv as (mk & i & Hmk & ->).
    apply in_map_iff in Hmk as (p & <- & Hp).
    apply survivors_fresh in Hp as [Hp _].
    pose proof (predict_above detector code 0.6 out preds Hrange Hcall)
      as Habove.
    rewrite List.Forall_forall in Habove.
    destruct (Habove p Hp) as [Hlabel [Hlow Hhigh]].
    split; [simpl; lia|]. split; [|exact Hlabel]. simpl. split; [|exact Hhigh].
    apply Qlt_le_weak. apply Qle_lt_trans with (y := float32 (float64 0.6));
      [vm_compute; discriminate | exact Hlow].
  - unfold detect_simple_vulnerabilities. rewrite Hcall.
    destruct (is_Exception e); simpl; [now intros [= <-] | discriminate].
Qed.

End ShapeFacts.

Section ShapeClaim.
Import Analysis AnalysisFacts Examples.

(** C3 on the input [Execute(a+b)].  The line matches ["execute("] once the
    case is ignored, but [line.find(pattern)] looks for the pattern as
    written and answers [-1]: the finding returned has a negative column,
    so it is not well formed. *)
Theorem column_number_negative_on_case_mismatch :
  let finding :=
    {| id := "uuid-0";
       category := "SQL Injection";
       severity := "CRITICAL";
       line_number := 1;
       column_number := -1;
       message := "Possible SQL injection: String concatenation in SQL query";
       code_snippet := "Execute(a+b)";
       confidence_score := 0.75 |} in
  returned (detect_simple_vulnerabilities serial false (Ok unloaded)
              "Execute(a+b)" "python") = Ok [finding]
  /\ ~ well_formed finding.
Proof.
  cbv zeta. split; [vm_compute; reflexivity|].
  intros [Hcolumn _]. simpl in Hcolumn. lia.
Qed.

End ShapeClaim.

(** ** The stream worker *)

Section WorkerFacts.
Import StreamProcessor StreamFacts.

Lemma seq_assoc {A B C} (m : run A) (k : A -> run B) (h : B -> run C) :
  seq (seq m k) h = seq m (fun a => seq (k a) h).
Proof.
  destruct m as [t [a|e]]; simpl; [|reflexivity].
  destruct (k a) as [t' [b|e]]; simpl.
  - destruct (h b) as [t'' r]. now rewrite app_assoc.
  - reflexivity.
Qed.

Lemma process_message_list_cons (d : delivery) (rest : list delivery) :
  process_message_list (d :: rest)
  = seq (handle_entry d) (fun _ => process_message_list rest).
Proof.
  destruct d as [[message_id message_data] w].
  unfold handle_entry. rewrite seq_assoc. reflexivity.
Qed.

(** Entries that all go through, followed by more entries. *)
Lemma process_message_list_app (before rest : list delivery)
    (t : list effect) :
  process_message_list before = (t, Ok tt) ->
  process_message_list (before ++ rest)
  = seq (t, Ok tt) (fun _ => process_message_list rest).
Proof.
  revert t. induction before as [|d before IH]; intros t.
  - intros [= <-]. simpl. now destruct (process_message_list rest).
  - rewrite <- app_comm_cons, !process_message_list_cons.
    destruct (handle_entry d) as [t1 [[]|e]]; simpl; [|discriminate].
    destruct (process_message_list before) as [t2 [[]|e]] eqn:E;
      [|discriminate].
    intros [= <-]. rewrite (IH t2 eq_refl). simpl.
    destruct (process_message_list rest) as [t3 r]. now rewrite app_assoc.
Qed.

(** What one entry leaves behind when nothing raises. *)
Lemma handle_entry_ok (message_id : string)
    (message_data : gmap string string) (w : conditions) (code : string) :
  message_data !! "code" = Some code ->
  setex_raises w = None ->
  xack_raises w = None ->
  handle_entry ((message_id, message_data), w)
  = ([SETEX (result_key message_data) 3600 (stored_result message_data w);
      ack message_id], Ok tt).
Proof.
  intros Hcode Hset Hack. unfold handle_entry, process_code_analysis, len.
  now rewrite Hcode, Hset, Hack.
Qed.

(** An entry that fails is not acknowledged. *)
Lemma handle_entry_raise (d : delivery) (t : list effect) (e : exn) :
  handle_entry d = (t, Raise e) ->
  forall stream group message_id, ~ In (XACK stream group message_id) t.
Proof.
  destruct d as [[message_id message_data] w].
  unfold handle_entry, process_code_analysis, len, redis_call.
  destruct (message_data !! "code"); simpl.
  - destruct (setex_raises w); simpl.
    + intros [= <- _] ? ? ? [].
    + destruct (xack_raises w); simpl; [|discriminate].
      intros [= <- _] ? ? ? [|[]]. discriminate.
  - intros [= <- _] ? ? ? [].
Qed.

End WorkerFacts.

Section WorkerClaims.
Import StreamProcessor StreamFacts.

(** C2, as the code has it.  For an entry the worker reads and whose
    processing raises nothing, the worker stores under
    [result:{analysis_id}], for 3600 seconds, the object with the fields
    [analysis_id], [status = completed], [processed_at] and
    [vulnerabilities_found = 0], then acknowledges the entry, and goes on
    with the rest of the batch.  The stored object is made from the
    identifier and the clock alone: the detection engine is not called and
    no finding is stored. *)
Theorem worker_stores_completed_then_acks
    (message_id : string) (message_data : gmap string string)
    (w : conditions) (rest : list delivery) (code : string) :
  message_data !! "code" = Some code ->
  setex_raises w = None ->
  xack_raises w = None ->
  let written :=
    [SETEX (result_key message_data) 3600 (stored_result message_data w);
     ack message_id] in
  process_message_list (((message_id, message_data), w) :: rest)
  = seq (written, Ok tt) (fun _ => process_message_list rest)
  /\ (forall r : redis,
        store (apply_effects written r) !! result_key message_data
        = Some (3600, stored_result message_data w)
        /\ message_id ∈ acked (apply_effects written r))
  /\ get (stored_result message_data w) "status" = Ok (VStr "completed")
  /\ get (stored_result message_data w) "vulnerabilities_found" = Ok (VInt 0)
  /\ get (stored_result message_data w) "findings" = Ok VNone
  /\ get (stored_result message_data w) "vulnerabilities" = Ok VNone.
Proof.
  intros Hcode Hset Hack. cbv zeta. split; [|split].
  - rewrite process_message_list_cons.
    now rewrite (handle_entry_ok message_id message_data w code).
  - intros r. simpl. split; [apply lookup_insert_eq | set_solver].
  - repeat split.
Qed.

(** C7, as the code has it.  When an entry of a batch raises an exception
    (in its processing or in its acknowledgement) after the entries before
    it went through, the turn of the loop ends there: the effects are those
    of the earlier entries and of the failed one up to the failure, then
    one second of sleep; the failed entry is not acknowledged; the entries
    after it in the batch, and the other batches of the same read, are
    neither processed nor acknowledged in this turn; the loop goes on with
    the next read. *)
Theorem failed_entry_ends_the_batch
    (stream_name : string) (before : list delivery) (failed : delivery)
    (after : list delivery) (others : list (string * list delivery))
    (t_before t_failed : list effect) (e : exn) (script : list read) :
  process_message_list before = (t_before, Ok tt) ->
  handle_entry failed = (t_failed, Raise e) ->
  is_Exception e = true ->
  iteration (Ok ((stream_name, (before ++ failed :: after)%list) :: others))
  = ((t_before ++ t_failed ++ [SLEEP 1])%list, Ok Continue)
  /\ (forall stream group message_id,
        ~ In (XACK stream group message_id) t_failed)
  /\ loop (Ok ((stream_name, (before ++ failed :: after)%list) :: others) :: script)
     = (((t_before ++ t_failed ++ [SLEEP 1]) ++ fst (loop script))%list,
        snd (loop script)).
Proof.
  intros Hbefore Hfailed He.
  assert (Hturn :
    iteration (Ok ((stream_name, (before ++ failed :: after)%list) :: others))
    = ((t_before ++ t_failed ++ [SLEEP 1])%list, Ok Continue)).
  { unfold iteration, turn, try_block. cbn [process_messages].
    rewrite (process_message_list_app before (failed :: after) t_before
               Hbefore).
    rewrite process_message_list_cons, Hfailed. simpl.
    destruct e; try discriminate; simpl; now rewrite app_assoc. }
  split; [exact Hturn|]. split.
  - now apply (handle_entry_raise failed t_failed e).
  - cbn [loop]. rewrite Hturn. now destruct (loop script).
Qed.

End WorkerClaims.

Section WorkerExamples.
Import StreamProcessor StreamFacts Analysis Examples.

Lemma worker_stores_completed_witness :
  process_message_list [good_delivery]
  = ([SETEX "result:a1" 3600 (stored_result vulnerable_entry calm);
      ack "2-0"], Ok tt).
Proof.
  apply (worker_stores_completed_then_acks "2-0" vulnerable_entry calm []
           "Execute(a+b)"); reflexivity.
Defined.

(** C2 as stated fails: the engine finds a SQL injection in the code of the
    entry, and the worker stores a result with no finding and a count of
    zero. *)
Lemma worker_stores_no_findings :
  (exists v,
     returned (detect_simple_vulnerabilities serial false (Ok unloaded)
                 "Execute(a+b)" "python") = Ok [v]
     /\ category v = "SQL Injection")
  /\ vulnerable_entry !! "code" = Some "Execute(a+b)"
  /\ process_code_analysis vulnerable_entry calm
     = ([SETEX "result:a1" 3600
           (VDict [ ("analysis_id", VStr "a1");
                    ("status", VStr "completed");
                    ("processed_at", VStr "2024-01-01T12:00:00");
                    ("vulnerabilities_found", VInt 0) ])], Ok tt).
Proof.
  split; [|split].
  - eexists. split; [vm_compute; reflexivity | reflexivity].
  - reflexivity.
  - reflexivity.
Qed.

Lemma failed_entry_ends_the_batch_witness :
  iteration (Ok [("code_analysis_stream", [bad_delivery; good_delivery])])
  = ([SLEEP 1], Ok Continue).
Proof.
  apply (failed_entry_ends_the_batch "code_analysis_stream" []
           bad_delivery [good_delivery] [] [] []
           (TypeError "object of type 'NoneType' has no len()") []);
    reflexivity.
Defined.

(** C7 as stated fails: the first entry of the batch raises, and the second
    one, which goes through when it is read alone, is neither processed nor
    acknowledged. *)
Lemma later_entry_is_skipped :
  handle_entry bad_delivery
  = ([], Raise (TypeError "object of type 'NoneType' has no len()"))
  /\ In (ack "2-0")
        (fst (iteration (Ok [("code_analysis_stream", [good_delivery])])))
  /\ ~ In (ack "2-0")
         (fst (iteration
                 (Ok [("code_analysis_stream",
                       [bad_delivery; good_delivery])])))
  /\ iteration (Ok [("code_analysis_stream", [bad_delivery; good_delivery])])
     = ([SLEEP 1], Ok Continue).
Proof.
  split; [reflexivity|]. split; [|split].
  - vm_compute. auto.
  - vm_compute. intros [H|[]]. discriminate.
  - reflexivity.
Qed.

End WorkerExamples.

(** ** The connection manager *)

Section BroadcastFacts.
Import Websocket WebsocketFacts.

Variable send_json : WebSocket -> value -> option exn.

(** The first loop of [broadcast_to_client], over any list of handles. *)
Lemma attempts_spec (message : value) (l : list WebSocket)
    (disconnected : gset WebSocket) (delivered : list (WebSocket * value)) :
  fold_left (attempt send_json message) l (disconnected, delivered)
  = (disconnected
       ∪ list_to_set (filter (fun c => is_Some (send_json c message)) l),
     (delivered
        ++ map (fun c => (c, message))
             (filter (fun c => send_json c message = None) l))%list).
Proof.
  revert disconnected delivered.
  induction l as [|c l IH]; intros disconnected delivered.
  - simpl. f_equal; [set_solver | now rewrite app_nil_r].
  - cbn [fold_left attempt]. destruct (send_json c message) as [e|] eqn:E.
    + rewrite IH. rewrite filter_cons_True by (rewrite E; eauto).
      rewrite filter_cons_False by (rewrite E; discriminate).
      f_equal. rewrite list_to_set_cons. set_solver.
    + rewrite IH. rewrite filter_cons_False by (rewrite E; apply is_Some_None).
      rewrite filter_cons_True by exact E.
      simpl. now rewrite <- app_assoc.
Qed.

(** The second loop removes exactly the handles of [disconnected]. *)
Lemma discard_all_difference (disconnected conns : gset WebSocket) :
  discard_all disconnected conns = conns ∖ disconnected.
Proof.
  unfold discard_all.
  assert (forall (l : list WebSocket) (s : gset WebSocket),
            fold_left (fun conns conn => conns ∖ {[conn]}) l s
            = s ∖ list_to_set l) as Hfold.
  { induction l as [|c l IH]; intros s; simpl; [set_solver|].
    rewrite IH. set_solver. }
  rewrite Hfold. now rewrite list_to_set_elements_L.
Qed.

(** [broadcast_to_client] on a registered client: the handles whose send
    raised are removed, the others got the message. *)
Lemma broadcast_to_client_spec (self : ConnectionManager) (message : value)
    (client_id : string) (conns : gset WebSocket) :
  active_connections self !! client_id = Some conns ->
  broadcast_to_client send_json self message client_id
  = ({| active_connections :=
          <[client_id :=
              conns ∖ list_to_set
                        (filter (fun c => is_Some (send_json c message))
                           (elements conns))]>
            (active_connections self) |},
     map (fun c => (c, message))
       (filter (fun c => send_json c message = None) (elements conns))).
Proof.
  intros Hreg. unfold broadcast_to_client. rewrite Hreg, attempts_spec.
  rewrite discard_all_difference.
  replace (∅ ∪ list_to_set
                 (filter (fun c => is_Some (send_json c message))
                    (elements conns)))
    with (list_to_set (C := gset WebSocket)
            (filter (fun c => is_Some (send_json c message))
               (elements conns)))
    by set_solver.
  reflexivity.
Qed.

End BroadcastFacts.

Section BroadcastClaims.
Import Websocket WebsocketFacts.

(** C8. When a client has two handles registered, the send to one raises
    and the send to the other goes through, then after
    [broadcast_to_client] exactly the second handle is registered for the
    client, the message went out on it (and on no other handle), and the
    other clients are untouched. *)
Theorem broadcast_isolates_failed_handle
    (send_json : WebSocket -> value -> option exn)
    (self : ConnectionManager) (message : value) (client_id : string)
    (failing surviving : WebSocket) (e : exn) :
  failing <> surviving ->
  active_connections self !! client_id = Some {[failing; surviving]} ->
  send_json failing message = Some e ->
  send_json surviving message = None ->
  active_connections
    (fst (broadcast_to_client send_json self message client_id)) !! client_id
  = Some {[surviving]}
  /\ snd (broadcast_to_client send_json self message client_id)
     = [(surviving, message)]
  /\ (forall other, other <> client_id ->
        active_connections
          (fst (broadcast_to_client send_json self message client_id))
          !! other
        = active_connections self !! other).
Proof.
  intros Hne Hreg Hfail Hok.
  rewrite (broadcast_to_client_spec send_json self message client_id _ Hreg).
  cbn [fst snd active_connections].
  assert (Hperm : elements ({[failing; surviving]} : gset WebSocket)
                  ≡ₚ [failing; surviving]).
  { rewrite elements_disj_union by set_solver.
    now rewrite !elements_singleton. }
  split; [|split].
  - rewrite lookup_insert_eq. f_equal. apply set_eq. intros c.
    rewrite elem_of_difference, elem_of_list_to_set, list_elem_of_filter,
      elem_of_elements.
    split.
    + intros [Hc Hn]. apply elem_of_union in Hc as [Hc|Hc];
        apply elem_of_singleton in Hc; subst c.
      * exfalso. apply Hn. split; [rewrite Hfail; eauto | set_solver].
      * set_solver.
    + intros Hc. apply elem_of_singleton in Hc. subst c.
      split; [set_solver|]. intros [Hs _]. rewrite Hok in Hs.
      now apply is_Some_None in Hs.
  - assert (Hf : filter (fun c => send_json c message = None)
                   (elements ({[failing; surviving]} : gset WebSocket))
                 ≡ₚ [surviving]).
    { rewrite Hperm. rewrite filter_cons_False by (rewrite Hfail; discriminate).
      now rewrite filter_cons_True by exact Hok. }
    apply Permutation_singleton_r in Hf. now rewrite Hf.
  - intros other Hother. now rewrite lookup_insert_ne.
Qed.

(** [disconnect] keeps the registry free of empty sets. *)
Lemma disconnect_no_empty_sets (self : ConnectionManager)
    (websocket : WebSocket) (client_id : string) :
  no_empty_sets self -> no_empty_sets (disconnect self websocket client_id).
Proof.
  intros Hinv. unfold disconnect.
  destruct (active_connections self !! client_id) as [conns|] eqn:Hreg;
    [|exact Hinv].
  destruct (decide (conns ∖ {[websocket]} = ∅)) as [Hempty|Hleft];
    intros cid conns'; cbn [active_connections].
  - destruct (decide (client_id = cid)) as [->|Hcid].
    + now rewrite lookup_delete_eq.
    + rewrite lookup_delete_ne by exact Hcid. apply Hinv.
  - destruct (decide (client_id = cid)) as [->|Hcid].
    + rewrite lookup_insert_eq. now intros [= <-].
    + rewrite lookup_insert_ne by exact Hcid. apply Hinv.
Qed.

(** C9. [disconnect] keeps the registry free of empty sets, and
    [broadcast_to_client] does not: when every handle of a client fails,
    the client stays in the registry with the empty set, so the registry is
    no longer free of empty sets. *)
Theorem empty_set_left_by_broadcast_not_by_disconnect :
  (forall self websocket client_id,
     no_empty_sets self ->
     no_empty_sets (disconnect self websocket client_id))
  /\ (forall send_json self message client_id conns,
        active_connections self !! client_id = Some conns ->
        (forall c, c ∈ conns -> is_Some (send_json c message)) ->
        active_connections
          (fst (broadcast_to_client send_json self message client_id))
          !! client_id = Some ∅
        /\ ~ no_empty_sets
               (fst (broadcast_to_client send_json self message client_id))).
Proof.
  split; [exact disconnect_no_empty_sets|].
  intros send_json self message client_id conns Hreg Hall.
  assert (Hleft :
    active_connections
      (fst (broadcast_to_client send_json self message client_id))
      !! client_id = Some ∅).
  { rewrite (broadcast_to_client_spec send_json self message client_id _
               Hreg).
    cbn [fst active_connections]. rewrite lookup_insert_eq. f_equal.
    apply set_eq. intros c.
    rewrite elem_of_difference, elem_of_list_to_set, list_elem_of_filter,
      elem_of_elements.
    split; [|set_solver]. intros [Hc Hn]. exfalso. apply Hn. auto. }
  split; [exact Hleft|]. intros Hinv. now apply (Hinv _ _ Hleft).
Qed.

End BroadcastClaims.

Section BroadcastWitnesses.
Import Websocket WebsocketFacts Examples.

Lemma broadcast_isolates_failed_handle_witness :
  active_connections
    (fst (broadcast_to_client first_tab_dead two_tabs hello "client-1"))
    !! "client-1" = Some {[2%nat]}
  /\ snd (broadcast_to_client first_tab_dead two_tabs hello "client-1")
     = [(2%nat, hello)].
Proof.
  destruct (broadcast_isolates_failed_handle first_tab_dead two_tabs hello
              "client-1" 1%nat 2%nat (ConnectionError "socket closed"))
    as (Hleft & Hsent & _).
  - lia.
  - reflexivity.
  - reflexivity.
  - reflexivity.
  - split; [exact Hleft | exact Hsent].
Defined.

Lemma empty_set_left_by_broadcast_witness :
  active_connections
    (fst (broadcast_to_client all_dead two_tabs hello "client-1"))
    !! "client-1" = Some ∅.
Proof.
  destruct empty_set_left_by_broadcast_not_by_disconnect as [_ Hbroadcast].
  destruct (Hbroadcast all_dead two_tabs hello "client-1" {[1%nat; 2%nat]})
    as [Hleft _].
  - reflexivity.
  - intros c _. exists (ConnectionError "socket closed"). reflexivity.
  - exact Hleft.
Defined.

End BroadcastWitnesses.

(** ** The push session *)

Section DispatchFacts.
Import Websocket WebsocketFacts.

(** The analyze branch of the receive loop, when the socket takes the two
    sends: [analysis_queued], half a second of sleep, [analysis_result]. *)
Lemma dispatch_analyze
    (link : nat -> option exn) (message : value) (s : session) :
  get message "type" = Ok (VStr "analyze") ->
  link (attempts s) = None ->
  link (S (attempts s)) = None ->
  exists analysis_id,
    get message "analysis_id" = Ok analysis_id
    /\ dispatch link message s
       = ({| events := (events s ++ [Sent (analysis_queued analysis_id);
                                     Slept 0.5;
                                     Sent (analysis_result analysis_id)])%list;
             attempts := S (S (attempts s)) |}, Ok tt).
Proof.
  intros Htype Hfirst Hsecond.
  destruct message as [| | | | |items]; try discriminate.
  exists (default VNone (assoc "analysis_id" items)).
  split; [reflexivity|].
  unfold dispatch, andthen, lift. rewrite Htype. cbn [is_str String.eqb].
  simpl. unfold send_personal_message at 1. rewrite Hfirst.
  unfold sleep. cbn [events attempts].
  unfold send_personal_message. cbn [events attempts]. rewrite Hsecond.
  unfold analysis_queued, analysis_result.
  now rewrite <- !app_assoc.
Qed.

End DispatchFacts.

(** ** The scenarios of the specification, run on the model *)

Section Scenarios.
Import Analysis AnalysisFacts StreamProcessor Websocket WebsocketFacts Examples.

(** A hardcoded password on line 3: one HIGH finding, confidence 0.82. *)
Example scenario_hardcoded_secret :
  returned (detect_simple_vulnerabilities serial false (Ok unloaded)
              ("import os" ++ newline ++ newline
               ++ "password = " ++ dquote ++ "abc123" ++ dquote)
              "python")
  = Ok [ {| id := "uuid-0";
            category := "Hardcoded Secrets";
            severity := "HIGH";
            line_number := 3;
            column_number := 0;
            message :=
              "Hardcoded secret detected: Use environment variables instead";
            code_snippet := "password = " ++ dquote ++ "abc123" ++ dquote;
            confidence_score := 0.82 |} ].
Proof. vm_compute. reflexivity. Qed.

(** Nothing matches and there is no classifier: no finding. *)
Example scenario_nothing_found :
  detect_simple_vulnerabilities serial false (Ok unloaded) "x = 1" "python"
  = {| printed := []; returned := Ok [] |}.
Proof. vm_compute. reflexivity. Qed.

(** The classifier is sure of SQL injection (0.9) and the pattern rule
    found one: the only SQL injection finding is the pattern one. *)
Example scenario_one_sql_injection :
  on_ok (List.filter (has_category "SQL Injection"))
    (returned (detect_simple_vulnerabilities serial true (Ok sql_detector)
                 "db.query(a + b)" "python"))
  = Ok [ sql_finding 1 "db.query(a + b)" ".query(" "uuid-0" ].
Proof. vm_compute. reflexivity. Qed.

(** The classifier alone finds something: its finding is on line 1,
    column 0, and the message shows the confidence as a percentage. *)
Example scenario_model_only :
  returned (detect_simple_vulnerabilities serial true (Ok sql_detector)
              "run(cmd)" "python")
  = Ok [ {| id := "uuid-0";
            category := "SQL Injection";
            severity := "CRITICAL";
            line_number := 1;
            column_number := 0;
            message := "ML Model detected SQL Injection (confidence: 90%)";
            code_snippet := "run(cmd)";
            confidence_score := 0.9 |} ].
Proof. vm_compute. reflexivity. Qed.

(** One turn of the worker on a batch of one good entry. *)
Example scenario_worker_turn :
  StreamProcessor.main None
    [Ok [("code_analysis_stream", [good_delivery])]; Raise KeyboardInterrupt]
  = ([SETEX "result:a1" 3600
        (VDict [ ("analysis_id", VStr "a1");
                 ("status", VStr "completed");
                 ("processed_at", VStr "2024-01-01T12:00:00");
                 ("vulnerabilities_found", VInt 0) ]);
      XACK "code_analysis_stream" "analysis_workers" "2-0"], Stopped).
Proof. vm_compute. reflexivity. Qed.

(** A session: connect, one analyze request, then the client goes away. *)
Example scenario_session :
  websocket_endpoint sound None
    [Ok analyze_request; Raise WebSocketDisconnect]
    {| active_connections := ∅ |} 7%nat "client-1"
  = ({| active_connections := ∅ |},
     [Sent (welcome "client-1");
      Sent (analysis_queued (VStr "a1"));
      Slept 0.5;
      Sent (analysis_result (VStr "a1"))],
     Closed).
Proof. vm_compute. reflexivity. Qed.

End Scenarios.

(** * Further properties of the code *)

(** ** The other two pattern rules *)

Section RuleFacts.
Import Analysis AnalysisFacts.

(** A constructor among the findings of a line gives a finding among the
    findings returned, with some identifier. *)
Lemma line_finding_returned (uuid4 : nat -> string) {D} `{Detector D}
    (ML_AVAILABLE : bool) (get_detector : result D)
    (code language : string) (i : nat) (line : string)
    (mk : string -> Vulnerability) :
  nth_error (split_lines code) i = Some line ->
  In mk (line_findings (1 + Z.of_nat i, line)) ->
  (ML_AVAILABLE = true -> interrupted (classify get_detector code) = false) ->
  exists findings ident,
    returned (detect_simple_vulnerabilities uuid4 ML_AVAILABLE get_detector
                code language) = Ok findings
    /\ In (mk ident) findings.
Proof.
  intros Hline Hmk Hsig.
  destruct (detect_returns uuid4 ML_AVAILABLE get_detector code language Hsig)
    as [M HM].
  assert (Hin : In mk (pattern_findings code)).
  { unfold pattern_findings. apply in_flat_map.
    exists (1 + Z.of_nat i, line). split; [now apply enumerate_nth | exact Hmk]. }
  destruct (issue_in uuid4 0 _ _ Hin) as [ident Hident].
  rewrite <- pattern_detection_issue in Hident.
  exists (vulnerabilities (pattern_detection uuid4 code) ++ M)%list, ident.
  split; [exact HM | apply in_or_app; now left].
Qed.

End RuleFacts.

Section RuleClaims.
Import Analysis AnalysisFacts.

(** X1. If line [i + 1] of the input matches a pattern of [xss_patterns]
    (ignoring case), the list returned has a finding with category
    Cross-Site Scripting (XSS), severity HIGH, that line number, confidence
    0.68, the stripped line as snippet and [line.find(pattern)] as column;
    no second condition is asked of the line. *)
Theorem xss_rule_reports_line
    (uuid4 : nat -> string) {D} `{Detector D}
    (ML_AVAILABLE : bool) (get_detector : result D)
    (code language : string) (i : nat) (line pattern : string) :
  nth_error (split_lines code) i = Some line ->
  In pattern xss_patterns ->
  contains (lower pattern) (lower line) = true ->
  (ML_AVAILABLE = true -> interrupted (classify get_detector code) = false) ->
  exists findings v,
    returned (detect_simple_vulnerabilities uuid4 ML_AVAILABLE get_detector
                code language) = Ok findings
    /\ In v findings
    /\ category v = "Cross-Site Scripting (XSS)"
    /\ severity v = "HIGH"
    /\ line_number v = Z.of_nat i + 1
    /\ column_number v = find line pattern
    /\ code_snippet v = strip line
    /\ confidence_score v = 0.68%Q.
Proof.
  intros Hline Hpat Hmark Hsig.
  destruct (line_finding_returned uuid4 ML_AVAILABLE get_detector code
              language i line (xss_finding (1 + Z.of_nat i) line pattern)
              Hline) as (findings & ident & Hret & Hin); [|exact Hsig|].
  - unfold line_findings. apply in_or_app. right. apply in_or_app. left.
    apply in_map, filter_In. split; [exact Hpat | exact Hmark].
  - exists findings, (xss_finding (1 + Z.of_nat i) line pattern ident).
    split; [exact Hret|]. split; [exact Hin|]. simpl. repeat split. lia.
Qed.

(** X2. If line [i + 1] of the input matches a pattern of
    [secret_patterns] (ignoring case), contains ["="] or [":"], and contains
    a double or a single quote, the list returned has a finding with
    category Hardcoded Secrets, severity HIGH, that line number and
    confidence 0.82. *)
Theorem secret_rule_reports_line
    (uuid4 : nat -> string) {D} `{Detector D}
    (ML_AVAILABLE : bool) (get_detector : result D)
    (code language : string) (i : nat) (line pattern : string) :
  nth_error (split_lines code) i = Some line ->
  In pattern secret_patterns ->
  contains (lower pattern) (lower line) = true ->
  contains "=" line = true \/ contains ":" line = true ->
  contains dquote line = true \/ contains "'" line = true ->
  (ML_AVAILABLE = true -> interrupted (classify get_detector code) = false) ->
  exists findings v,
    returned (detect_simple_vulnerabilities uuid4 ML_AVAILABLE get_detector
                code language) = Ok findings
    /\ In v findings
    /\ category v = "Hardcoded Secrets"
    /\ severity v = "HIGH"
    /\ line_number v = Z.of_nat i + 1
    /\ column_number v = find line pattern
    /\ code_snippet v = strip line
    /\ confidence_score v = 0.82%Q.
Proof.
  intros Hline Hpat Hmark Hassign Hquote Hsig.
  destruct (line_finding_returned uuid4 ML_AVAILABLE get_detector code
              language i line (secret_finding (1 + Z.of_nat i) line pattern)
              Hline) as (findings & ident & Hret & Hin); [|exact Hsig|].
  - unfold line_findings. apply in_or_app. right. apply in_or_app. right.
    apply in_map, filter_In. split; [exact Hpat|]. unfold secret_hit.
    rewrite Hmark. simpl. apply andb_true_iff.
    split; apply orb_true_iff; assumption.
  - exists findings, (secret_finding (1 + Z.of_nat i) line pattern ident).
    split; [exact Hret|]. split; [exact Hin|]. simpl. repeat split. lia.
Qed.

End RuleClaims.

Section RuleWitnesses.
Import Analysis AnalysisFacts Examples.

Lemma xss_rule_reports_line_witness :
  exists findings v,
    returned (detect_simple_vulnerabilities serial false (Ok unloaded)
                ("a = 1" ++ newline ++ "el.innerhtml = x") "javascript")
    = Ok findings
    /\ In v findings
    /\ category v = "Cross-Site Scripting (XSS)"
    /\ severity v = "HIGH"
    /\ line_number v = 2
    /\ column_number v = find "el.innerhtml = x" "innerHTML ="
    /\ code_snippet v = strip "el.innerhtml = x"
    /\ confidence_score v = 0.68%Q.
Proof.
  apply (xss_rule_reports_line serial false (Ok unloaded)
           ("a = 1" ++ newline ++ "el.innerhtml = x") "javascript"
           1 "el.innerhtml = x" "innerHTML =").
  - reflexivity.
  - simpl. auto.
  - reflexivity.
  - discriminate.
Defined.

Lemma secret_rule_reports_line_witness :
  exists findings v,
    returned (detect_simple_vulnerabilities serial false (Ok unloaded)
                "API_KEY = 'k'" "python")
    = Ok findings
    /\ In v findings
    /\ category v = "Hardcoded Secrets"
    /\ severity v = "HIGH"
    /\ line_number v = 1
    /\ column_number v = find "API_KEY = 'k'" "api_key ="
    /\ code_snippet v = strip "API_KEY = 'k'"
    /\ confidence_score v = 0.82%Q.
Proof.
  apply (secret_rule_reports_line serial false (Ok unloaded)
           "API_KEY = 'k'" "python" 0 "API_KEY = 'k'" "api_key =").
  - reflexivity.
  - simpl. auto.
  - reflexivity.
  - left. reflexivity.
  - right. reflexivity.
  - discriminate.
Defined.

End RuleWitnesses.

(** ** Where the findings come from *)

Section OriginFacts.
Import Analysis AnalysisFacts.

Lemma enumerate_in {A} (l : list A) (start n : Z) (x : A) :
  In (n, x) (enumerate start l) ->
  exists i, nth_error l i = Some x /\ n = start + Z.of_nat i.
Proof.
  revert start. induction l as [|y l IH]; intros start;
    cbn [enumerate In]; [intros []|].
  intros [[= <- <-]|H].
  - exists 0%nat. split; [reflexivity | lia].
  - destruct (IH _ H) as (i & Hi & ->). exists (S i).
    split; [exact Hi | lia].
Qed.

Lemma split_lines_nonempty (s : string) : split_lines s <> [].
Proof.
  induction s as [|c s IH]; cbn [split_lines]; [discriminate|].
  destruct (Ascii.eqb c "010"); [discriminate|].
  destruct (split_lines s); [contradiction | discriminate].
Qed.

Lemma nth_error_bound {A} (l : list A) (i : nat) (x : A) :
  nth_error l i = Some x -> (i < length l)%nat.
Proof. intros H. apply nth_error_Some. congruence. Qed.

(** Where a constructor of [pattern_findings] comes from. *)
Lemma pattern_finding_origin (code : string)
    (mk : string -> Vulnerability) :
  In mk (pattern_findings code) ->
  exists i line pattern,
    nth_error (split_lines code) i = Some line
    /\ contains (lower pattern) (lower line) = true
    /\ ((mk = sql_finding (Z.of_nat i + 1) line pattern
         /\ In pattern sql_patterns /\ contains "+" line = true)
        \/ (mk = xss_finding (Z.of_nat i + 1) line pattern
            /\ In pattern xss_patterns)
        \/ (mk = secret_finding (Z.of_nat i + 1) line pattern
            /\ In pattern secret_patterns
            /\ contains "=" line || contains ":" line = true
            /\ contains dquote line || contains "'" line = true)).
Proof.
  unfold pattern_findings. intros H.
  apply in_flat_map in H as ([n line] & Hn & H).
  apply enumerate_in in Hn as (i & Hline & ->).
  replace (1 + Z.of_nat i) with (Z.of_nat i + 1) in H by lia.
  unfold line_findings in H.
  apply in_app_or in H as [H|H]; [|apply in_app_or in H as [H|H]];
    apply in_map_iff in H as (pattern & <- & H);
    apply filter_In in H as [Hpat Hhit];
    exists i, line, pattern; (split; [exact Hline|]).
  - unfold sql_hit in Hhit. apply andb_true_iff in Hhit as [Hm Hp].
    split; [exact Hm|]. left. auto.
  - split; [exact Hhit|]. right. left. auto.
  - unfold secret_hit in Hhit.
    apply andb_true_iff in Hhit as [Hhit Hq].
    apply andb_true_iff in Hhit as [Hm Ha].
    split; [exact Hm|]. right. right. auto.
Qed.

(** [find] answers [-1] exactly when there is no occurrence. *)
Lemma find_from_absent (i : Z) (sub s : string) :
  contains sub s = false -> find_from i sub s = -1.
Proof.
  revert i. induction s as [|c s IH]; intros i.
  - rewrite contains_nil. cbn [find_from]. now intros ->.
  - rewrite contains_cons.
    change (find_from i sub (String c s))
      with (if String.prefix sub (String c s) then i
            else find_from (i + 1) sub s).
    destruct (String.prefix sub (String c s)); [discriminate | apply IH].
Qed.

(** Otherwise it answers the offset of the first occurrence. *)
Lemma find_from_first (i : Z) (sub s : string) :
  contains sub s = true ->
  exists a b,
    s = a ++ sub ++ b
    /\ find_from i sub s = i + Z.of_nat (String.length a)
    /\ forall a' b', s = a' ++ sub ++ b' ->
         (String.length a <= String.length a')%nat.
Proof.
  revert i. induction s as [|c s IH]; intros i.
  - rewrite contains_nil. intros E. cbn [find_from]. rewrite E.
    apply prefix_app in E as [b Hb]. exists EmptyString, b.
    split; [exact Hb|]. split; [simpl; lia|]. intros a' b' _. simpl. lia.
  - rewrite contains_cons.
    change (find_from i sub (String c s))
      with (if String.prefix sub (String c s) then i
            else find_from (i + 1) sub s).
    destruct (String.prefix sub (String c s)) eqn:E.
    + intros _. apply prefix_app in E as [b Hb]. exists EmptyString, b.
      split; [exact Hb|]. split; [simpl; lia|]. intros a' b' _. simpl. lia.
    + intros Hc. destruct (IH (i + 1) Hc) as (a & b & Hs & Hf & Hfirst).
      exists (String c a), b. split; [now rewrite append_cons, <- Hs|].
      split; [rewrite Hf; cbn [String.length]; lia|].
      intros a' b' Hs'. destruct a' as [|c' a'].
      * exfalso. assert (String.prefix sub (String c s) = true) as E'
          by (apply prefix_app; exists b'; exact Hs').
        congruence.
      * rewrite append_cons in Hs'. injection Hs' as _ Hs'.
        cbn [String.length]. specialize (Hfirst a' b' Hs'). lia.
Qed.

End OriginFacts.

Section OriginClaims.
Import Analysis AnalysisFacts.

(** X3. No finding without a matching line.  With the classifier switched
    off, every finding returned comes from a line of the input that matches
    a pattern of its rule (ignoring case) and passes the second test of the
    rule; the finding carries the number of that line, the stripped line as
    snippet, and the category of the rule. *)
Theorem pattern_finding_has_matching_line
    (uuid4 : nat -> string) {D} `{Detector D} (get_detector : result D)
    (code language : string) :
  exists findings,
    returned (detect_simple_vulnerabilities uuid4 false get_detector
                code language) = Ok findings
    /\ forall v, In v findings ->
         exists i line pattern,
           nth_error (split_lines code) i = Some line
           /\ line_number v = Z.of_nat i + 1
           /\ code_snippet v = strip line
           /\ contains (lower pattern) (lower line) = true
           /\ ((category v = "SQL Injection"
                /\ In pattern sql_patterns /\ contains "+" line = true)
               \/ (category v = "Cross-Site Scripting (XSS)"
                   /\ In pattern xss_patterns)
               \/ (category v = "Hardcoded Secrets"
                   /\ In pattern secret_patterns
                   /\ contains "=" line || contains ":" line = true
                   /\ contains dquote line || contains "'" line = true)).
Proof.
  eexists. split; [reflexivity|]. intros v Hv.
  rewrite pattern_detection_issue in Hv.
  apply in_issue in Hv as (mk & ident & Hmk & ->).
  apply pattern_finding_origin in Hmk
    as (i & line & pattern & Hline & Hm & Hrule).
  exists i, line, pattern. split; [exact Hline|].
  destruct Hrule as [(-> & ? & ?)|[(-> & ?)|(-> & ? & ? & ?)]];
    simpl; repeat split; auto 10.
Qed.

(** X4. The column of a pattern finding.  With the classifier switched
    off, every finding returned comes from a line and a pattern of its own
    rule that matches the line ignoring case (and passes the second test of
    the rule), and its column is [line.find(pattern)] for that line and
    that pattern as written: [-1] when the line has no occurrence of the
    pattern in that very case, and otherwise the offset of the first such
    occurrence. *)
Theorem column_is_first_literal_occurrence
    (uuid4 : nat -> string) {D} `{Detector D} (get_detector : result D)
    (code language : string) :
  exists findings,
    returned (detect_simple_vulnerabilities uuid4 false get_detector
                code language) = Ok findings
    /\ forall v, In v findings ->
         exists i line pattern,
           nth_error (split_lines code) i = Some line
           /\ line_number v = Z.of_nat i + 1
           /\ contains (lower pattern) (lower line) = true
           /\ ((category v = "SQL Injection"
                /\ In pattern sql_patterns /\ contains "+" line = true)
               \/ (category v = "Cross-Site Scripting (XSS)"
                   /\ In pattern xss_patterns)
               \/ (category v = "Hardcoded Secrets"
                   /\ In pattern secret_patterns
                   /\ contains "=" line || contains ":" line = true
                   /\ contains dquote line || contains "'" line = true))
           /\ column_number v = find line pattern
           /\ ((contains pattern line = false /\ column_number v = -1)
               \/ exists a b,
                    line = a ++ pattern ++ b
                    /\ column_number v = Z.of_nat (String.length a)
                    /\ forall a' b', line = a' ++ pattern ++ b' ->
                         (String.length a <= String.length a')%nat).
Proof.
  eexists. split; [reflexivity|]. intros v Hv.
  rewrite pattern_detection_issue in Hv.
  apply in_issue in Hv as (mk & ident & Hmk & ->).
  apply pattern_finding_origin in Hmk
    as (i & line & pattern & Hline & Hm & Hrule).
  exists i, line, pattern. split; [exact Hline|].
  assert (Hcol : (contains pattern line = false /\ find line pattern = -1)
                 \/ exists a b,
                      line = a ++ pattern ++ b
                      /\ find line pattern = Z.of_nat (String.length a)
                      /\ forall a' b', line = a' ++ pattern ++ b' ->
                           (String.length a <= String.length a')%nat).
  { destruct (contains pattern line) eqn:E.
    - right. destruct (find_from_first 0 pattern line E)
        as (a & b & Hs & Hf & Hfirst).
      exists a, b. split; [exact Hs|]. split; [exact Hf | exact Hfirst].
    - left. split; [reflexivity | now apply find_from_absent]. }
  destruct Hrule as [(-> & Hp & Hplus)|[(-> & Hp)|(-> & Hp & Hassign & Hquote)]];
    (split; [simpl; lia|]); (split; [exact Hm|]);
    (split; [simpl; auto 10|]); (split; [reflexivity | exact Hcol]).
Qed.

(** X5. Line numbers stay inside the input.  Whenever the call returns,
    every finding has a line number between 1 and the number of lines of
    the input (model findings are all on line 1). *)
Theorem line_numbers_within_input
    (uuid4 : nat -> string) {D} `{Detector D}
    (ML_AVAILABLE : bool) (get_detector : result D)
    (code language : string) :
  (ML_AVAILABLE = true -> interrupted (classify get_detector code) = false) ->
  exists findings,
    returned (detect_simple_vulnerabilities uuid4 ML_AVAILABLE get_detector
                code language) = Ok findings
    /\ forall v, In v findings ->
         1 <= line_number v <= Z.of_nat (length (split_lines code)).
Proof.
  intros Hsig.
  assert (Hlines : 1 <= Z.of_nat (length (split_lines code))).
  { pose proof (split_lines_nonempty code).
    destruct (split_lines code); [contradiction | simpl; lia]. }
  assert (HP : forall v,
            In v (vulnerabilities (pattern_detection uuid4 code)) ->
            1 <= line_number v <= Z.of_nat (length (split_lines code))).
  { intros v Hv. rewrite pattern_detection_issue in Hv.
    apply in_issue in Hv as (mk & ident & Hmk & ->).
    apply pattern_finding_origin in Hmk
      as (i & line & pattern & Hline & _ & Hrule).
    apply nth_error_bound in Hline.
    destruct Hrule as [(-> & _)|[(-> & _)|(-> & _)]]; simpl; lia. }
  destruct ML_AVAILABLE.
  - destruct (classify get_detector code) as [out [preds|e]] eqn:Hcall.
    + eexists. split.
      * exact (detect_with_predictions uuid4 get_detector code language out
                 preds Hcall).
      * intros v Hv. apply in_app_or in Hv as [Hv|Hv]; [now apply HP|].
        apply in_issue in Hv as (mk & ident & Hmk & ->).
        apply in_map_iff in Hmk as (p & <- & _). simpl. lia.
    + specialize (Hsig eq_refl). simpl in Hsig.
      exists (vulnerabilities (pattern_detection uuid4 code)).
      split; [|exact HP]. unfold detect_simple_vulnerabilities.
      rewrite Hcall. now destruct (is_Exception e).
  - eexists. split; [reflexivity | exact HP].
Qed.

End OriginClaims.

Section OriginWitnesses.
Import Analysis AnalysisFacts Examples.

Lemma line_numbers_within_input_witness :
  exists findings,
    returned (detect_simple_vulnerabilities serial true (Ok sql_detector)
                ("x = 1" ++ newline ++ "eval(x)") "javascript") = Ok findings
    /\ forall v, In v findings ->
         1 <= line_number v
         <= Z.of_nat (length (split_lines ("x = 1" ++ newline ++ "eval(x)"))).
Proof.
  apply (line_numbers_within_input serial true (Ok sql_detector)
           ("x = 1" ++ newline ++ "eval(x)") "javascript").
  reflexivity.
Defined.

End OriginWitnesses.

(** ** Order and shape of the list returned *)

Section OrderFacts.
Import Analysis AnalysisFacts.

Lemma issue_app (uuid4 : nat -> string) (n : nat)
    (a b : list (string -> Vulnerability)) :
  issue uuid4 n (a ++ b)
  = (issue uuid4 n a ++ issue uuid4 (n + length a) b)%list.
Proof.
  revert n. induction a as [|mk a IH]; intros n; simpl.
  - now rewrite Nat.add_0_r.
  - rewrite IH. do 3 f_equal. lia.
Qed.

Lemma line_findings_number (uuid4 : nat -> string) (n : nat) (k : Z)
    (line : string) :
  Forall (fun x => x = k)
    (map line_number (issue uuid4 n (line_findings (k, line)))).
Proof.
  apply List.Forall_forall. intros x Hx.
  apply in_map_iff in Hx as (v & <- & Hv).
  apply in_issue in Hv as (mk & ident & Hmk & ->).
  unfold line_findings in Hmk.
  apply in_app_or in Hmk as [H|H]; [|apply in_app_or in H as [H|H]];
    apply in_map_iff in H as (pattern & <- & _); reflexivity.
Qed.

Lemma sorted_after_constant (k : Z) (l1 l2 : list Z) :
  Forall (fun x => x = k) l1 ->
  StronglySorted Z.le l2 ->
  Forall (fun x => k <= x) l2 ->
  StronglySorted Z.le (l1 ++ l2).
Proof.
  intros H1 H2 Hk. induction H1 as [|x l1 -> Hrest IH]; simpl; [exact H2|].
  constructor; [exact IH|]. apply Forall_app_2; [|exact Hk].
  eapply List.Forall_impl; [|exact Hrest]. simpl. intros; lia.
Qed.

Lemma scan_lines_sorted (uuid4 : nat -> string) (lines : list string)
    (start : Z) (n : nat) :
  let numbers :=
    map line_number
      (issue uuid4 n (flat_map line_findings (enumerate start lines))) in
  StronglySorted Z.le numbers /\ Forall (fun x => start <= x) numbers.
Proof.
  revert start n. induction lines as [|line lines IH]; intros start n;
    cbn [enumerate flat_map].
  - simpl. split; constructor.
  - rewrite issue_app, map_app.
    pose proof (line_findings_number uuid4 n start line) as Hhere.
    destruct (IH (start + 1)
                (n + length (line_findings (start, line)))%nat)
      as [Hsorted Hbound].
    split.
    + apply (sorted_after_constant start); [exact Hhere | exact Hsorted|].
      eapply List.Forall_impl; [|exact Hbound]. simpl. intros; lia.
    + apply Forall_app_2.
      * eapply List.Forall_impl; [|exact Hhere]. simpl. intros; lia.
      * eapply List.Forall_impl; [|exact Hbound]. simpl. intros; lia.
Qed.

Lemma seen_true (x : string) (seen : list string) :
  existsb (fun c => String.eqb c x) seen = true -> In x seen.
Proof.
  intros H. apply existsb_exists in H as (c & Hc & E).
  apply String.eqb_eq in E. now subst.
Qed.

Lemma survivors_distinct (seen : list string)
    (preds : list ModelLoader.Prediction) :
  List.NoDup (map ModelLoader.category (survivors seen preds)).
Proof.
  revert seen. induction preds as [|pred preds IH]; intros seen; simpl.
  - constructor.
  - destruct (existsb _ seen); [apply IH|]. simpl.
    constructor; [|apply IH]. intros Hin.
    apply in_map_iff in Hin as (p & E & Hp).
    apply survivors_fresh in Hp as [_ Hfresh].
    apply Hfresh, in_or_app. right. rewrite E. now left.
Qed.

Lemma survivors_length (seen : list string)
    (preds : list ModelLoader.Prediction) :
  (length (survivors seen preds) <= length preds)%nat.
Proof.
  revert seen. induction preds as [|pred preds IH]; intros seen; simpl.
  - lia.
  - destruct (existsb _ seen); simpl.
    + specialize (IH seen). lia.
    + specialize (IH (seen ++ [ModelLoader.category pred])%list). lia.
Qed.

Lemma survivors_complete (seen : list string)
    (preds : list ModelLoader.Prediction) (p : ModelLoader.Prediction) :
  In p preds ->
  In (ModelLoader.category p) seen
  \/ In (ModelLoader.category p)
        (map ModelLoader.category (survivors seen preds)).
Proof.
  revert seen. induction preds as [|pred preds IH]; intros seen; simpl.
  - intros [].
  - destruct (existsb _ seen) eqn:E.
    + intros [<-|H]; [left; now apply seen_true | now apply IH].
    + intros [<-|H]; [right; now left|].
      destruct (IH (seen ++ [ModelLoader.category pred])%list H) as [Hs|Hs].
      * apply in_app_or in Hs as [Hs|[<-|[]]]; [now left | right; now left].
      * right. now right.
Qed.

Lemma ml_categories (uuid4 : nat -> string) (n : nat) (code : string)
    (ps : list ModelLoader.Prediction) :
  map category (issue uuid4 n (map (ml_finding code) ps))
  = map ModelLoader.category ps.
Proof.
  revert n. induction ps as [|p ps IH]; intros n; simpl;
    [reflexivity | now rewrite IH].
Qed.

Lemma length_take (n : nat) (s : string) :
  (String.length (take n s) <= n)%nat.
Proof.
  revert s. induction n as [|n IH]; intros [|c s]; simpl; try lia.
  specialize (IH s). lia.
Qed.

Lemma length_string_app (a b : string) :
  String.length (a ++ b) = (String.length a + String.length b)%nat.
Proof.
  induction a as [|c a IH]; [reflexivity|].
  rewrite append_cons. simpl. now rewrite IH.
Qed.

End OrderFacts.

Section OrderClaims.
Import Analysis AnalysisFacts.

(** X6. Order of the list returned.  Whenever the call returns, the list
    is the pattern findings in the order of the lines (their line numbers
    never decrease), followed by the model findings, which are all on
    line 1, column 0. *)
Theorem findings_in_line_order_then_model
    (uuid4 : nat -> string) {D} `{Detector D}
    (ML_AVAILABLE : bool) (get_detector : result D)
    (code language : string) :
  (ML_AVAILABLE = true -> interrupted (classify get_detector code) = false) ->
  exists model_sourced,
    let pattern_sourced := vulnerabilities (pattern_detection uuid4 code) in
    returned (detect_simple_vulnerabilities uuid4 ML_AVAILABLE get_detector
                code language) = Ok (pattern_sourced ++ model_sourced)%list
    /\ StronglySorted Z.le (map line_number pattern_sourced)
    /\ forall m, In m model_sourced ->
         line_number m = 1 /\ column_number m = 0.
Proof.
  intros Hsig. cbv zeta.
  assert (Hsorted : StronglySorted Z.le
            (map line_number (vulnerabilities (pattern_detection uuid4 code)))).
  { rewrite pattern_detection_issue.
    exact (proj1 (scan_lines_sorted uuid4 (split_lines code) 1 0)). }
  destruct ML_AVAILABLE.
  - destruct (classify get_detector code) as [out [preds|e]] eqn:Hcall.
    + eexists. split; [|split; [exact Hsorted|]].
      * exact (detect_with_predictions uuid4 get_detector code language out
                 preds Hcall).
      * intros m Hm. apply in_issue in Hm as (mk & ident & Hmk & ->).
        apply in_map_iff in Hmk as (p & <- & _). split; reflexivity.
    + specialize (Hsig eq_refl). simpl in Hsig. exists [].
      split; [|split; [exact Hsorted | intros m []]].
      unfold detect_simple_vulnerabilities. rewrite Hcall.
      destruct (is_Exception e); [|discriminate]. simpl.
      now rewrite app_nil_r.
  - exists []. split; [|split; [exact Hsorted | intros m []]].
    simpl. now rewrite app_nil_r.
Qed.

(** X7. One model finding per category, and no predicted category lost.
    When the classifier returns [preds], the model findings appended have
    pairwise distinct categories (also when [preds] names a category
    twice), there are at most as many as predictions, and every predicted
    category is the category of some finding of the list returned. *)
Theorem model_findings_one_per_category
    (uuid4 : nat -> string) {D} `{Detector D} (get_detector : result D)
    (code language : string) (out : list string)
    (preds : list ModelLoader.Prediction) :
  classify get_detector code = (out, Ok preds) ->
  exists model_sourced,
    let pattern_sourced := vulnerabilities (pattern_detection uuid4 code) in
    returned (detect_simple_vulnerabilities uuid4 true get_detector
                code language) = Ok (pattern_sourced ++ model_sourced)%list
    /\ List.NoDup (map category model_sourced)
    /\ (length model_sourced <= length preds)%nat
    /\ forall p, In p preds ->
         In (ModelLoader.category p)
            (map category (pattern_sourced ++ model_sourced)).
Proof.
  intros Hcall. eexists. cbv zeta. split; [|split; [|split]].
  - exact (detect_with_predictions uuid4 get_detector code language out
             preds Hcall).
  - rewrite ml_categories. apply survivors_distinct.
  - rewrite length_issue, length_map. apply survivors_length.
  - intros p Hp. rewrite map_app, ml_categories. apply in_or_app.
    now apply survivors_complete.
Qed.

(** X8. The snippet of a model finding.  Every model finding carries the
    whole input as snippet when the input has at most 100 characters, and
    otherwise its first 100 characters followed by three dots; the snippet
    never has more than 103 characters. *)
Theorem model_snippet_is_truncated_code
    (uuid4 : nat -> string) {D} `{Detector D} (get_detector : result D)
    (code language : string) (out : list string)
    (preds : list ModelLoader.Prediction) :
  classify get_detector code = (out, Ok preds) ->
  exists model_sourced,
    returned (detect_simple_vulnerabilities uuid4 true get_detector
                code language)
    = Ok (vulnerabilities (pattern_detection uuid4 code) ++ model_sourced)%list
    /\ forall m, In m model_sourced ->
         (String.length (code_snippet m) <= 103)%nat
         /\ ((String.length code <= 100)%nat -> code_snippet m = code)
         /\ ((100 < String.length code)%nat ->
             code_snippet m = take 100 code ++ "...").
Proof.
  intros Hcall. eexists. split.
  - exact (detect_with_predictions uuid4 get_detector code language out
             preds Hcall).
  - intros m Hm. apply in_issue in Hm as (mk & ident & Hmk & ->).
    apply in_map_iff in Hmk as (p & <- & _). cbn [ml_finding code_snippet].
    destruct (Z.of_nat (String.length code) >? 100) eqn:E.
    + apply Z.gtb_lt in E.
      split; [|split; [intros ?; exfalso; lia | reflexivity]].
      rewrite length_string_app. pose proof (length_take 100 code).
      change (String.length "...") with 3%nat. lia.
    + assert (Z.of_nat (String.length code) <= 100) as Hle
        by (destruct (Z.gtb_spec (Z.of_nat (String.length code)) 100);
            [discriminate | lia]).
      split; [lia|]. split; [reflexivity | intros ?; exfalso; lia].
Qed.

End OrderClaims.

Section OrderWitnesses.
Import Analysis AnalysisFacts Examples.

Lemma findings_in_line_order_witness :
  exists model_sourced,
    let pattern_sourced :=
      vulnerabilities
        (pattern_detection serial ("eval(a)" ++ newline ++ "eval(b)")) in
    returned (detect_simple_vulnerabilities serial true (Ok sql_detector)
                ("eval(a)" ++ newline ++ "eval(b)") "javascript")
    = Ok (pattern_sourced ++ model_sourced)%list
    /\ StronglySorted Z.le (map line_number pattern_sourced)
    /\ forall m, In m model_sourced ->
         line_number m = 1 /\ column_number m = 0.
Proof.
  apply (findings_in_line_order_then_model serial true (Ok sql_detector)
           ("eval(a)" ++ newline ++ "eval(b)") "javascript").
  reflexivity.
Defined.

Lemma model_findings_one_per_category_witness :
  exists model_sourced,
    let pattern_sourced :=
      vulnerabilities (pattern_detection serial "run(cmd)") in
    returned (detect_simple_vulnerabilities serial true (Ok sql_detector)
                "run(cmd)" "python")
    = Ok (pattern_sourced ++ model_sourced)%list
    /\ List.NoDup (map category model_sourced)
    /\ (length model_sourced <= length [sql_prediction])%nat
    /\ forall p, In p [sql_prediction] ->
         In (ModelLoader.category p)
            (map category (pattern_sourced ++ model_sourced)).
Proof.
  apply (model_findings_one_per_category serial (Ok sql_detector)
           "run(cmd)" "python" []).
  reflexivity.
Defined.

Lemma model_snippet_witness :
  exists model_sourced,
    returned (detect_simple_vulnerabilities serial true (Ok sql_detector)
                "run(cmd)" "python")
    = Ok (vulnerabilities (pattern_detection serial "run(cmd)")
          ++ model_sourced)%list
    /\ forall m, In m model_sourced ->
         (String.length (code_snippet m) <= 103)%nat
         /\ ((String.length "run(cmd)" <= 100)%nat ->
             code_snippet m = "run(cmd)")
         /\ ((100 < String.length "run(cmd)")%nat ->
             code_snippet m = take 100 "run(cmd)" ++ "...").
Proof.
  apply (model_snippet_is_truncated_code serial (Ok sql_detector)
           "run(cmd)" "python" [] [sql_prediction]).
  reflexivity.
Defined.

End OrderWitnesses.

(** ** The classifier of [model_loader.py] *)

Section PredictFacts.
Import ModelLoader.

(** The prediction [predict] makes of a label and its score. *)
Lemma extract_tabled (threshold : Q) (scored : list (Z * Q))
    (results out : list Prediction) :
  Forall (fun p => severity p = _get_severity (category p)) results ->
  extract threshold scored results = Ok out ->
  Forall (fun p => severity p = _get_severity (category p)) out.
Proof.
  revert results. induction scored as [|[idx score] scored IH];
    intros results Hres; cbn [extract].
  - now intros [= <-].
  - destruct (exceeds score threshold); [|now apply IH].
    destruct (label_at idx) as [label|e]; [|discriminate]. cbn [bind].
    apply IH. apply Forall_app_2; [exact Hres|].
    constructor; [reflexivity | constructor].
Qed.

Lemma predict_tabled (detector : VulnerabilityDetector) (code : string)
    (threshold : Q) (out : list string) (preds : list Prediction) :
  predict detector code threshold = (out, Ok preds) ->
  Forall (fun p => severity p = _get_severity (category p)) preds.
Proof.
  unfold predict. destruct (model detector) as [net|].
  - destruct (net code) as [scores|e]; cbn [bind].
    + destruct (extract _ _ _) as [results|e] eqn:Hext.
      * intros [= _ <-].
        now apply (extract_tabled threshold (enumerate 0 scores) [] results).
      * destruct (is_Exception e); [|discriminate]. intros [= _ <-].
        constructor.
    + destruct (is_Exception e); [|discriminate]. intros [= _ <-].
      constructor.
  - intros [= _ <-]. constructor.
Qed.

(** An exception of the loop of [predict] is an [IndexError]. *)
Lemma extract_raises (threshold : Q) (scored : list (Z * Q))
    (results : list Prediction) (e : exn) :
  extract threshold scored results = Raise e ->
  e = IndexError "list index out of range".
Proof.
  revert results. induction scored as [|[idx score] scored IH];
    intros results; cbn [extract]; [discriminate|].
  destruct (exceeds score threshold); [|apply IH].
  unfold label_at. destruct (nth_error _ _); cbn [bind].
  - apply IH.
  - now intros [= <-].
Qed.

(** [score > threshold] holds when the score is above the threshold as a
    [float32]. *)
Lemma exceeds_lt (score threshold : Q) :
  exceeds score threshold = true
  <-> (float32 (float64 threshold) < score)%Q.
Proof.
  unfold exceeds, Qgtb. rewrite negb_true_iff.
  rewrite <- not_true_iff_false, Qle_bool_iff. split.
  - apply Qnot_le_lt.
  - apply Qlt_not_le.
Qed.

(** With at most ten scores, the loop gives the labels whose scores
    exceed the threshold, in the order of the labels. *)
Lemma extract_combine (threshold : Q) (scores : list Q) (k : nat)
    (results : list Prediction) :
  (k + length scores <= 10)%nat ->
  extract threshold (enumerate (Z.of_nat k) scores) results
  = Ok (results
        ++ map (fun '(label, score) =>
                  {| category := label;
                     confidence := score;
                     severity := _get_severity label;
                     source := "ml_model" |})
             (List.filter (fun '(_, score) => exceeds score threshold)
                (combine (skipn k vulnerability_labels) scores)))%list.
Proof.
  revert k results. induction scores as [|score scores IH];
    intros k results Hk; cbn [enumerate extract].
  - destruct (skipn k vulnerability_labels); simpl; now rewrite app_nil_r.
  - simpl in Hk.
    assert (exists label, nth_error vulnerability_labels k = Some label
                          /\ skipn k vulnerability_labels
                             = label :: skipn (S k) vulnerability_labels)
      as (label & Hlabel & Hskip).
    { assert (k < 10)%nat as Hlt by lia. clear - Hlt.
      do 10 (destruct k as [|k]; [eexists; split; reflexivity|]). lia. }
    rewrite Hskip. cbn [combine List.filter].
    replace (Z.of_nat k + 1) with (Z.of_nat (S k)) by lia.
    unfold label_at. rewrite Nat2Z.id, Hlabel. cbn [bind].
    destruct (exceeds score threshold).
    + rewrite IH by lia. cbn [map]. now rewrite <- app_assoc.
    + apply IH. lia.
Qed.

End PredictFacts.

Section PredictClaims.
Import ModelLoader.

(** X9. What [predict] returns.  When the model is loaded and the network
    gives at most ten scores, [predict] prints nothing and returns, in the
    order of [vulnerability_labels], one prediction for each label whose
    score is strictly above the threshold as a [float32] (the comparison
    of line 71: the [float] threshold is cast to the type of the scores),
    with that score as confidence, the severity of [_get_severity] and the
    source ["ml_model"].  For the threshold [0.6] of
    [detect_simple_vulnerabilities] the scores kept are those strictly
    above [5033165 / 8388608], the [float32] nearest to 0.6: a score equal
    to it is dropped, although it is above 0.6. *)
Theorem predict_keeps_labels_above_threshold
    (detector : VulnerabilityDetector) (net : Network) (code : string)
    (threshold : Q) (scores : list Q) :
  model detector = Some net ->
  net code = Ok scores ->
  (length scores <= 10)%nat ->
  predict detector code threshold
  = ([], Ok (map (fun '(label, score) =>
                    {| category := label;
                       confidence := score;
                       severity := _get_severity label;
                       source := "ml_model" |})
               (List.filter (fun '(_, score) => exceeds score threshold)
                  (combine vulnerability_labels scores))))
  /\ (forall score,
        exceeds score threshold = true
        <-> (float32 (float64 threshold) < score)%Q)
  /\ (forall score,
        exceeds score 0.6 = true <-> (5033165 # 8388608 < score)%Q)
  /\ (0.6 < 5033165 # 8388608)%Q.
Proof.
  intros Hmodel Hnet Hlen. split; [|split; [|split]].
  - unfold predict. rewrite Hmodel, Hnet. cbn [bind].
    assert (E := extract_combine threshold scores 0 [] Hlen).
    change (Z.of_nat 0) with 0 in E. now rewrite E.
  - intros score. apply exceeds_lt.
  - intros score. rewrite exceeds_lt.
    now replace (float32 (float64 0.6)) with (5033165 # 8388608)%Q
      by (vm_compute; reflexivity).
  - reflexivity.
Qed.

(** X10. [predict] never raises an [Exception].  Whatever the detector and
    the network do, what [predict] lets through is not an [Exception]; a
    detector without model returns the empty list; a network that raises
    an [Exception], or an index beyond the labels, is printed and gives the
    empty list. *)
Theorem predict_swallows_exceptions
    (detector : VulnerabilityDetector) (code : string) (threshold : Q) :
  (forall out e, predict detector code threshold = (out, Raise e) ->
                 is_Exception e = false)
  /\ (model detector = None ->
      predict detector code threshold = ([], Ok []))
  /\ (forall net e,
        model detector = Some net ->
        bind (net code) (fun scores =>
          extract threshold (enumerate 0 scores) []) = Raise e ->
        is_Exception e = true ->
        predict detector code threshold
        = ([("Error in ML prediction: " ++ str_exn e)%string], Ok [])).
Proof.
  split; [|split].
  - intros out e. unfold predict. destruct (model detector) as [net|];
      [|discriminate].
    destruct (bind _ _) as [results|e']; [discriminate|].
    destruct (is_Exception e') eqn:E; [discriminate|]. now intros [= _ <-].
  - intros Hmodel. unfold predict. now rewrite Hmodel.
  - intros net e Hmodel Hrun He. unfold predict. now rewrite Hmodel, Hrun, He.
Qed.

(** X11. A score beyond the ten labels loses every prediction.  When the
    network gives a score above the threshold at an index that has no
    label, the [IndexError] is caught inside [predict]: the error is
    printed and the empty list is returned, also for the labels that had a
    score above the threshold. *)
Theorem score_without_label_loses_all
    (detector : VulnerabilityDetector) (net : Network) (code : string)
    (threshold : Q) (scores : list Q) (i : nat) (score : Q) :
  model detector = Some net ->
  net code = Ok scores ->
  nth_error scores i = Some score ->
  (10 <= i)%nat ->
  exceeds score threshold = true ->
  predict detector code threshold
  = (["Error in ML prediction: list index out of range"], Ok []).
Proof.
  intros Hmodel Hnet Hscore Hi Hgt.
  assert (Hraise : forall scored results,
            In (Z.of_nat i, score) scored ->
            exists e, extract threshold scored results = Raise e).
  { induction scored as [|[idx s] scored IH]; intros results; [intros []|].
    cbn [extract]. intros [[= -> ->]|Hin].
    - rewrite Hgt. unfold label_at. rewrite Nat2Z.id.
      assert (nth_error vulnerability_labels i = None) as ->
        by (apply nth_error_None; simpl; lia).
      cbn [bind]. eauto.
    - destruct (exceeds s threshold); [|now apply IH].
      destruct (label_at idx); cbn [bind]; [now apply IH | eauto]. }
  destruct (Hraise (enumerate 0 scores) []) as [e He].
  { replace (Z.of_nat i) with (0 + Z.of_nat i) by lia.
    now apply enumerate_nth. }
  pose proof (extract_raises _ _ _ _ He) as ->.
  unfold predict. rewrite Hmodel, Hnet. cbn [bind]. now rewrite He.
Qed.

End PredictClaims.

Section PredictWitnesses.
Import ModelLoader Examples MoreExamples.

Lemma predict_keeps_labels_witness :
  predict two_label_detector "x" 0.6
  = ([], Ok [ {| category := "SQL Injection"; confidence := 0.875;
                 severity := "CRITICAL"; source := "ml_model" |};
              {| category := "Hardcoded Secrets";
                 confidence := 10066331 # 16777216;
                 severity := "MEDIUM"; source := "ml_model" |} ]).
Proof.
  destruct (predict_keeps_labels_above_threshold two_label_detector
              two_labels "x" 0.6
              [0.875; 5033165 # 8388608; 10066331 # 16777216]%Q)
    as [Hresult _].
  - reflexivity.
  - reflexivity.
  - simpl. lia.
  - rewrite Hresult. vm_compute. reflexivity.
Defined.

Lemma predict_swallows_exceptions_witness :
  predict broken_detector "x" 0.6
  = (["Error in ML prediction: bad tensor"], Ok []).
Proof.
  destruct (predict_swallows_exceptions broken_detector "x" 0.6)
    as (_ & _ & Hcaught).
  apply (Hcaught broken_network (ValueError "bad tensor")); reflexivity.
Defined.

Lemma score_without_label_witness :
  predict eleven_detector "x" 0.6
  = (["Error in ML prediction: list index out of range"], Ok []).
Proof.
  apply (score_without_label_loses_all eleven_detector eleven_scores "x" 0.6
           [0.9; 0.1; 0.1; 0.1; 0.1; 0.1; 0.1; 0.1; 0.1; 0.1; 0.7]%Q
           10 0.7%Q).
  - reflexivity.
  - reflexivity.
  - reflexivity.
  - lia.
  - reflexivity.
Defined.

End PredictWitnesses.

(** ** Severity and category *)

Section SeverityClaim.
Import Analysis AnalysisFacts.

(** X12. Severity against the table of [_get_severity].  With the detector
    of [model_loader.py], whenever the call returns, the findings are those
    of the pattern rules followed by those of the model, and
      - a pattern finding of Hardcoded Secrets is HIGH, while the table
        says MEDIUM for that category;
      - every other pattern finding has the severity of the table;
      - every finding of the model has the severity of the table, so that
        one of Hardcoded Secrets is MEDIUM. *)
Theorem severity_follows_table_but_for_secrets
    (uuid4 : nat -> string) (ML_AVAILABLE : bool)
    (detector : ModelLoader.VulnerabilityDetector)
    (code language : string) :
  (ML_AVAILABLE = true ->
   interrupted (classify (Ok detector) code) = false) ->
  ModelLoader._get_severity "Hardcoded Secrets" = "MEDIUM"
  /\ exists from_model,
       returned (detect_simple_vulnerabilities uuid4 ML_AVAILABLE
                   (Ok detector) code language)
       = Ok (vulnerabilities (pattern_detection uuid4 code) ++ from_model)%list
       /\ (forall v,
             In v (vulnerabilities (pattern_detection uuid4 code)) ->
             (category v = "Hardcoded Secrets" /\ severity v = "HIGH"
              /\ severity v <> ModelLoader._get_severity (category v))
             \/ (category v <> "Hardcoded Secrets"
                 /\ severity v = ModelLoader._get_severity (category v)))
       /\ (forall v,
             In v from_model ->
             severity v = ModelLoader._get_severity (category v)
             /\ (category v = "Hardcoded Secrets" -> severity v = "MEDIUM")).
Proof.
  intros Hsig. split; [reflexivity|].
  assert (HP : forall v,
            In v (vulnerabilities (pattern_detection uuid4 code)) ->
            (category v = "Hardcoded Secrets" /\ severity v = "HIGH"
             /\ severity v <> ModelLoader._get_severity (category v))
            \/ (category v <> "Hardcoded Secrets"
                /\ severity v = ModelLoader._get_severity (category v))).
  { intros v Hv. rewrite pattern_detection_issue in Hv.
    apply in_issue in Hv as (mk & ident & Hmk & ->).
    apply pattern_finding_origin in Hmk
      as (i & line & pattern & _ & _ & Hrule).
    destruct Hrule as [(-> & _)|[(-> & _)|(-> & _)]].
    - right. split; [discriminate | reflexivity].
    - right. split; [discriminate | reflexivity].
    - left. repeat split. discriminate. }
  destruct ML_AVAILABLE.
  - destruct (classify (Ok detector) code) as [out [preds|e]] eqn:Hcall.
    + eexists. split; [|split; [exact HP|]].
      * exact (detect_with_predictions uuid4 (Ok detector) code language out
                 preds Hcall).
      * intros v Hv.
        apply in_issue in Hv as (mk & ident & Hmk & ->).
        apply in_map_iff in Hmk as (p & <- & Hp).
        apply survivors_fresh in Hp as [Hp _].
        pose proof (predict_tabled detector code 0.6 out preds Hcall) as Ht.
        rewrite List.Forall_forall in Ht. specialize (Ht p Hp).
        cbn [category severity ml_finding]. split; [exact Ht|].
        intros Hcat. rewrite Ht, Hcat. reflexivity.
    + specialize (Hsig eq_refl). simpl in Hsig.
      exists []. rewrite app_nil_r.
      split; [|split; [exact HP | intros v []]].
      unfold detect_simple_vulnerabilities.
      rewrite Hcall. now destruct (is_Exception e).
  - exists []. rewrite app_nil_r.
    split; [reflexivity | split; [exact HP | intros v []]].
Qed.

End SeverityClaim.

Section SeverityWitness.
Import Analysis AnalysisFacts Examples MoreExamples.

Lemma severity_follows_table_witness :
  ModelLoader._get_severity "Hardcoded Secrets" = "MEDIUM"
  /\ exists from_model,
       returned (detect_simple_vulnerabilities serial true
                   (Ok two_label_detector) "token = 't'" "python")
       = Ok (vulnerabilities (pattern_detection serial "token = 't'")
             ++ from_model)%list
       /\ (forall v,
             In v (vulnerabilities (pattern_detection serial "token = 't'")) ->
             (category v = "Hardcoded Secrets" /\ severity v = "HIGH"
              /\ severity v <> ModelLoader._get_severity (category v))
             \/ (category v <> "Hardcoded Secrets"
                 /\ severity v = ModelLoader._get_severity (category v)))
       /\ (forall v,
             In v from_model ->
             severity v = ModelLoader._get_severity (category v)
             /\ (category v = "Hardcoded Secrets" -> severity v = "MEDIUM")).
Proof.
  apply (severity_follows_table_but_for_secrets serial true
           two_label_detector "token = 't'" "python").
  reflexivity.
Defined.

End SeverityWitness.

(** ** The singleton detector *)

Section SingletonClaim.
Import ModelLoader Singleton.

(** The detector is created once.  After a first call of
    [get_detector] has returned, every later call returns the same
    detector and leaves the global as it is, whatever loading would do
    then; in particular a load that failed with an [Exception] leaves a
    detector without model for good, and [predict] on it returns the empty
    list. *)
Theorem detector_is_created_once :
  (forall load detector global,
     get_detector load None = Ok (detector, global) ->
     forall load', get_detector load' global = Ok (detector, global))
  /\ (forall e code threshold,
        is_Exception e = true ->
        exists detector global,
          get_detector (Raise e) None = Ok (detector, global)
          /\ (forall load', get_detector load' global = Ok (detector, global))
          /\ predict detector code threshold = ([], Ok [])).
Proof.
  split.
  - intros load detector global. unfold get_detector.
    destruct (__init__ load) as [d|e]; cbn [bind]; [|discriminate].
    now intros [= <- <-].
  - intros e code threshold He.
    exists {| model := None |}, (Some {| model := None |}).
    unfold get_detector, __init__. rewrite He. cbn [bind].
    split; [reflexivity|]. split; [reflexivity|]. reflexivity.
Qed.

End SingletonClaim.

Section SingletonWitness.
Import ModelLoader Singleton Examples.

Lemma detector_is_created_once_witness :
  get_detector (Ok sql_network) (Some unloaded) = Ok (unloaded, Some unloaded).
Proof.
  destruct detector_is_created_once as [Honce _].
  apply (Honce (Raise (ValueError "no weights")) unloaded (Some unloaded)).
  reflexivity.
Defined.

End SingletonWitness.

(** ** More on the stream worker *)

Section WorkerMoreFacts.
Import StreamProcessor StreamFacts StreamFacts2.

Lemma disciplined_weaken (stored : bool) (t : list effect) :
  disciplined false t = true -> disciplined stored t = true.
Proof. destruct t as [|[]]; simpl; auto. discriminate. Qed.

Lemma disciplined_app (stored : bool) (t1 t2 : list effect) :
  disciplined stored t1 = true ->
  disciplined false t2 = true ->
  disciplined stored (t1 ++ t2) = true.
Proof.
  revert stored. induction t1 as [|eff t1 IH]; intros stored H1 H2.
  - now apply disciplined_weaken.
  - destruct eff; simpl in *.
    + now apply IH.
    + apply andb_true_iff in H1 as [-> H1]. simpl. now apply IH.
    + now apply IH.
Qed.

(** What an [XACK] in a disciplined list has before it. *)
Lemma disciplined_before_ack (stored : bool) (pre post : list effect)
    (stream group message_id : string) :
  disciplined stored (pre ++ XACK stream group message_id :: post) = true ->
  (pre = [] /\ stored = true)
  \/ exists pre' key seconds data, pre = (pre' ++ [SETEX key seconds data])%list.
Proof.
  revert stored. induction pre as [|eff pre IH]; intros stored H.
  - left. simpl in H. apply andb_true_iff in H as [-> _]. auto.
  - right. destruct eff; simpl in H.
    + destruct (IH true H) as [[-> _]|(pre' & k & s & d & ->)].
      * exists [], key, seconds, data. reflexivity.
      * exists (SETEX key seconds data :: pre'), k, s, d. reflexivity.
    + apply andb_true_iff in H as [_ H].
      destruct (IH false H) as [[_ ?]|(pre' & k & s & d & ->)];
        [discriminate|].
      exists (XACK stream0 group0 message_id0 :: pre'), k, s, d. reflexivity.
    + destruct (IH false H) as [[_ ?]|(pre' & k & s & d & ->)];
        [discriminate|].
      exists (SLEEP seconds :: pre'), k, s, d. reflexivity.
Qed.

Lemma handle_entry_disciplined (d : delivery) :
  disciplined false (fst (handle_entry d)) = true.
Proof.
  destruct d as [[message_id message_data] w].
  unfold handle_entry, process_code_analysis, len, redis_call.
  destruct (message_data !! "code"); simpl; [|reflexivity].
  destruct (setex_raises w); simpl; [reflexivity|].
  now destruct (xack_raises w).
Qed.

Lemma seq_disciplined {A B} (m : run A) (k : A -> run B) :
  disciplined false (fst m) = true ->
  (forall a, disciplined false (fst (k a)) = true) ->
  disciplined false (fst (seq m k)) = true.
Proof.
  intros Hm Hk. destruct m as [t [a|e]]; simpl in *; [|exact Hm].
  specialize (Hk a). destruct (k a) as [t' r]. simpl in *.
  now apply disciplined_app.
Qed.

Lemma process_message_list_disciplined (l : list delivery) :
  disciplined false (fst (process_message_list l)) = true.
Proof.
  induction l as [|d l IH]; [reflexivity|].
  rewrite process_message_list_cons.
  apply seq_disciplined; [apply handle_entry_disciplined | auto].
Qed.

Lemma process_messages_disciplined (messages : list (string * list delivery)) :
  disciplined false (fst (process_messages messages)) = true.
Proof.
  induction messages as [|[stream_name l] messages IH]; [reflexivity|].
  cbn [process_messages].
  apply seq_disciplined; [apply process_message_list_disciplined | auto].
Qed.

Lemma iteration_disciplined (r : read) :
  disciplined false (fst (iteration r)) = true.
Proof.
  unfold iteration, turn, try_block.
  assert (Hbody : disciplined false
            (fst (match r with
                  | Ok messages => process_messages messages
                  | Raise e => ([], Raise e)
                  end)) = true).
  { destruct r; [apply process_messages_disciplined | reflexivity]. }
  destruct (match r with Ok _ => _ | Raise _ => _ end) as [t [u|e]];
    simpl in *; [exact Hbody|].
  destruct e; simpl; try exact Hbody;
    (apply disciplined_app; [exact Hbody | reflexivity]).
Qed.

Lemma loop_disciplined (script : list read) :
  disciplined false (fst (loop script)) = true.
Proof.
  induction script as [|r script IH]; [reflexivity|]. cbn [loop].
  pose proof (iteration_disciplined r) as Hr.
  destruct (iteration r) as [t [[]|e]]; simpl in *; try exact Hr.
  destruct (loop script) as [t' s]. simpl in *. now apply disciplined_app.
Qed.

(** What a turn of the loop lets through: from the [try] block, what is
    neither an [Exception] nor a [KeyboardInterrupt]; from a handler, what
    interrupts it. *)
Lemma turn_raises (r : read) (interrupt : option exn) (t : list effect)
    (e : exn) :
  turn r interrupt = (t, Raise e) ->
  (snd (try_block r) = Raise e
   /\ is_Exception e = false /\ e <> KeyboardInterrupt)
  \/ (exists caught,
        snd (try_block r) = Raise caught
        /\ (is_Exception caught = true \/ caught = KeyboardInterrupt)
        /\ interrupt = Some e).
Proof.
  unfold turn. destruct (try_block r) as [t' [u|e']]; [discriminate|].
  destruct interrupt as [raised|].
  - destruct e'; cbn [is_Exception snd]; intros [= _ <-];
      first [ right; eexists; split; [reflexivity|];
              split; [auto | reflexivity]
            | left; split; [reflexivity|];
              split; [reflexivity | discriminate] ].
  - destruct e'; cbn [is_Exception snd]; try discriminate;
      intros [= _ <-]; left; split; [reflexivity|];
      split; [reflexivity | discriminate].
Qed.

(** When nothing interrupts a handler, the loop is [loop]. *)
Lemma interruptible_loop_uninterrupted (script : list read) :
  interruptible_loop (map (fun r => (r, None)) script) = loop script.
Proof.
  induction script as [|r script IH]; [reflexivity|].
  cbn [map interruptible_loop loop]. rewrite IH. reflexivity.
Qed.

(** A batch in which every entry goes through. *)
Lemma process_message_list_all (l : list delivery) :
  Forall goes_through l ->
  process_message_list l = (flat_map entry_effects l, Ok tt).
Proof.
  induction 1 as [|d l Hd _ IH]; [reflexivity|].
  rewrite process_message_list_cons.
  destruct d as [[message_id message_data] w].
  destruct Hd as ([code Hcode] & Hset & Hack).
  rewrite (handle_entry_ok message_id message_data w code Hcode Hset Hack).
  rewrite IH. reflexivity.
Qed.

End WorkerMoreFacts.

Section WorkerMoreClaims.
Import StreamProcessor StreamFacts StreamFacts2.

(** X14. A batch in which nothing raises is processed whole and in order:
    for each entry in turn the result is stored, then the entry is
    acknowledged; the turn ends without sleeping and the loop goes on. *)
Theorem clean_batch_is_processed_in_order
    (stream_name : string) (batch : list delivery) :
  Forall goes_through batch ->
  process_message_list batch = (flat_map entry_effects batch, Ok tt)
  /\ iteration (Ok [(stream_name, batch)])
     = (flat_map entry_effects batch, Ok Continue).
Proof.
  intros Hall. pose proof (process_message_list_all batch Hall) as Hlist.
  split; [exact Hlist|]. unfold iteration, turn, try_block. cbn [process_messages].
  rewrite Hlist. simpl. now rewrite app_nil_r.
Qed.

(** X15. No acknowledgement without a stored result.  In every run of
    [main], whatever the reads bring and whatever raises, each [XACK] the
    worker sends comes right after a [SETEX]: an entry is never
    acknowledged before its result has been written. *)
Theorem ack_only_after_store
    (xgroup_create : option exn) (script : list read)
    (pre post : list effect) (stream group message_id : string) :
  fst (main xgroup_create script)
  = (pre ++ XACK stream group message_id :: post)%list ->
  exists pre' key seconds data,
    pre = (pre' ++ [SETEX key seconds data])%list.
Proof.
  intros Hrun.
  assert (Hd : disciplined false (fst (main xgroup_create script)) = true).
  { unfold main. destruct xgroup_create as [[]|];
      try reflexivity; try apply loop_disciplined.
    destruct (contains "BUSYGROUP" msg);
      [apply loop_disciplined | reflexivity]. }
  rewrite Hrun in Hd.
  destruct (disciplined_before_ack _ _ _ _ _ _ Hd) as [[_ ?]|Hpre];
    [discriminate | exact Hpre].
Qed.

(** X16. What ends the worker by an exception.  A run of the loop ends by
    an exception only in a turn where
      - the [try] block raised it, and it is neither an [Exception] nor a
        [KeyboardInterrupt] (a [SystemExit], say); or
      - the [try] block raised an [Exception] or a [KeyboardInterrupt] and
        it was raised inside the handler ([time.sleep(1)] interrupted,
        say): no clause catches what a handler raises, a
        [KeyboardInterrupt] included.
    So no [Exception] raised by a read, by the processing of an entry or by
    Redis ends the worker, and when no handler is interrupted the worker
    ends by an exception only on what is neither an [Exception] nor a
    [KeyboardInterrupt]. *)
Theorem worker_ends_only_on_signal_or_interrupted_handler
    (script : list (read * option exn)) (t : list effect) (e : exn) :
  interruptible_loop script = (t, Crashed e) ->
  (exists before r interrupt later,
     script = (before ++ (r, interrupt) :: later)%list
     /\ snd (interruptible_loop before) = Running
     /\ ((snd (try_block r) = Raise e
          /\ is_Exception e = false /\ e <> KeyboardInterrupt)
         \/ (exists caught,
               snd (try_block r) = Raise caught
               /\ (is_Exception caught = true \/ caught = KeyboardInterrupt)
               /\ interrupt = Some e)))
  /\ (Forall (fun planned => snd planned = None) script ->
      is_Exception e = false /\ e <> KeyboardInterrupt).
Proof.
  revert t. induction script as [|[r interrupt] script IH]; intros t;
    cbn [interruptible_loop]; [discriminate|].
  destruct (turn r interrupt) as [t1 [[]|e1]] eqn:Hr.
  - destruct (interruptible_loop script) as [t2 s] eqn:Hrest.
    intros [= _ ->]. destruct (IH t2 eq_refl) as [Hturn Hquiet]. split.
    + destruct Hturn as (before & r' & interrupt' & later & -> & Hrun & Hwhy).
      exists ((r, interrupt) :: before), r', interrupt', later.
      split; [reflexivity|]. split; [|exact Hwhy].
      cbn [interruptible_loop]. rewrite Hr.
      destruct (interruptible_loop before) as [tb sb]. exact Hrun.
    + intros Hall. apply Hquiet. now inversion Hall.
  - discriminate.
  - intros [= _ <-]. pose proof (turn_raises r interrupt t1 e1 Hr) as Hwhy.
    split.
    + exists [], r, interrupt, script. split; [reflexivity|].
      split; [reflexivity | exact Hwhy].
    + intros Hall. inversion Hall as [|? ? Hnone _]; subst.
      simpl in Hnone. subst interrupt.
      destruct Hwhy as [(_ & ? & ?)|(caught & _ & _ & ?)];
        [split; assumption | discriminate].
Qed.

(** X17. [KeyboardInterrupt] stops the worker.  When a read raises
    [KeyboardInterrupt] while the loop is turning, the worker stops there:
    its effects are those of the reads before, and no later read is
    processed. *)
Theorem keyboard_interrupt_stops_the_worker
    (before later : list read) :
  snd (loop before) = Running ->
  loop (before ++ Raise KeyboardInterrupt :: later)
  = (fst (loop before), Stopped).
Proof.
  induction before as [|r before IH]; cbn [loop app].
  - reflexivity.
  - destruct (iteration r) as [t [[]|e]]; simpl; try discriminate.
    destruct (loop before) as [t1 s1]. simpl. intros ->.
    rewrite (IH eq_refl). reflexivity.
Qed.

End WorkerMoreClaims.

Section WorkerMoreWitnesses.
Import StreamProcessor StreamFacts StreamFacts2 Examples.

Lemma clean_batch_witness :
  iteration (Ok [("code_analysis_stream", [good_delivery; good_delivery])])
  = (flat_map entry_effects [good_delivery; good_delivery], Ok Continue).
Proof.
  apply (clean_batch_is_processed_in_order "code_analysis_stream"
           [good_delivery; good_delivery]).
  repeat constructor; eexists; reflexivity.
Defined.

Lemma ack_only_after_store_witness :
  exists pre' key seconds data,
    [SETEX "result:a1" 3600 (stored_result vulnerable_entry calm)]
    = (pre' ++ [SETEX key seconds data])%list.
Proof.
  apply (ack_only_after_store None
           [Ok [("code_analysis_stream", [good_delivery])]]
           [SETEX "result:a1" 3600 (stored_result vulnerable_entry calm)]
           [] "code_analysis_stream" "analysis_workers" "2-0").
  reflexivity.
Defined.

Lemma worker_ends_on_interrupted_handler_witness :
  interruptible_loop
    [(Ok [("code_analysis_stream", [good_delivery])], None);
     (Raise (ConnectionError "redis is down"), Some KeyboardInterrupt)]
  = (entry_effects good_delivery, Crashed KeyboardInterrupt)
  /\ (exists before r interrupt later,
        [(Ok [("code_analysis_stream", [good_delivery])], None);
         (Raise (ConnectionError "redis is down"), Some KeyboardInterrupt)]
        = (before ++ (r, interrupt) :: later)%list
        /\ snd (interruptible_loop before) = Running
        /\ ((snd (try_block r) = Raise KeyboardInterrupt
             /\ is_Exception KeyboardInterrupt = false
             /\ KeyboardInterrupt <> KeyboardInterrupt)
            \/ (exists caught,
                  snd (try_block r) = Raise caught
                  /\ (is_Exception caught = true
                      \/ caught = KeyboardInterrupt)
                  /\ interrupt = Some KeyboardInterrupt)))
  /\ (Forall (fun planned : read * option exn => snd planned = None)
        [(Ok [("code_analysis_stream", [good_delivery])], None);
         (Raise (ConnectionError "redis is down"), Some KeyboardInterrupt)] ->
      is_Exception KeyboardInterrupt = false
      /\ KeyboardInterrupt <> KeyboardInterrupt).
Proof.
  split; [reflexivity|].
  apply (worker_ends_only_on_signal_or_interrupted_handler
           [(Ok [("code_analysis_stream", [good_delivery])], None);
            (Raise (ConnectionError "redis is down"), Some KeyboardInterrupt)]
           (entry_effects good_delivery) KeyboardInterrupt).
  reflexivity.
Defined.

Lemma keyboard_interrupt_witness :
  loop ([Ok [("code_analysis_stream", [good_delivery])]]
        ++ Raise KeyboardInterrupt
           :: [Ok [("code_analysis_stream", [good_delivery])]])
  = (fst (loop [Ok [("code_analysis_stream", [good_delivery])]]), Stopped).
Proof.
  apply (keyboard_interrupt_stops_the_worker
           [Ok [("code_analysis_stream", [good_delivery])]]
           [Ok [("code_analysis_stream", [good_delivery])]]).
  reflexivity.
Defined.

End WorkerMoreWitnesses.

(** ** More on the connection manager *)

Section RegistryFacts.
Import Websocket WebsocketFacts WebsocketFacts2.

Lemma registered_connect (self : ConnectionManager) (websocket : WebSocket)
    (client_id c : string) (h : WebSocket) :
  registered (connect self websocket client_id) c h
  <-> registered self c h \/ (c = client_id /\ h = websocket).
Proof.
  unfold registered, connect. cbn [active_connections].
  destruct (decide (client_id = c)) as [->|Hne].
  - rewrite lookup_insert_eq.
    destruct (active_connections self !! c) as [conns|] eqn:E.
    + split.
      * intros (s & [= <-] & Hin). apply elem_of_union in Hin as [Hin|Hin].
        -- left. eauto.
        -- right. split; [reflexivity | set_solver].
      * intros [(s & [= <-] & Hin)|[_ ->]]; eexists; split; eauto;
          set_solver.
    + split.
      * intros (s & [= <-] & Hin). right. split; [reflexivity | set_solver].
      * intros [(s & Hs & _)|[_ ->]]; [discriminate|].
        eexists. split; [reflexivity | set_solver].
  - rewrite lookup_insert_ne by exact Hne. split; [auto|].
    intros [H|[-> _]]; [exact H | contradiction].
Qed.

Lemma registered_disconnect (self : ConnectionManager) (websocket : WebSocket)
    (client_id c : string) (h : WebSocket) :
  registered (disconnect self websocket client_id) c h
  <-> registered self c h /\ ~ (c = client_id /\ h = websocket).
Proof.
  unfold registered, disconnect.
  destruct (active_connections self !! client_id) as [conns|] eqn:E.
  - destruct (decide (conns ∖ {[websocket]} = ∅)) as [Hempty|Hleft];
      cbn [active_connections];
      (destruct (decide (client_id = c)) as [<-|Hne]).
    + rewrite lookup_delete_eq, E. split.
      * intros (s & Hs & _). discriminate.
      * intros [(s & [= <-] & Hin) Hn]. exfalso.
        assert (h ∈ conns ∖ {[websocket]}) as Hh.
        { apply elem_of_difference. split; [exact Hin|].
          intros Hw. apply elem_of_singleton in Hw. auto. }
        rewrite Hempty in Hh. set_solver.
    + rewrite lookup_delete_ne by exact Hne. split.
      * intros H. split; [exact H|]. intros [-> _]. contradiction.
      * intros [H _]. exact H.
    + rewrite lookup_insert_eq, E. split.
      * intros (s & [= <-] & Hin). apply elem_of_difference in Hin as [Hin Hw].
        split; [eauto|]. intros [_ ->]. set_solver.
      * intros [(s & [= <-] & Hin) Hn]. eexists. split; [reflexivity|].
        apply elem_of_difference. split; [exact Hin|].
        intros Hw. apply elem_of_singleton in Hw. auto.
    + rewrite lookup_insert_ne by exact Hne. split.
      * intros H. split; [exact H|]. intros [-> _]. contradiction.
      * intros [H _]. exact H.
  - split.
    + intros H. split; [exact H|]. intros [-> _].
      destruct H as (s & Hs & _). congruence.
    + intros [H _]. exact H.
Qed.

Lemma connect_no_empty_sets (self : ConnectionManager) (websocket : WebSocket)
    (client_id : string) :
  no_empty_sets self -> no_empty_sets (connect self websocket client_id).
Proof.
  intros Hinv cid conns. unfold connect. cbn [active_connections].
  destruct (decide (client_id = cid)) as [->|Hne].
  - rewrite lookup_insert_eq. intros [= <-]. set_solver.
  - rewrite lookup_insert_ne by exact Hne. apply Hinv.
Qed.

End RegistryFacts.

Section RegistryClaims.
Import Websocket WebsocketFacts WebsocketFacts2.

(** X18. [connect] adds one pair and nothing else.  After [connect], a
    handle is registered for a client exactly when it was before, or is the
    handle just connected under its client; the registry stays free of
    empty sets, and connecting the same handle twice changes nothing
    more. *)
Theorem connect_registers_exactly_one
    (self : ConnectionManager) (websocket : WebSocket) (client_id : string) :
  (forall c h,
     registered (connect self websocket client_id) c h
     <-> registered self c h \/ (c = client_id /\ h = websocket))
  /\ (no_empty_sets self ->
      no_empty_sets (connect self websocket client_id))
  /\ connect (connect self websocket client_id) websocket client_id
     = connect self websocket client_id.
Proof.
  split; [intros c h; apply registered_connect|].
  split; [apply connect_no_empty_sets|].
  unfold connect. cbn [active_connections]. rewrite lookup_insert_eq.
  f_equal. rewrite insert_insert_eq. f_equal.
  destruct (active_connections self !! client_id); set_solver.
Qed.

(** X19. [disconnect] removes one pair and nothing else.  After
    [disconnect], a handle is registered for a client exactly when it was
    before and is not the handle disconnected under its client; a client
    left over with the empty set (as [broadcast_to_client] can leave it) is
    removed from the registry by the [disconnect] of any handle. *)
Theorem disconnect_removes_exactly_one
    (self : ConnectionManager) (websocket : WebSocket) (client_id : string) :
  (forall c h,
     registered (disconnect self websocket client_id) c h
     <-> registered self c h /\ ~ (c = client_id /\ h = websocket))
  /\ (active_connections self !! client_id = Some ∅ ->
      active_connections (disconnect self websocket client_id) !! client_id
      = None).
Proof.
  split; [intros c h; apply registered_disconnect|].
  intros Hempty. unfold disconnect. rewrite Hempty.
  destruct (decide ((∅ : gset WebSocket) ∖ {[websocket]} = ∅)) as [_|Hn].
  - cbn [active_connections]. apply lookup_delete_eq.
  - exfalso. apply Hn. set_solver.
Qed.

(** X20. [connect] then [disconnect] gives the registry back.  When the
    handle was not registered for the client and the client was not mapped
    to the empty set, disconnecting the handle right after connecting it
    leaves the registry exactly as it was. *)
Theorem connect_then_disconnect
    (self : ConnectionManager) (websocket : WebSocket) (client_id : string) :
  ~ registered self client_id websocket ->
  active_connections self !! client_id <> Some ∅ ->
  disconnect (connect self websocket client_id) websocket client_id = self.
Proof.
  intros Hnew Hne. destruct self as [m]. unfold registered in Hnew.
  cbn [active_connections] in *. unfold disconnect, connect.
  cbn [active_connections]. rewrite lookup_insert_eq.
  destruct (m !! client_id) as [conns|] eqn:E.
  - assert (websocket ∉ conns) as Hw by (intros Hin; apply Hnew; eauto).
    assert ((conns ∪ {[websocket]}) ∖ {[websocket]} = conns) as ->
      by set_solver.
    destruct (decide (conns = ∅)) as [->|_]; [congruence|].
    cbn [active_connections]. f_equal.
    rewrite insert_insert_eq. now apply insert_id.
  - assert (((∅ : gset WebSocket) ∪ {[websocket]}) ∖ {[websocket]} = ∅) as ->
      by set_solver.
    destruct (decide ((∅ : gset WebSocket) = ∅)) as [_|Hn]; [|congruence].
    cbn [active_connections]. f_equal. now apply delete_insert_id.
Qed.

End RegistryClaims.

Section RegistryWitnesses.
Import Websocket WebsocketFacts WebsocketFacts2 Examples.

Lemma connect_no_empty_sets_witness :
  no_empty_sets (connect {| active_connections := ∅ |} 3%nat "client-2").
Proof.
  destruct (connect_registers_exactly_one {| active_connections := ∅ |}
              3%nat "client-2") as (_ & Hinv & _).
  apply Hinv. intros cid conns H. simpl in H.
  rewrite lookup_empty in H. discriminate.
Defined.

Lemma disconnect_cleans_empty_set_witness :
  active_connections
    (disconnect {| active_connections := {[ "client-1" := ∅ ]} |}
       9%nat "client-1") !! "client-1" = None.
Proof.
  destruct (disconnect_removes_exactly_one
              {| active_connections := {[ "client-1" := ∅ ]} |}
              9%nat "client-1") as [_ Hclean].
  apply Hclean. reflexivity.
Defined.

Lemma connect_then_disconnect_witness :
  disconnect (connect two_tabs 3%nat "client-1") 3%nat "client-1" = two_tabs.
Proof.
  apply (connect_then_disconnect two_tabs 3%nat "client-1").
  - intros (conns & Hc & Hin). unfold two_tabs in Hc.
    cbn [active_connections] in Hc. rewrite lookup_singleton_eq in Hc.
    injection Hc as <-. set_solver.
  - unfold two_tabs. cbn [active_connections]. rewrite lookup_singleton_eq.
    intros [= H].
Defined.

End RegistryWitnesses.

(** ** Broadcasts and counts *)

Section FanoutFacts.
Import Websocket WebsocketFacts WebsocketFacts2 WebsocketStats.

Variable send_json : WebSocket -> value -> option exn.

Lemma elem_of_prune (message : value) (conns : gset WebSocket)
    (h : WebSocket) :
  h ∈ prune send_json message conns
  <-> h ∈ conns /\ send_json h message = None.
Proof.
  unfold prune.
  rewrite elem_of_difference, elem_of_list_to_set, list_elem_of_filter,
    elem_of_elements.
  split.
  - intros [Hin Hn]. split; [exact Hin|].
    destruct (send_json h message) eqn:E; [|reflexivity].
    exfalso. apply Hn. split; [eauto | exact Hin].
  - intros [Hin Hok]. split; [exact Hin|]. intros [Hs _].
    rewrite Hok in Hs. now apply is_Some_None in Hs.
Qed.

Lemma in_delivered (message : value) (conns : gset WebSocket)
    (h : WebSocket) (m : value) :
  In (h, m)
     (map (fun c => (c, message))
        (filter (fun c => send_json c message = None) (elements conns)))
  <-> m = message /\ h ∈ conns /\ send_json h message = None.
Proof.
  rewrite in_map_iff. split.
  - intros (c & [= -> ->] & Hc). apply list_elem_of_In in Hc.
    apply list_elem_of_filter in Hc as [Hok Hin].
    apply elem_of_elements in Hin. auto.
  - intros (-> & Hin & Hok). exists h. split; [reflexivity|].
    apply list_elem_of_In, list_elem_of_filter.
    split; [exact Hok | now apply elem_of_elements].
Qed.

Lemma delivered_once (message : value) (conns : gset WebSocket) :
  List.NoDup
    (map (fun c => (c, message))
       (filter (fun c => send_json c message = None) (elements conns))).
Proof.
  apply NoDup_ListNoDup.
  assert (Inj (=) (=) (fun c : WebSocket => (c, message))) as Hinj
    by (intros x y [= ->]; reflexivity).
  apply (NoDup_fmap_2 (fun c : WebSocket => (c, message))).
  apply NoDup_filter, NoDup_elements.
Qed.

(** [broadcast_to_client] with the set of the client pruned. *)
Lemma broadcast_to_client_prune (self : ConnectionManager) (message : value)
    (client_id : string) (conns : gset WebSocket) :
  active_connections self !! client_id = Some conns ->
  broadcast_to_client send_json self message client_id
  = ({| active_connections :=
          <[client_id := prune send_json message conns]>
            (active_connections self) |},
     map (fun c => (c, message))
       (filter (fun c => send_json c message = None) (elements conns))).
Proof. intros H. now rewrite (broadcast_to_client_spec send_json _ _ _ _ H). Qed.

Lemma total_connections_insert (m : gmap string (gset WebSocket))
    (client_id : string) (conns : gset WebSocket) :
  (total_connections {| active_connections := <[client_id := conns]> m |}
   + size (default ∅ (m !! client_id))
   = total_connections {| active_connections := m |} + size conns)%nat.
Proof.
  unfold total_connections. cbn [active_connections].
  destruct (m !! client_id) as [old|] eqn:E; cbn [default].
  - rewrite <- (insert_delete_eq m client_id conns).
    rewrite (map_fold_insert_L _ _ client_id conns (delete client_id m));
      [|intros; lia | apply lookup_delete_eq].
    rewrite (map_fold_delete_L _ _ client_id old m);
      [|intros; lia | exact E].
    unfold id. lia.
  - rewrite (map_fold_insert_L _ _ client_id conns m);
      [|intros; lia | exact E].
    rewrite size_empty. lia.
Qed.

End FanoutFacts.

Section FanoutSteps.
Import Websocket WebsocketFacts WebsocketFacts2 WebsocketStats.

Variable send_json : WebSocket -> value -> option exn.
Variable message : value.

(** One [broadcast_to_client], seen from any client. *)
Lemma broadcast_lookup (cur : ConnectionManager) (k c : string) :
  active_connections (fst (broadcast_to_client send_json cur message k)) !! c
  = if decide (c = k)
    then prune send_json message <$> (active_connections cur !! k)
    else active_connections cur !! c.
Proof.
  destruct (active_connections cur !! k) as [conns|] eqn:E.
  - rewrite (broadcast_to_client_prune send_json cur message k conns E).
    cbn [fst active_connections]. destruct (decide (c = k)) as [->|Hne].
    + now rewrite lookup_insert_eq.
    + now rewrite lookup_insert_ne by congruence.
  - unfold broadcast_to_client. rewrite E. cbn [fst].
    destruct (decide (c = k)) as [->|Hne]; [now rewrite E | reflexivity].
Qed.

Lemma broadcast_delivered (cur : ConnectionManager) (k : string)
    (x : WebSocket * value) :
  In x (snd (broadcast_to_client send_json cur message k))
  <-> exists conns,
        active_connections cur !! k = Some conns
        /\ In x (map (fun c => (c, message))
                   (filter (fun c => send_json c message = None)
                      (elements conns))).
Proof.
  destruct (active_connections cur !! k) as [conns|] eqn:E.
  - rewrite (broadcast_to_client_prune send_json cur message k conns E).
    cbn [snd]. split; [eauto|]. now intros (conns' & [= <-] & H).
  - unfold broadcast_to_client. rewrite E. cbn [snd]. split; [intros []|].
    intros (conns & Hc & _). discriminate.
Qed.

(** The loop of [broadcast_to_all] over a list of distinct clients. *)
Lemma broadcast_fold (ks : list string) :
  NoDup ks ->
  forall (cur : ConnectionManager) (del : list (WebSocket * value)),
    let res :=
      fold_left (fun acc client_id =>
          let '(self, delivered) := acc in
          let '(self', delivered') :=
            broadcast_to_client send_json self message client_id in
          (self', (delivered ++ delivered')%list))
        ks (cur, del) in
    (forall c,
       active_connections (fst res) !! c
       = if decide (c ∈ ks)
         then prune send_json message <$> (active_connections cur !! c)
         else active_connections cur !! c)
    /\ (forall x,
          In x (snd res)
          <-> In x del
              \/ exists c conns,
                   c ∈ ks
                   /\ active_connections cur !! c = Some conns
                   /\ In x (map (fun h => (h, message))
                              (filter (fun h => send_json h message = None)
                                 (elements conns)))).
Proof.
  induction 1 as [|k ks Hk Hks IH]; intros cur del; cbn [fold_left].
  - cbn [fst snd]. split.
    + intros c. destruct (decide (c ∈ [])) as [Hin|_]; [|reflexivity].
      now apply elem_of_nil in Hin.
    + intros x. split; [auto|]. intros [H|(c & conns & Hin & _)]; [exact H|].
      now apply elem_of_nil in Hin.
  - pose proof (broadcast_lookup cur k) as Hlook.
    pose proof (broadcast_delivered cur k) as Hdel.
    destruct (broadcast_to_client send_json cur message k) as [cur1 d1].
    cbn [fst snd] in Hlook, Hdel.
    destruct (IH cur1 (del ++ d1)%list) as [IH1 IH2]. split.
    + intros c. rewrite IH1, !Hlook.
      destruct (decide (c = k)) as [->|Hne].
      * destruct (decide (k ∈ ks)); [contradiction|].
        destruct (decide (k ∈ k :: ks)) as [_|Hn]; [reflexivity|].
        exfalso. apply Hn. left.
      * destruct (decide (c ∈ ks)) as [Hin|Hnin];
          destruct (decide (c ∈ k :: ks)) as [Hin'|Hnin']; try reflexivity.
        -- exfalso. apply Hnin'. now right.
        -- exfalso. apply elem_of_cons in Hin' as [?|?]; contradiction.
    + intros x. rewrite IH2, in_app_iff, Hdel. split.
      * intros [[H|(conns & Hc & Hx)]|(c & conns & Hin & Hc & Hx)].
        -- now left.
        -- right. exists k, conns. split; [left | auto].
        -- right. exists c, conns. split; [now right|].
           split; [|exact Hx]. rewrite Hlook in Hc.
           destruct (decide (c = k)) as [->|_]; [contradiction | exact Hc].
      * intros [H|(c & conns & Hin & Hc & Hx)]; [now left; left|].
        apply elem_of_cons in Hin as [->|Hin].
        -- left. right. eauto.
        -- right. exists c, conns. split; [exact Hin|]. split; [|exact Hx].
           rewrite Hlook. destruct (decide (c = k)) as [->|_];
             [contradiction | exact Hc].
Qed.

End FanoutSteps.

Section FanoutClaims.
Import Websocket WebsocketFacts WebsocketFacts2 WebsocketStats.

(** X21. [broadcast_to_client] for any number of handles.  After the
    broadcast, a handle is registered for a client exactly when it was
    before and is not a handle of the addressed client whose send raised;
    the message went out exactly once on each handle of the addressed
    client whose send went through, and on no other; no client is added to
    or removed from the registry. *)
Theorem broadcast_reaches_live_and_prunes_dead
    (send_json : WebSocket -> value -> option exn)
    (self : ConnectionManager) (message : value) (client_id : string) :
  let after := fst (broadcast_to_client send_json self message client_id) in
  let delivered :=
    snd (broadcast_to_client send_json self message client_id) in
  (forall c h,
     registered after c h
     <-> registered self c h
         /\ ~ (c = client_id /\ is_Some (send_json h message)))
  /\ (forall h m,
        In (h, m) delivered
        <-> m = message /\ registered self client_id h
            /\ send_json h message = None)
  /\ List.NoDup delivered
  /\ dom (active_connections after) = dom (active_connections self).
Proof.
  cbv zeta. split; [|split; [|split]].
  - intros c h. unfold registered. rewrite broadcast_lookup.
    destruct (decide (c = client_id)) as [->|Hne].
    + destruct (active_connections self !! client_id) as [conns|];
        cbn [fmap option_fmap option_map].
      * split.
        -- intros (s & [= <-] & Hin). apply elem_of_prune in Hin as [Hin Hok].
           split; [eauto|]. intros [_ Hs]. rewrite Hok in Hs.
           now apply is_Some_None in Hs.
        -- intros [(s & [= <-] & Hin) Hn]. eexists. split; [reflexivity|].
           apply elem_of_prune. split; [exact Hin|].
           destruct (send_json h message) eqn:E; [|reflexivity].
           exfalso. apply Hn. eauto.
      * split; [intros (s & Hs & _); discriminate|].
        intros [(s & Hs & _) _]. discriminate.
    + split; [|now intros [H _]]. intros H. split; [exact H|].
      intros [-> _]. contradiction.
  - intros h m. rewrite broadcast_delivered. unfold registered. split.
    + intros (conns & Hc & Hx). apply in_delivered in Hx as (-> & Hin & Hok).
      eauto.
    + intros (-> & (conns & Hc & Hin) & Hok). exists conns.
      split; [exact Hc|]. now apply in_delivered.
  - destruct (active_connections self !! client_id) as [conns|] eqn:E.
    + rewrite (broadcast_to_client_prune send_json self message client_id
                 conns E).
      apply delivered_once.
    + unfold broadcast_to_client. rewrite E. constructor.
  - apply set_eq. intros c. rewrite !elem_of_dom, broadcast_lookup.
    destruct (decide (c = client_id)) as [->|_]; [|reflexivity].
    now rewrite fmap_is_Some.
Qed.

(** X22. [broadcast_to_all].  After the broadcast to every client, a
    handle is registered for a client exactly when it was before and its
    send went through; the message went out on exactly the registered
    handles whose send went through; no client is added to or removed from
    the registry. *)
Theorem broadcast_to_all_reaches_live_and_prunes_dead
    (send_json : WebSocket -> value -> option exn)
    (self : ConnectionManager) (message : value) :
  let after := fst (broadcast_to_all send_json self message) in
  let delivered := snd (broadcast_to_all send_json self message) in
  (forall c h,
     registered after c h
     <-> registered self c h /\ send_json h message = None)
  /\ (forall h m,
        In (h, m) delivered
        <-> m = message /\ (exists c, registered self c h)
            /\ send_json h message = None)
  /\ dom (active_connections after) = dom (active_connections self).
Proof.
  cbv zeta. unfold broadcast_to_all.
  destruct (broadcast_fold send_json message
              (elements (dom (active_connections self)))
              (NoDup_elements _) self []) as [Hlook Hdel].
  cbv zeta in Hlook, Hdel.
  assert (Hall : forall c,
            active_connections
              (fst (fold_left
                      (fun acc client_id =>
                         let '(self0, delivered) := acc in
                         let '(self', delivered') :=
                           broadcast_to_client send_json self0 message
                             client_id in
                         (self', (delivered ++ delivered')%list))
                      (elements (dom (active_connections self))) (self, [])))
              !! c
            = prune send_json message <$> (active_connections self !! c)).
  { intros c. rewrite Hlook.
    destruct (decide (c ∈ elements (dom (active_connections self))))
      as [_|Hn]; [reflexivity|].
    rewrite elem_of_elements, elem_of_dom in Hn.
    destruct (active_connections self !! c); [|reflexivity].
    exfalso. apply Hn. eauto. }
  split; [|split].
  - intros c h. unfold registered. rewrite Hall.
    destruct (active_connections self !! c) as [conns|];
      cbn [fmap option_fmap option_map].
    + split.
      * intros (s & [= <-] & Hin). apply elem_of_prune in Hin as [Hin Hok].
        eauto.
      * intros [(s & [= <-] & Hin) Hok]. eexists. split; [reflexivity|].
        now apply elem_of_prune.
    + split; [intros (s & Hs & _); discriminate|].
      intros [(s & Hs & _) _]. discriminate.
  - intros h m. rewrite Hdel. unfold registered. split.
    + intros [[]|(c & conns & _ & Hc & Hx)].
      apply in_delivered in Hx as (-> & Hin & Hok). eauto 6.
    + intros (-> & (c & conns & Hc & Hin) & Hok). right. exists c, conns.
      split; [|split; [exact Hc | now apply in_delivered]].
      apply elem_of_elements, elem_of_dom. eauto.
  - apply set_eq. intros c. rewrite !elem_of_dom, Hall.
    now rewrite fmap_is_Some.
Qed.

(** X23. The count of connections.  [total_connections] grows by one when
    a handle that was not registered for the client is connected, and
    shrinks by one when a registered handle is disconnected. *)
Theorem connection_count_follows_connect_and_disconnect
    (self : ConnectionManager) (websocket : WebSocket) (client_id : string) :
  (~ registered self client_id websocket ->
   total_connections (connect self websocket client_id)
   = S (total_connections self))
  /\ (registered self client_id websocket ->
      total_connections self
      = S (total_connections (disconnect self websocket client_id))).
Proof.
  destruct self as [m]. unfold registered. cbn [active_connections]. split.
  - intros Hnew. unfold connect. cbn [active_connections].
    pose proof (total_connections_insert m client_id
                  (match m !! client_id with
                   | Some conns => conns
                   | None => ∅
                   end ∪ {[websocket]})) as Hsum.
    destruct (m !! client_id) as [conns|] eqn:E; cbn [default] in Hsum.
    + assert (websocket ∉ conns) as Hw by (intros Hin; apply Hnew; eauto).
      rewrite size_union, size_singleton in Hsum by set_solver.
      unfold id in Hsum. lia.
    + rewrite size_union, size_singleton, size_empty in Hsum by set_solver.
      lia.
  - intros (conns & E & Hin). unfold disconnect. cbn [active_connections].
    rewrite E.
    assert (size conns = S (size (conns ∖ {[websocket]}))) as Hsize.
    { rewrite size_difference by set_solver. rewrite size_singleton.
      assert (size conns <> 0%nat); [|lia].
      intros H0. apply size_empty_inv in H0. set_solver. }
    destruct (decide (conns ∖ {[websocket]} = ∅)) as [Hempty|Hleft].
    + unfold total_connections. cbn [active_connections].
      rewrite (map_fold_delete_L _ _ client_id conns m);
        [|intros; lia | exact E].
      rewrite Hsize, Hempty, size_empty. lia.
    + pose proof (total_connections_insert m client_id
                    (conns ∖ {[websocket]})) as Hsum.
      rewrite E in Hsum. cbn [default] in Hsum. unfold id in Hsum. lia.
Qed.

End FanoutClaims.

Section FanoutWitnesses.
Import Websocket WebsocketFacts WebsocketFacts2 WebsocketStats Examples.

Lemma connection_count_witness :
  total_connections (connect two_tabs 3%nat "client-1")
  = S (total_connections two_tabs).
Proof.
  destruct (connection_count_follows_connect_and_disconnect two_tabs 3%nat
              "client-1") as [Hgrow _].
  apply Hgrow. intros (conns & Hc & Hin). unfold two_tabs in Hc.
  cbn [active_connections] in Hc. rewrite lookup_singleton_eq in Hc.
  injection Hc as <-. set_solver.
Defined.

End FanoutWitnesses.

(** ** More on the push session *)

Section SessionLoopFacts.
Import Websocket WebsocketFacts WebsocketFacts2.

Variable link : nat -> option exn.

(** The receive loop over two stretches of inbound messages. *)
Lemma receive_loop_app (a b : list (result value)) (s : session) :
  receive_loop link (a ++ b) s
  = match receive_loop link a s with
    | (s', Ok _) => receive_loop link b s'
    | (s', Raise e) => (s', Raise e)
    end.
Proof.
  revert s. induction a as [|r a IH]; intros s; [reflexivity|].
  cbn [receive_loop app]. unfold andthen at 1 3. unfold lift at 1 2.
  destruct r as [message|e]; [|reflexivity].
  unfold andthen at 1 2.
  destruct (dispatch link message s) as [s1 [[]|e]]; [apply IH | reflexivity].
Qed.

End SessionLoopFacts.

Section SessionSteps.
Import Websocket WebsocketFacts SessionFacts.

Variable link : nat -> option exn.

Lemma sent_count_app (a b : list event) :
  sent_count (a ++ b) = (sent_count a + sent_count b)%nat.
Proof.
  induction a as [|[m|q] a IH]; simpl; [reflexivity | now rewrite IH | exact IH].
Qed.

Lemma keeps_pure {A} (a : A) : keeps_all_sent (pure a).
Proof. intros s s' a' [= <- _] Hs. exact Hs. Qed.

Lemma keeps_lift {A} (r : result A) : keeps_all_sent (lift r).
Proof. intros s s' a' [= <- _] Hs. exact Hs. Qed.

Lemma keeps_andthen {A B} (m : task A) (k : A -> task B) :
  keeps_all_sent m -> (forall a, keeps_all_sent (k a)) ->
  keeps_all_sent (andthen m k).
Proof.
  intros Hm Hk s s' b. unfold andthen.
  destruct (m s) as [s1 [a|e]] eqn:E; [|discriminate].
  intros Hrun Hs. exact (Hk a s1 s' b Hrun (Hm s s1 a E Hs)).
Qed.

Lemma keeps_send (message : value) :
  keeps_all_sent (send_personal_message link message).
Proof.
  intros s s' u. unfold send_personal_message, all_sent.
  destruct (link (attempts s)); [discriminate|]. intros [= <-] Hs.
  cbn [events attempts]. rewrite sent_count_app, Hs. simpl. lia.
Qed.

Lemma keeps_sleep (seconds : Q) : keeps_all_sent (sleep seconds).
Proof.
  intros s s' u. unfold sleep, all_sent. intros [= <-] Hs.
  cbn [events attempts]. rewrite sent_count_app, Hs. simpl. lia.
Qed.

Lemma keeps_dispatch (message : value) :
  keeps_all_sent (dispatch link message).
Proof.
  unfold dispatch.
  repeat first
    [ apply keeps_andthen; [|intros ?]
    | apply keeps_lift
    | apply keeps_send
    | apply keeps_sleep
    | apply keeps_pure
    | match goal with
      | |- keeps_all_sent (if ?b then _ else _) => destruct b
      end ].
Qed.

Lemma keeps_receive_loop (inbound : list (result value)) :
  keeps_all_sent (receive_loop link inbound).
Proof.
  induction inbound as [|r inbound IH]; cbn [receive_loop].
  - apply keeps_pure.
  - apply keeps_andthen; [apply keeps_lift | intros message].
    apply keeps_andthen; [apply keeps_dispatch | intros _; exact IH].
Qed.

Lemma grows_pure {A} (a : A) : grows (pure a).
Proof. intros s s' r [= <- _]. exists []. now rewrite app_nil_r. Qed.

Lemma grows_lift {A} (r : result A) : grows (lift r).
Proof. intros s s' r' [= <- _]. exists []. now rewrite app_nil_r. Qed.

Lemma grows_andthen {A B} (m : task A) (k : A -> task B) :
  grows m -> (forall a, grows (k a)) -> grows (andthen m k).
Proof.
  intros Hm Hk s s' r. unfold andthen.
  destruct (m s) as [s1 [a|e]] eqn:E.
  - intros Hrun. destruct (Hm s s1 _ E) as [r1 H1].
    destruct (Hk a s1 s' r Hrun) as [r2 H2].
    exists (r1 ++ r2)%list. now rewrite H2, H1, <- app_assoc.
  - intros [= <- _]. exact (Hm s s1 _ E).
Qed.

Lemma grows_send (message : value) :
  grows (send_personal_message link message).
Proof.
  intros s s' r. unfold send_personal_message.
  destruct (link (attempts s)); intros [= <- _]; cbn [events].
  - exists []. now rewrite app_nil_r.
  - eexists. reflexivity.
Qed.

Lemma grows_sleep (seconds : Q) : grows (sleep seconds).
Proof.
  intros s s' r. unfold sleep. intros [= <- _]. cbn [events].
  eexists. reflexivity.
Qed.

Lemma grows_dispatch (message : value) : grows (dispatch link message).
Proof.
  unfold dispatch.
  repeat first
    [ apply grows_andthen; [|intros ?]
    | apply grows_lift
    | apply grows_send
    | apply grows_sleep
    | apply grows_pure
    | match goal with
      | |- grows (if ?b then _ else _) => destruct b
      end ].
Qed.

Lemma grows_receive_loop (inbound : list (result value)) :
  grows (receive_loop link inbound).
Proof.
  induction inbound as [|r inbound IH]; cbn [receive_loop].
  - apply grows_pure.
  - apply grows_andthen; [apply grows_lift | intros message].
    apply grows_andthen; [apply grows_dispatch | intros _; exact IH].
Qed.

(** The receive loop at one message. *)
Lemma receive_loop_cons (message : value) (rest : list (result value))
    (s : session) :
  receive_loop link (Ok message :: rest) s
  = match dispatch link message s with
    | (s', Ok _) => receive_loop link rest s'
    | (s', Raise e) => (s', Raise e)
    end.
Proof. reflexivity. Qed.

(** The endpoint, once [accept] has returned, in terms of the welcome and
    of the receive loop. *)
Lemma endpoint_open (accept : option exn) (inbound : list (result value))
    (manager : ConnectionManager) (websocket : WebSocket)
    (client_id : string) (after : ConnectionManager)
    (happened : list event) :
  websocket_endpoint link accept inbound manager websocket client_id
  = (after, happened, Open) ->
  accept = None
  /\ after = connect manager websocket client_id
  /\ exists s0 s1 o,
       send_personal_message link (welcome client_id)
         {| events := []; attempts := 0 |} = (s0, Ok tt)
       /\ all_sent s0
       /\ receive_loop link inbound s0 = (s1, Ok o)
       /\ events s1 = happened.
Proof.
  unfold websocket_endpoint. destruct accept as [e|]; [discriminate|].
  unfold andthen.
  destruct (send_personal_message link (welcome client_id) _)
    as [s0 [[]|e]] eqn:Hw.
  - destruct (receive_loop link inbound s0) as [s1 [o|e]] eqn:Hloop.
    + intros [= <- <-]. split; [reflexivity|]. split; [reflexivity|].
      exists s0, s1, o. split; [reflexivity|]. split; [|auto].
      now apply (keeps_send (welcome client_id) _ s0 tt Hw).
    + destruct (is_Exception e); discriminate.
  - destruct (is_Exception e); discriminate.
Qed.

Lemma endpoint_after_welcome (inbound : list (result value))
    (manager : ConnectionManager) (websocket : WebSocket)
    (client_id : string) (s0 : session) :
  send_personal_message link (welcome client_id)
    {| events := []; attempts := 0 |} = (s0, Ok tt) ->
  websocket_endpoint link None inbound manager websocket client_id
  = match receive_loop link inbound s0 with
    | (s, Ok _) => (connect manager websocket client_id, events s, Open)
    | (s, Raise e) =>
        if is_Exception e
        then (disconnect (connect manager websocket client_id) websocket
                client_id, events s, Closed)
        else (connect manager websocket client_id, events s, Propagated e)
    end.
Proof.
  intros Hw. unfold websocket_endpoint, andthen. now rewrite Hw.
Qed.

End SessionSteps.

Section SessionClaim.
Import Websocket WebsocketFacts SessionFacts.

(** C10. Every inbound analyze message on a session.  Take a run of
    [websocket_endpoint] that is still in its receive loop after the
    messages [before], and let the next inbound message have the [type]
    ["analyze"].  When the socket takes the two sends, the endpoint sends
    [analysis_queued] with the [analysis_id] of the message and status
    ["processing"], sleeps half a second, and sends [analysis_result] with
    that [analysis_id], status ["completed"] and the empty list of
    vulnerabilities, right after what it had done before, and goes on
    receiving; whatever comes later is added after this reply.  The reply
    is made from the [analysis_id] alone, and no finding is ever in it. *)
Theorem session_answers_analyze_with_empty_result
    (link : nat -> option exn) (accept : option exn)
    (before later : list (result value)) (message : value)
    (manager after : ConnectionManager) (websocket : WebSocket)
    (client_id : string) (happened : list event) :
  websocket_endpoint link accept before manager websocket client_id
  = (after, happened, Open) ->
  get message "type" = Ok (VStr "analyze") ->
  link (sent_count happened) = None ->
  link (S (sent_count happened)) = None ->
  exists analysis_id,
    get message "analysis_id" = Ok analysis_id
    /\ websocket_endpoint link accept (before ++ [Ok message]) manager
         websocket client_id
       = (after, (happened ++ analyze_reply analysis_id)%list, Open)
    /\ (exists rest,
          snd (fst (websocket_endpoint link accept
                      (before ++ Ok message :: later) manager websocket
                      client_id))
          = (happened ++ analyze_reply analysis_id ++ rest)%list)
    /\ get (analysis_result analysis_id) "status" = Ok (VStr "completed")
    /\ get (analysis_result analysis_id) "vulnerabilities" = Ok (VList []).
Proof.
  intros Hrun Htype Hfirst Hsecond.
  apply endpoint_open in Hrun
    as (-> & -> & s0 & s1 & o & Hw & Hs0 & Hloop & <-).
  assert (Hs1 : all_sent s1)
    by exact (keeps_receive_loop link before s0 s1 o Hloop Hs0).
  unfold all_sent in Hs1. rewrite <- Hs1 in Hfirst, Hsecond.
  destruct (dispatch_analyze link message s1 Htype Hfirst Hsecond)
    as (analysis_id & Hid & Hdispatch).
  exists analysis_id. split; [exact Hid|].
  split; [|split; [|split; reflexivity]].
  - rewrite (endpoint_after_welcome link _ manager websocket client_id s0 Hw).
    rewrite receive_loop_app, Hloop, receive_loop_cons, Hdispatch.
    reflexivity.
  - rewrite (endpoint_after_welcome link _ manager websocket client_id s0 Hw).
    rewrite receive_loop_app, Hloop, receive_loop_cons, Hdispatch.
    destruct (receive_loop link later _) as [s3 r3] eqn:Hlater.
    destruct (grows_receive_loop link later _ s3 r3 Hlater) as [rest Hrest].
    cbn [events] in Hrest. exists rest.
    unfold analyze_reply. rewrite <- app_assoc in Hrest.
    destruct r3 as [o3|e3]; [|destruct (is_Exception e3)]; exact Hrest.
Qed.

End SessionClaim.

Section SessionWitness.
Import Websocket WebsocketFacts SessionFacts Examples.

Lemma session_answers_analyze_witness :
  exists analysis_id,
    get analyze_request "analysis_id" = Ok analysis_id
    /\ websocket_endpoint sound None
         ([Ok (VDict [("type", VStr "ping")])] ++ [Ok analyze_request])
         {| active_connections := ∅ |} 7%nat "client-1"
       = (connect {| active_connections := ∅ |} 7%nat "client-1",
          ([Sent (welcome "client-1");
            Sent (VDict [("type", VStr "pong"); ("timestamp", VNone)])]
           ++ analyze_reply analysis_id)%list,
          Open)
    /\ (exists rest,
          snd (fst (websocket_endpoint sound None
                      ([Ok (VDict [("type", VStr "ping")])]
                       ++ Ok analyze_request :: [Ok (VList [])])
                      {| active_connections := ∅ |} 7%nat "client-1"))
          = ([Sent (welcome "client-1");
              Sent (VDict [("type", VStr "pong"); ("timestamp", VNone)])]
             ++ analyze_reply analysis_id ++ rest)%list)
    /\ get (analysis_result analysis_id) "status" = Ok (VStr "completed")
    /\ get (analysis_result analysis_id) "vulnerabilities" = Ok (VList []).
Proof.
  apply (session_answers_analyze_with_empty_result sound None
           [Ok (VDict [("type", VStr "ping")])] [Ok (VList [])]
           analyze_request {| active_connections := ∅ |}
           (connect {| active_connections := ∅ |} 7%nat "client-1")
           7%nat "client-1"
           [Sent (welcome "client-1");
            Sent (VDict [("type", VStr "pong"); ("timestamp", VNone)])]);
    reflexivity.
Defined.

End SessionWitness.

Section SessionMoreClaims.
Import Websocket WebsocketFacts WebsocketFacts2.

(** X24. The registry after a session.  When the endpoint has closed the
    session (a disconnect or any other [Exception]), its handle is no
    longer registered and every other pair is as before; while the session
    is open, or when something that is not an [Exception] passed through,
    the handle is registered on top of what was there; when
    [websocket.accept()] raised, the registry is untouched. *)
Theorem endpoint_leaves_registry_consistent
    (link : nat -> option exn) (accept : option exn)
    (inbound : list (result value)) (manager : ConnectionManager)
    (websocket : WebSocket) (client_id : string) :
  let '(after, events, ending) :=
    websocket_endpoint link accept inbound manager websocket client_id in
  match ending with
  | Closed =>
      forall c h,
        registered after c h
        <-> registered manager c h /\ ~ (c = client_id /\ h = websocket)
  | Open =>
      forall c h,
        registered after c h
        <-> registered manager c h \/ (c = client_id /\ h = websocket)
  | Propagated e =>
      (accept = Some e /\ after = manager /\ events = [])
      \/ (accept = None /\ is_Exception e = false
          /\ forall c h,
               registered after c h
               <-> registered manager c h \/ (c = client_id /\ h = websocket))
  end.
Proof.
  unfold websocket_endpoint. destruct accept as [e|]; [left; auto|].
  destruct (andthen _ _ _) as [s [o|e]].
  - intros c h. apply registered_connect.
  - destruct (is_Exception e) eqn:He.
    + intros c h. rewrite registered_disconnect, registered_connect. tauto.
    + right. split; [reflexivity|]. split; [exact He|].
      intros c h. apply registered_connect.
Qed.

(** X25. Ping, unknown types and values that are not objects.  A message
    of type ["ping"] is answered by one ["pong"] that echoes its
    [timestamp] ([None] when it has none); a message of any other type
    than ["ping"] and ["analyze"], or without type, is ignored: nothing is
    sent and nothing is raised; a decoded value that is not an object
    raises an [AttributeError] before anything is sent. *)
Theorem ping_is_echoed_and_other_types_ignored
    (link : nat -> option exn) (message : value) (s : session) :
  (get message "type" = Ok (VStr "ping") ->
   link (attempts s) = None ->
   exists timestamp,
     get message "timestamp" = Ok timestamp
     /\ dispatch link message s
        = ({| events :=
                (events s ++ [Sent (VDict [("type", VStr "pong");
                                           ("timestamp", timestamp)])])%list;
              attempts := S (attempts s) |}, Ok tt))
  /\ (forall ty,
        get message "type" = Ok ty ->
        is_str ty "ping" = false ->
        is_str ty "analyze" = false ->
        dispatch link message s = (s, Ok tt))
  /\ ((forall items, message <> VDict items) ->
      dispatch link message s
      = (s, Raise (AttributeError "object has no attribute 'get'"))).
Proof.
  split; [|split].
  - intros Htype Hlink. destruct message as [| | | | |items];
      try discriminate.
    exists (default VNone (assoc "timestamp" items)). split; [reflexivity|].
    unfold dispatch, andthen, lift. rewrite Htype. cbn [is_str String.eqb].
    simpl. unfold send_personal_message. now rewrite Hlink.
  - intros ty Htype Hping Hanalyze. unfold dispatch, andthen, lift.
    rewrite Htype, Hping, Hanalyze. reflexivity.
  - intros Hobj. destruct message; try reflexivity.
    now destruct (Hobj items).
Qed.

(** X26. A session ends at the first failure.  Once the run of the
    endpoint over some inbound messages has ended otherwise than open (a
    message raised, a send failed, the client went away), whatever comes
    after these messages changes nothing: it is never read. *)
Theorem session_ends_at_first_failure
    (link : nat -> option exn) (accept : option exn)
    (inbound later : list (result value)) (manager : ConnectionManager)
    (websocket : WebSocket) (client_id : string) :
  snd (websocket_endpoint link accept inbound manager websocket client_id)
  <> Open ->
  websocket_endpoint link accept (inbound ++ later) manager websocket
    client_id
  = websocket_endpoint link accept inbound manager websocket client_id.
Proof.
  unfold websocket_endpoint. destruct accept as [e|]; [reflexivity|].
  unfold andthen.
  destruct (send_personal_message link (welcome client_id) _) as [s0 [[]|e]];
    [|reflexivity].
  rewrite receive_loop_app.
  destruct (receive_loop link inbound s0) as [s1 [o|e]]; [|reflexivity].
  cbn [snd]. intros H. now destruct H.
Qed.

End SessionMoreClaims.

Section SessionMoreWitnesses.
Import Websocket WebsocketFacts WebsocketFacts2 Examples.

Lemma ping_is_echoed_witness :
  exists timestamp,
    get (VDict [("type", VStr "ping"); ("timestamp", VInt 7)]) "timestamp"
    = Ok timestamp
    /\ dispatch sound (VDict [("type", VStr "ping"); ("timestamp", VInt 7)])
         fresh
       = ({| events := [Sent (VDict [("type", VStr "pong");
                                     ("timestamp", timestamp)])];
             attempts := 1 |}, Ok tt).
Proof.
  destruct (ping_is_echoed_and_other_types_ignored sound
              (VDict [("type", VStr "ping"); ("timestamp", VInt 7)]) fresh)
    as [Hping _].
  apply Hping; reflexivity.
Defined.

Lemma session_ends_at_first_failure_witness :
  websocket_endpoint sound None
    ([Ok (VList [])] ++ [Ok analyze_request])
    {| active_connections := ∅ |} 7%nat "client-1"
  = websocket_endpoint sound None [Ok (VList [])]
      {| active_connections := ∅ |} 7%nat "client-1".
Proof.
  apply (session_ends_at_first_failure sound None [Ok (VList [])]
           [Ok analyze_request] {| active_connections := ∅ |} 7%nat
           "client-1").
  vm_compute. discriminate.
Defined.

End SessionMoreWitnesses.

(** ** The endpoints of [analysis.py] *)

Section RouteFacts.
Import StreamProcessor StreamFacts StreamFacts2 Routes.

Lemma result_is_not_analysis (x y : string) :
  "result:" ++ x <> "analysis:" ++ y.
Proof. discriminate. Qed.

Lemma writes_results_only_app (t1 t2 : list effect) :
  writes_results_only t1 -> writes_results_only t2 ->
  writes_results_only (t1 ++ t2).
Proof. unfold writes_results_only. apply Forall_app_2. Qed.

Lemma handle_entry_writes_results (d : delivery) :
  writes_results_only (fst (handle_entry d)).
Proof.
  destruct d as [[message_id message_data] w].
  unfold handle_entry, process_code_analysis, len, redis_call,
    writes_results_only.
  destruct (message_data !! "code"); simpl; [|constructor].
  destruct (setex_raises w); simpl; [constructor|].
  destruct (xack_raises w); simpl; repeat constructor; eauto.
Qed.

Lemma seq_writes_results {A B} (m : run A) (k : A -> run B) :
  writes_results_only (fst m) ->
  (forall a, writes_results_only (fst (k a))) ->
  writes_results_only (fst (seq m k)).
Proof.
  intros Hm Hk. destruct m as [t [a|e]]; simpl in *; [|exact Hm].
  specialize (Hk a). destruct (k a) as [t' r]. simpl in *.
  now apply writes_results_only_app.
Qed.

Lemma process_message_list_writes_results (l : list delivery) :
  writes_results_only (fst (process_message_list l)).
Proof.
  induction l as [|d l IH]; [constructor|].
  rewrite process_message_list_cons.
  apply seq_writes_results; [apply handle_entry_writes_results | auto].
Qed.

Lemma process_messages_writes_results
    (messages : list (string * list delivery)) :
  writes_results_only (fst (process_messages messages)).
Proof.
  induction messages as [|[stream_name l] messages IH]; [constructor|].
  cbn [process_messages].
  apply seq_writes_results;
    [apply process_message_list_writes_results | auto].
Qed.

Lemma iteration_writes_results (r : read) :
  writes_results_only (fst (iteration r)).
Proof.
  unfold iteration, turn, try_block.
  assert (Hbody : writes_results_only
            (fst (match r with
                  | Ok messages => process_messages messages
                  | Raise e => ([], Raise e)
                  end))).
  { destruct r; [apply process_messages_writes_results | constructor]. }
  destruct (match r with Ok _ => _ | Raise _ => _ end) as [t [u|e]];
    simpl in *; [exact Hbody|].
  destruct e; simpl; try exact Hbody;
    (apply writes_results_only_app; [exact Hbody | repeat constructor]).
Qed.

Lemma loop_writes_results (script : list read) :
  writes_results_only (fst (loop script)).
Proof.
  induction script as [|r script IH]; [constructor|]. cbn [loop].
  pose proof (iteration_writes_results r) as Hr.
  destruct (iteration r) as [t [[]|e]]; simpl in *; try exact Hr.
  destruct (loop script) as [t' s]. simpl in *.
  now apply writes_results_only_app.
Qed.

Lemma main_writes_results (xgroup_create : option exn)
    (script : list read) :
  writes_results_only (fst (main xgroup_create script)).
Proof.
  unfold main. destruct xgroup_create as [[]|];
    try constructor; try apply loop_writes_results.
  destruct (contains "BUSYGROUP" msg);
    [apply loop_writes_results | constructor].
Qed.

(** Effects that write results only leave the [analysis:] keys alone. *)
Lemma analysis_keys_untouched (t : list effect) (r : redis)
    (analysis_id : string) :
  writes_results_only t ->
  store (apply_effects t r) !! ("analysis:" ++ analysis_id)
  = store r !! ("analysis:" ++ analysis_id).
Proof.
  unfold apply_effects. intros Ht. revert r.
  induction Ht as [|eff t Heff _ IH]; intros r; [reflexivity|].
  cbn [fold_left]. rewrite IH. destruct eff; cbn [apply_effect store];
    try reflexivity.
  destruct Heff as [x ->]. apply lookup_insert_ne, result_is_not_analysis.
Qed.

Lemma stream_message_code (analysis_id scan_id : string)
    (request : CodeAnalysisRequest) (timestamp : string) :
  stream_message analysis_id scan_id request timestamp !! "code"
  = Some (code request)
  /\ stream_message analysis_id scan_id request timestamp !! "analysis_id"
     = Some analysis_id.
Proof.
  unfold stream_message. split.
  - rewrite lookup_insert_ne by discriminate.
    rewrite lookup_insert_ne by discriminate.
    apply lookup_insert_eq.
  - apply lookup_insert_eq.
Qed.

End RouteFacts.

Section RouteClaims.
Import Analysis StreamProcessor StreamFacts StreamFacts2 Routes.

(** X27. A queued file is found again.  When the commit and Redis go
    through, [analyze_file] answers with status ["queued"] and a fresh
    [analysis_id], and [get_analysis_result] on that identifier then
    answers the object stored for 3600 seconds: the scan, the code, the
    path, the language and the status ["queued"]; an identifier under
    which nothing is stored gets a 404. *)
Theorem queued_file_is_found
    (uuid4 : nat -> string) (w : surroundings)
    (request : CodeAnalysisRequest) (store : gmap string (Z * value)) :
  first_commit w = None ->
  redis_raises w = None ->
  let queued :=
    VDict [ ("scan_id", VStr (new_scan_id w));
            ("code", VStr (code request));
            ("file_path", VStr (file_path request));
            ("language", VStr (language request));
            ("status", VStr "queued") ] in
  snd (analyze_file uuid4 w request)
  = Respond (VDict [ ("analysis_id", VStr (uuid4 0%nat));
                     ("scan_id", VStr (new_scan_id w));
                     ("status", VStr "queued");
                     ("message", VStr "File queued for analysis") ])
  /\ store_after (fst (analyze_file uuid4 w request)) store
       !! ("analysis:" ++ uuid4 0%nat) = Some (3600, queued)
  /\ get_analysis_result
       (store_after (fst (analyze_file uuid4 w request)) store) None
       (uuid4 0%nat)
     = Respond queued
  /\ (forall other,
        store !! ("analysis:" ++ other) = None ->
        get_analysis_result store None other
        = HTTPException 404 "Analysis not found").
Proof.
  intros Hcommit Hredis. cbv zeta.
  unfold analyze_file, guarded, call, unit_step.
  rewrite Hcommit, Hredis. cbn [next fst snd app store_after fold_left].
  split; [reflexivity|]. split; [apply lookup_insert_eq|]. split.
  - unfold get_analysis_result. now rewrite lookup_insert_eq.
  - intros other Hnone. unfold get_analysis_result. now rewrite Hnone.
Qed.

(** X28. What the worker stores is never served.  The worker writes under
    keys that start with ["result:"], and [get_analysis_result] reads the
    key ["analysis:"] followed by the identifier: whatever the worker has
    processed, the answer of [get_analysis_result] is the one it would
    have given before. *)
Theorem worker_results_are_never_served
    (xgroup_create : option exn) (script : list read) (r : redis)
    (get_raises : option exn) (analysis_id : string) :
  get_analysis_result
    (store (apply_effects (fst (main xgroup_create script)) r))
    get_raises analysis_id
  = get_analysis_result (store r) get_raises analysis_id.
Proof.
  unfold get_analysis_result.
  now rewrite (analysis_keys_untouched _ r analysis_id
                 (main_writes_results xgroup_create script)).
Qed.

(** X29. The realtime endpoint when nothing raises.  The scan is added and
    committed, the entry is published on the stream (with the
    [analysis_id] and the code of the request, and the project
    ["default"] when the request names none), the findings of the engine
    are saved one by one as open vulnerabilities of the scan, the scan is
    completed with their count, and the response carries the same
    [analysis_id], status ["completed"] and exactly these findings. *)
Theorem realtime_returns_the_findings_it_saved
    (uuid4 : nat -> string) {D} `{Detector D}
    (ML_AVAILABLE : bool) (get_detector : result D)
    (w : surroundings) (request : CodeAnalysisRequest)
    (findings : list Vulnerability) :
  first_commit w = None ->
  redis_raises w = None ->
  second_commit w = None ->
  returned (detect_simple_vulnerabilities (fun n => uuid4 (S n))
              ML_AVAILABLE get_detector (code request) (language request))
  = Ok findings ->
  analyze_code_realtime uuid4 ML_AVAILABLE get_detector w request
  = (([ AddScan "realtime" "running"; Commit; Refresh;
        XADD "code_analysis_stream"
          (stream_message (uuid4 0%nat) (new_scan_id w) request (timestamp w)) ]
      ++ save_vulnerabilities (new_scan_id w) (file_path request) findings
      ++ [ CompleteScan (completed_at w) (Z.of_nat (length findings)) 1;
           Commit ])%list,
     Respond {| analysis_id := uuid4 0%nat;
                status := "completed";
                vulnerabilities := findings;
                analyzed_at := finished_at w;
                scan_id := Some (new_scan_id w) |}).
Proof.
  intros Hc1 Hredis Hc2 Hdetect.
  unfold analyze_code_realtime, guarded, call, unit_step.
  rewrite Hc1, Hredis, Hc2, Hdetect. cbn [next app].
  reflexivity.
Qed.

(** X30. From the endpoint to the worker.  The entry the realtime
    endpoint publishes always has a [code] field, so the worker processes
    it without error when Redis answers: it stores, under ["result:"]
    followed by the [analysis_id] of the response, a result that counts
    zero vulnerabilities, whatever the findings of the response were, and
    acknowledges the entry. *)
Theorem published_entry_goes_through_the_worker
    (uuid4 : nat -> string) (w : surroundings)
    (request : CodeAnalysisRequest) (message_id : string)
    (c : conditions) :
  setex_raises c = None ->
  xack_raises c = None ->
  let message :=
    stream_message (uuid4 0%nat) (new_scan_id w) request (timestamp w) in
  handle_entry ((message_id, message), c)
  = ([SETEX ("result:" ++ uuid4 0%nat) 3600
        (VDict [ ("analysis_id", VStr (uuid4 0%nat));
                 ("status", VStr "completed");
                 ("processed_at", VStr (utcnow c));
                 ("vulnerabilities_found", VInt 0) ]);
      XACK "code_analysis_stream" "analysis_workers" message_id], Ok tt).
Proof.
  intros Hset Hack. cbv zeta.
  destruct (stream_message_code (uuid4 0%nat) (new_scan_id w) request
              (timestamp w)) as [Hcode Hid].
  rewrite (handle_entry_ok message_id _ c (code request) Hcode Hset Hack).
  unfold result_key, stored_result, ack. now rewrite Hid.
Qed.

End RouteClaims.

Section RouteFailures.
Import Analysis Routes.

(** X13. A failed realtime request is rolled back, not unpublished.  An
    [Exception] at the first commit or at the stream gives a 500 with
    nothing published; an [Exception] at the last commit gives a 500 too,
    after the rollback, but the entry is already on the stream and stays
    there: the endpoint has no step that takes it back. *)
Theorem failed_request_is_rolled_back_not_unpublished
    (uuid4 : nat -> string) {D} `{Detector D}
    (ML_AVAILABLE : bool) (get_detector : result D)
    (w : surroundings) (request : CodeAnalysisRequest) (e : exn) :
  is_Exception e = true ->
  let message :=
    stream_message (uuid4 0%nat) (new_scan_id w) request (timestamp w) in
  (first_commit w = Some e ->
   analyze_code_realtime uuid4 ML_AVAILABLE get_detector w request
   = ([AddScan "realtime" "running"; Rollback],
      HTTPException 500 (str_exn e)))
  /\ (first_commit w = None ->
      redis_raises w = Some e ->
      analyze_code_realtime uuid4 ML_AVAILABLE get_detector w request
      = ([AddScan "realtime" "running"; Commit; Refresh; Rollback],
         HTTPException 500 (str_exn e)))
  /\ (forall findings,
        first_commit w = None ->
        redis_raises w = None ->
        returned (detect_simple_vulnerabilities (fun n => uuid4 (S n))
                    ML_AVAILABLE get_detector
                    (code request) (language request)) = Ok findings ->
        second_commit w = Some e ->
        analyze_code_realtime uuid4 ML_AVAILABLE get_detector w request
        = (([ AddScan "realtime" "running"; Commit; Refresh;
              XADD "code_analysis_stream" message ]
            ++ save_vulnerabilities (new_scan_id w) (file_path request)
                 findings
            ++ [ CompleteScan (completed_at w)
                   (Z.of_nat (length findings)) 1;
                 Rollback ])%list,
           HTTPException 500 (str_exn e))).
Proof.
  intros He. cbv zeta. split; [|split].
  - intros Hc1. unfold analyze_code_realtime, guarded, call.
    rewrite Hc1. cbn [next app]. now rewrite He.
  - intros Hc1 Hredis. unfold analyze_code_realtime, guarded, call.
    rewrite Hc1, Hredis. cbn [next app]. now rewrite He.
  - intros findings Hc1 Hredis Hdetect Hc2.
    unfold analyze_code_realtime, guarded, call.
    rewrite Hc1, Hredis, Hc2, Hdetect. cbn [next app]. rewrite He.
    now rewrite <- app_assoc.
Qed.

End RouteFailures.

Section RouteWitnesses.
Import Analysis StreamProcessor StreamFacts Routes Examples MoreExamples.

Lemma queued_file_is_found_witness :
  get_analysis_result
    (store_after (fst (analyze_file serial quiet eval_request)) ∅) None
    (serial 0%nat)
  = Respond (VDict [ ("scan_id", VStr "scan-1");
                     ("code", VStr "eval(x)");
                     ("file_path", VStr "app.js");
                     ("language", VStr "javascript");
                     ("status", VStr "queued") ]).
Proof.
  destruct (queued_file_is_found serial quiet eval_request ∅)
    as (_ & _ & Hfound & _); [reflexivity | reflexivity|].
  exact Hfound.
Defined.

Lemma realtime_returns_the_findings_witness :
  snd (analyze_code_realtime serial false (Ok unloaded) quiet eval_request)
  = Respond {| analysis_id := "uuid-0";
               status := "completed";
               vulnerabilities :=
                 [xss_finding 1 "eval(x)" "eval(" "uuid-1"];
               analyzed_at := "2024-01-01T12:00:02";
               scan_id := Some "scan-1" |}.
Proof.
  rewrite (realtime_returns_the_findings_it_saved serial false (Ok unloaded)
             quiet eval_request [xss_finding 1 "eval(x)" "eval(" "uuid-1"]);
    reflexivity.
Defined.

Lemma published_entry_goes_through_witness :
  handle_entry
    (("5-0",
      stream_message (serial 0%nat) "scan-1" eval_request
        "2024-01-01T12:00:00"), calm)
  = ([SETEX ("result:" ++ serial 0%nat) 3600
        (VDict [ ("analysis_id", VStr (serial 0%nat));
                 ("status", VStr "completed");
                 ("processed_at", VStr "2024-01-01T12:00:00");
                 ("vulnerabilities_found", VInt 0) ]);
      XACK "code_analysis_stream" "analysis_workers" "5-0"], Ok tt).
Proof.
  apply (published_entry_goes_through_the_worker serial quiet eval_request
           "5-0" calm); reflexivity.
Defined.

Lemma failed_request_witness :
  snd (analyze_code_realtime serial false (Ok unloaded) late_failure
         eval_request)
  = HTTPException 500 "database is gone"
  /\ In (XADD "code_analysis_stream"
           (stream_message (serial 0%nat) "scan-1" eval_request
              "2024-01-01T12:00:00"))
        (fst (analyze_code_realtime serial false (Ok unloaded) late_failure
                eval_request)).
Proof.
  destruct (failed_request_is_rolled_back_not_unpublished serial false
              (Ok unloaded) late_failure eval_request
              (ConnectionError "database is gone") eq_refl)
    as (_ & _ & Hlate).
  rewrite (Hlate [xss_finding 1 "eval(x)" "eval(" "uuid-1"]);
    try reflexivity.
  split; [reflexivity|]. cbn [fst]. simpl. auto.
Defined.

End RouteWitnesses.
